(** * DLWP: forecast verification and insolation

    A shallow embedding of [DLWP/model/verify.py] and of [insolation],
    [delete_nan_samples] and [train_test_split_ind] from [DLWP/util.py],
    together with the part of NumPy, pandas and xarray they rely on.

    Conventions of the embedding:
    - a NumPy float is a real number or not-a-number: [float := option R],
      with [None] for NaN.  Rounding and infinities are not modelled, and
      every array holds floats.  The one conversion that the code asks for
      by name, to the single precision of a verification array, is an
      argument [single] of the functions that build one: what the
      conversion gives of a number;
    - an [ndarray] is a shape and a row-major buffer, as in NumPy;
    - an [axis] argument is [None] or a tuple of axes, each counted from
      the front;
    - a Python exception is the [Raise] case of [result];
    - time stamps are integers, in nanoseconds since 1970-01-01;
    - the arrays that [insolation] and [delete_nan_samples] may update in
      place live in a heap, a finite map from references to arrays, and
      are passed by reference;
    - what the random generator draws is an argument of
      [train_test_split_ind]. *)

From Stdlib Require Import String Reals Lra Lia ZArith List Psatz.
From stdpp Require Import gmap sorting.
Import ListNotations.

(* ================================================================== *)
(** * Exceptions *)
(* ================================================================== *)

Inductive exn : Type :=
| ValueError
| IndexError
| KeyError
| AxisError
| InvalidIndexError
| AttributeError.

Inductive result (A : Type) : Type :=
| Ok (a : A)
| Raise (e : exn).
Arguments Ok {A} a.
Arguments Raise {A} e.

#[global] Instance result_ret : MRet result := fun _ a => Ok a.
#[global] Instance result_bind : MBind result := fun _ _ f m =>
  match m with
  | Ok a => f a
  | Raise e => Raise e
  end.

(** A [for] loop that appends one value per iteration to a Python list and
    stops at the first exception. *)
Fixpoint for_each {A B : Type} (f : A -> result B) (l : list A)
  : result (list B) :=
  match l with
  | [] => Ok []
  | x :: l' =>
      match f x with
      | Raise e => Raise e
      | Ok y =>
          match for_each f l' with
          | Raise e => Raise e
          | Ok ys => Ok (y :: ys)
          end
      end
  end.

(* ================================================================== *)
(** * Floating-point values *)
(* ================================================================== *)

Definition float : Type := option R.
Definition nan : float := None.

Definition lift1 (f : R -> R) (x : float) : float :=
  match x with
  | Some r => Some (f r)
  | None => None
  end.

Definition lift2 (f : R -> R -> R) (x y : float) : float :=
  match x, y with
  | Some r, Some s => Some (f r s)
  | _, _ => None
  end.

Definition fadd : float -> float -> float := lift2 Rplus.
Definition fsub : float -> float -> float := lift2 Rminus.
Definition fmul : float -> float -> float := lift2 Rmult.
Definition fabs : float -> float := lift1 Rabs.
Definition fsin : float -> float := lift1 sin.
Definition fcos : float -> float := lift1 cos.

(** [x ** 2.] *)
Definition fsquare : float -> float := lift1 (fun r => (r ^ 2)%R).

(** [x ** -2.]; the base is never zero where the source uses it. *)
Definition finvsquare : float -> float := lift1 (fun r => (/ (r ^ 2))%R).

(** [np.sqrt]: not-a-number below zero. *)
Definition fsqrt (x : float) : float :=
  match x with
  | Some r => if Rlt_dec r 0 then None else Some (sqrt r)
  | None => None
  end.

(** [np.arcsin]: not-a-number outside [-1, 1]. *)
Definition farcsin (x : float) : float :=
  match x with
  | Some r => if Rlt_dec 1 (Rabs r) then None else Some (asin r)
  | None => None
  end.

(* ================================================================== *)
(** * N-dimensional arrays *)
(* ================================================================== *)

Record ndarray : Type := mk_array {
  shape : list nat;
  data : list float
}.

Definition ndim (a : ndarray) : nat := length (shape a).

(** Number of elements of an array of shape [s]. *)
Definition size_of (s : list nat) : nat := fold_right Nat.mul 1 s.

Definition wf_array (a : ndarray) : Prop :=
  length (data a) = size_of (shape a).

(** A 0-d array, which is what a NumPy reduction over every axis returns. *)
Definition scalar (x : float) : ndarray := mk_array [] [x].

(** [a.shape[0]] *)
Definition shape0 (a : ndarray) : result nat :=
  match shape a with
  | [] => Raise IndexError
  | n :: _ => Ok n
  end.

(** Elementwise application of a unary function or of an operation with a
    Python scalar. *)
Definition np_map (f : float -> float) (a : ndarray) : ndarray :=
  mk_array (shape a) (map f (data a)).

(** [n] consecutive blocks of [k] elements. *)
Fixpoint chunks {A : Type} (k n : nat) (d : list A) : list (list A) :=
  match n with
  | O => []
  | S n' => firstn k d :: chunks k n' (skipn k d)
  end.

(** ** Broadcasting *)

Definition pad_shape (r : nat) (s : list nat) : list nat :=
  repeat 1 (r - length s) ++ s.

Definition broadcast_dim (n1 n2 : nat) : result nat :=
  if n1 =? n2 then Ok n1
  else if n1 =? 1 then Ok n2
  else if n2 =? 1 then Ok n1
  else Raise ValueError.

Fixpoint broadcast_shapes (s1 s2 : list nat) : result (list nat) :=
  match s1, s2 with
  | [], [] => Ok []
  | n1 :: r1, n2 :: r2 =>
      match broadcast_dim n1 n2 with
      | Raise e => Raise e
      | Ok n =>
          match broadcast_shapes r1 r2 with
          | Raise e => Raise e
          | Ok r => Ok (n :: r)
          end
      end
  | _, _ => Raise ValueError
  end.

(** The buffer of [op a b] for shapes of equal rank that broadcast. *)
Fixpoint broadcast_data (op : float -> float -> float)
    (s1 s2 : list nat) (d1 d2 : list float) : list float :=
  match s1, s2 with
  | n1 :: r1, n2 :: r2 =>
      let c1 := chunks (size_of r1) n1 d1 in
      let c2 := chunks (size_of r2) n2 d2 in
      let rows :=
        if n1 =? n2 then combine c1 c2
        else if n1 =? 1 then map (fun y => (d1, y)) c2
        else map (fun x => (x, d2)) c1 in
      concat (map (fun p => broadcast_data op r1 r2 (fst p) (snd p)) rows)
  | _, _ =>
      match d1, d2 with
      | x :: _, y :: _ => [op x y]
      | _, _ => []
      end
  end.

(** [a - b], [a * b], ... between two arrays. *)
Definition np_binop (op : float -> float -> float) (a b : ndarray)
  : result ndarray :=
  let r := Nat.max (ndim a) (ndim b) in
  let s1 := pad_shape r (shape a) in
  let s2 := pad_shape r (shape b) in
  match broadcast_shapes s1 s2 with
  | Raise e => Raise e
  | Ok s => Ok (mk_array s (broadcast_data op s1 s2 (data a) (data b)))
  end.

Definition np_sub : ndarray -> ndarray -> result ndarray := np_binop fsub.
Definition np_add : ndarray -> ndarray -> result ndarray := np_binop fadd.
Definition np_mul : ndarray -> ndarray -> result ndarray := np_binop fmul.

(** ** Indexing *)

(** [a[f:]] for [f >= 0]. *)
Definition slice_from (f : nat) (a : ndarray) : result ndarray :=
  match shape a with
  | [] => Raise IndexError
  | n :: r => Ok (mk_array ((n - f) :: r) (skipn (f * size_of r) (data a)))
  end.

(** Where a slice [:k] stops on an axis of length [n]; a negative [k]
    counts from the end. *)
Definition stop_index (k : Z) (n : nat) : nat :=
  if (k <? 0)%Z then Z.to_nat (Z.of_nat n + k)
  else Nat.min (Z.to_nat k) n.

(** [a[:k]] *)
Definition slice_to (k : Z) (a : ndarray) : result ndarray :=
  match shape a with
  | [] => Raise IndexError
  | n :: r =>
      let m := stop_index k n in
      Ok (mk_array (m :: r) (firstn (m * size_of r) (data a)))
  end.

(** [a[f]] for [f >= 0]. *)
Definition index0 (f : nat) (a : ndarray) : result ndarray :=
  match shape a with
  | [] => Raise IndexError
  | n :: r =>
      if f <? n
      then Ok (mk_array r (firstn (size_of r) (skipn (f * size_of r) (data a))))
      else Raise IndexError
  end.

(** [a[f, :k]] *)
Definition index0_slice_to (f : nat) (k : Z) (a : ndarray) : result ndarray :=
  match shape a with
  | _ :: _ :: _ => row ← index0 f a; slice_to k row
  | _ => Raise IndexError
  end.

(** ** Reductions that skip not-a-number *)

(** Running sum and count of the values that are not NaN. *)
Definition acc : Type := (R * nat)%type.

Definition acc_of (x : float) : acc :=
  match x with
  | Some r => (r, 1)
  | None => (0%R, 0)
  end.

Definition acc_add (a b : acc) : acc := ((fst a + fst b)%R, snd a + snd b).

(** The mean of an empty selection is NaN. *)
Definition acc_mean (a : acc) : float :=
  match snd a with
  | O => None
  | S _ => Some (fst a / INR (snd a))%R
  end.

Definition acc_sum (l : list acc) : acc := fold_right acc_add (0%R, 0) l.

(** [np.nanmean(d)] over a whole buffer. *)
Definition nanmean_all (d : list float) : float :=
  acc_mean (acc_sum (map acc_of d)).

Definition in_axes (k : nat) (axes : list nat) : bool :=
  existsb (Nat.eqb k) axes.

Fixpoint reduced_shape (axes : list nat) (cur : nat) (s : list nat)
  : list nat :=
  match s with
  | [] => []
  | n :: r =>
      if in_axes cur axes then reduced_shape axes (S cur) r
      else n :: reduced_shape axes (S cur) r
  end.

Fixpoint acc_zip (a b : list acc) : list acc :=
  match a, b with
  | x :: a', y :: b' => acc_add x y :: acc_zip a' b'
  | _, _ => []
  end.

Fixpoint reduce_axes (axes : list nat) (cur : nat) (s : list nat)
    (d : list acc) : list acc :=
  match s with
  | [] => d
  | n :: r =>
      let parts := map (reduce_axes axes (S cur) r) (chunks (size_of r) n d) in
      if in_axes cur axes
      then fold_right acc_zip
             (repeat (0%R, 0) (size_of (reduced_shape axes (S cur) r))) parts
      else concat parts
  end.

(** No axis may be named twice. *)
Fixpoint no_dupb (l : list nat) : bool :=
  match l with
  | [] => true
  | x :: l' => negb (in_axes x l') && no_dupb l'
  end.

(** [np.nanmean(a, axis=axis)]; [axis] is [None] or a tuple of axes (an
    [int] axis is the tuple of that one axis). *)
Definition nanmean (a : ndarray) (axis : option (list nat)) : result ndarray :=
  match axis with
  | None => Ok (scalar (nanmean_all (data a)))
  | Some axes =>
      if negb (forallb (fun k => k <? ndim a) axes) then Raise AxisError
      else if negb (no_dupb axes) then Raise ValueError
      else Ok (mk_array (reduced_shape axes 0 (shape a))
                 (map acc_mean
                    (reduce_axes axes 0 (shape a) (map acc_of (data a)))))
  end.

(** [np.array(me)] for a list of arrays: the entries are stacked along a new
    first axis; entries of different shapes cannot be stacked. *)
Definition np_array (me : list ndarray) : result ndarray :=
  match me with
  | [] => Ok (mk_array [0] [])
  | a :: _ =>
      if forallb (fun b => bool_decide (shape b = shape a)) me
      then Ok (mk_array (length me :: shape a) (concat (map data me)))
      else Raise ValueError
  end.

(* ================================================================== *)
(** * Error metrics ([DLWP/model/verify.py]) *)
(* ================================================================== *)

Definition known_method (method : string) : bool :=
  existsb (String.eqb method) ["mse"; "mae"; "rmse"]%string.

(** The three reductions, applied to a difference [diff]. *)
Definition reduce_error (method : string) (diff : ndarray)
    (axis : option (list nat)) : result ndarray :=
  if String.eqb method "mse" then
    nanmean (np_map fsquare diff) axis
  else if String.eqb method "mae" then
    nanmean (np_map fabs diff) axis
  else
    m ← nanmean (np_map fsquare diff) axis; Ok (np_map fsqrt m).

Definition forecast_error (forecast valid : ndarray) (method : string)
    (axis : option (list nat)) : result ndarray :=
  if negb (known_method method) then Raise ValueError else
  n_f ← shape0 forecast;
  if ndim forecast =? ndim valid then
    let axis :=
      match axis with
      | None => Some (seq 1 (ndim valid - 1))
      | Some _ => axis
      end in
    diff ← np_sub valid forecast;
    reduce_error method diff axis
  else
    n_val ← shape0 valid;
    me ← for_each (fun f =>
            v ← slice_from f valid;
            fc ← index0_slice_to f (Z.of_nat n_val - Z.of_nat f) forecast;
            diff ← np_sub v fc;
            reduce_error method diff axis) (seq 0 n_f);
    np_array me.

Definition persistence_error (predictors valid : ndarray) (n_fhour : nat)
    (method : string) (axis : option (list nat)) : result ndarray :=
  if negb (known_method method) then Raise ValueError else
  n_f ← shape0 valid;
  me ← for_each (fun f =>
          v ← slice_from f valid;
          p ← slice_to (Z.of_nat n_f - Z.of_nat f) predictors;
          diff ← np_sub v p;
          reduce_error method diff axis) (seq 0 n_fhour);
  np_array me.

Definition climo_error (valid : ndarray) (n_fhour : nat)
    (method : string) (axis : option (list nat)) : result ndarray :=
  if negb (known_method method) then Raise ValueError else
  n_f ← shape0 valid;
  me ← for_each (fun f =>
          v ← slice_to (Z.of_nat n_f - Z.of_nat f) valid;
          climo ← nanmean valid (Some [0]);
          diff ← np_sub v climo;
          reduce_error method diff axis) (seq 0 n_fhour);
  np_array me.

(* ================================================================== *)
(** * Time stamps *)
(* ================================================================== *)

(** A [datetime64] value or [pd.Timestamp]: nanoseconds since
    1970-01-01T00:00. *)
Abbreviation timestamp := Z (only parsing).

Definition second_ns : Z := 1000000000.
Definition hour_ns : Z := 3600 * second_ns.
Definition day_ns : Z := 24 * hour_ns.

(** [np.timedelta64(timedelta(hours=n))] *)
Definition hours (n : Z) : Z := (n * hour_ns)%Z.

(** Days since 1970-01-01 of a date of the proleptic Gregorian calendar. *)
Definition days_from_civil (y m d : Z) : Z :=
  let y' := (if m <=? 2 then y - 1 else y)%Z in
  let era := (y' / 400)%Z in
  let yoe := (y' - era * 400)%Z in
  let mp := (if 2 <? m then m - 3 else m + 9)%Z in
  let doy := ((153 * mp + 2) / 5 + d - 1)%Z in
  let doe := (yoe * 365 + yoe / 4 - yoe / 100 + doy)%Z in
  (era * 146097 + doe - 719468)%Z.

(** Year, month and day of a number of days since 1970-01-01. *)
Definition civil_from_days (z : Z) : Z * Z * Z :=
  let z' := (z + 719468)%Z in
  let era := (z' / 146097)%Z in
  let doe := (z' - era * 146097)%Z in
  let yoe := ((doe - doe / 1460 + doe / 36524 - doe / 146096) / 365)%Z in
  let doy := (doe - (365 * yoe + yoe / 4 - yoe / 100))%Z in
  let mp := ((5 * doy + 2) / 153)%Z in
  let d := (doy - (153 * mp + 2) / 5 + 1)%Z in
  let m := (if mp <? 10 then mp + 3 else mp - 9)%Z in
  let y := (yoe + era * 400)%Z in
  ((if m <=? 2 then y + 1 else y)%Z, m, d).

(** [date.year] and [date.month] *)
Definition year (date : timestamp) : Z :=
  fst (fst (civil_from_days (date / day_ns))).
Definition month (date : timestamp) : Z :=
  snd (fst (civil_from_days (date / day_ns))).

(** [pd.Timestamp(y, m, d)] *)
Definition Timestamp (y m d : Z) : timestamp :=
  (days_from_civil y m d * day_ns)%Z.

(** [pd.date_range(start, stop, freq=step)] for a positive [step]: every
    [start + i * step] that is not after [stop]. *)
Definition date_range (start stop step : Z) : list timestamp :=
  if (stop <? start)%Z then []
  else map (fun i => (start + Z.of_nat i * step)%Z)
           (seq 0 (Z.to_nat ((stop - start) / step) + 1)).

(** [np.arange(start, stop, step)] on integers, for a positive [step]. *)
Definition np_arange (start stop step : Z) : list Z :=
  map (fun i => (start + Z.of_nat i * step)%Z)
      (seq 0 (Z.to_nat ((stop - start + step - 1) / step))).

(* ================================================================== *)
(** * Labelled arrays *)
(* ================================================================== *)

(** The values of one sample: the channel, latitude and longitude axes,
    flattened.  Every store handed to one call has the same channels and
    grid (the docstrings require it of [all_ds]). *)
Definition field : Type := list float.

(** An [xarray.DataArray] with dimensions (sample, varlev, lat, lon). *)
Record DataArray : Type := mk_da {
  sample : list timestamp;
  values : list field;
  field_size : nat
}.

(** An [xarray.DataArray] with dimensions (sample, time_step, varlev, lat,
    lon): one window of [time_steps] fields per sample. *)
Record WindowArray : Type := mk_wa {
  w_sample : list timestamp;
  w_time_steps : nat;
  w_values : list (list field);
  w_field_size : nat
}.

(** A data set built by [Preprocessor.data_to_series]. *)
Record SeriesDataset : Type := mk_series {
  predictors : DataArray
}.

(** A data set built by [Preprocessor.data_to_samples]. *)
Record SamplesDataset : Type := mk_samples {
  sample_predictors : WindowArray;
  targets : WindowArray
}.

(** The verification array, dimensions (f_hour, time, varlev, lat, lon);
    [f_hour] is in hours. *)
Record Verification : Type := mk_verification {
  f_hour : list Z;
  time : list timestamp;
  ver_values : list (list field)
}.

Definition nan_field (n : nat) : field := repeat nan n.

(** [w.isel(time_step=k)] *)
Definition isel_time_step (k : nat) (w : WindowArray) : result DataArray :=
  if k <? w_time_steps w
  then Ok (mk_da (w_sample w)
             (map (fun win => nth k win (nan_field (w_field_size w)))
                  (w_values w))
             (w_field_size w))
  else Raise IndexError.

(** The row stored under label [t], if there is one. *)
Definition sel_label (da : DataArray) (t : timestamp) : option field :=
  snd <$> find (fun p => Z.eqb (fst p) t) (combine (sample da) (values da)).

(** [da.reindex(sample=target, method=None).values]: exact matches only,
    NaN where the label is absent; an index with a repeated label cannot be
    reindexed. *)
Definition reindex (da : DataArray) (target : list timestamp)
  : result (list field) :=
  if bool_decide (NoDup (sample da))
  then Ok (map (fun t => default (nan_field (field_size da)) (sel_label da t))
               target)
  else Raise ValueError.

(** [list(enumerate(l))] *)
Definition enumerate {A : Type} (l : list A) : list (nat * A) :=
  combine (seq 0 (length l)) l.

(** A [for] loop that updates a variable and stops at the first
    exception. *)
Fixpoint for_fold {A S : Type} (f : S -> A -> result S) (l : list A) (s : S)
  : result S :=
  match l with
  | [] => Ok s
  | x :: l' =>
      match f s x with
      | Raise e => Raise e
      | Ok s' => for_fold f l' s'
      end
  end.

(** [verification[:, d] = col] for an array of single precision whose
    fields have [fsize] values: the block has to have one row per row of
    the array and fields of [fsize] values, and every value is converted
    to single precision.  A block on another grid that NumPy would
    broadcast is refused here. *)
Definition assign_column (single : R -> R) (fsize d : nat) (col : list field)
    (verification : list (list field)) : result (list (list field)) :=
  if (length col =? length verification)
     && forallb (fun x => length x =? fsize) col
  then Ok (zip_with (fun row x => <[d := map (lift1 single) x]> row)
                    verification col)
  else Raise ValueError.

(* ================================================================== *)
(** * Verification builders ([DLWP/model/verify.py]) *)
(* ================================================================== *)

(** The array that is returned has [dtype=np.float32]; [single] is the
    conversion of a number to single precision. *)
Definition verification_from_samples (single : R -> R) (ds : SamplesDataset)
    (all_ds : option SamplesDataset) (forecast_steps dt : Z)
  : result Verification :=
  if (forecast_steps <? 1)%Z then Raise ValueError else
  if (dt <? 1)%Z then Raise ValueError else
  let samples := w_sample (sample_predictors ds) in
  let fsize := w_field_size (sample_predictors ds) in
  let f_hour := np_arange dt (dt * forecast_steps + 1) dt in
  let verification :=
    repeat (repeat (nan_field fsize) (length samples))
           (Z.to_nat forecast_steps) in
  valid_da ← match all_ds with
             | Some a => isel_time_step 0 (targets a)
             | None => isel_time_step 0 (targets ds)
             end;
  vals ← for_fold (fun ver '(d, date) =>
            col ← reindex valid_da
                    (date_range date
                       (date + hours (dt * (forecast_steps - 1)))
                       (hours dt));
            assign_column single fsize d col ver)
          (enumerate samples) verification;
  Ok (mk_verification f_hour samples vals).

Definition verification_from_series (single : R -> R) (ds : SeriesDataset)
    (all_ds : option SeriesDataset) (forecast_steps dt : Z)
  : result Verification :=
  if (forecast_steps <? 1)%Z then Raise ValueError else
  if (dt <? 1)%Z then Raise ValueError else
  let samples := sample (predictors ds) in
  let fsize := field_size (predictors ds) in
  let f_hour := np_arange dt (dt * forecast_steps + 1) dt in
  let verification :=
    repeat (repeat (nan_field fsize) (length samples))
           (Z.to_nat forecast_steps) in
  let valid_da := match all_ds with
                  | Some a => predictors a
                  | None => predictors ds
                  end in
  vals ← for_fold (fun ver '(d, date) =>
            col ← reindex valid_da
                    (date_range (date + hours dt)
                       (date + hours (dt * forecast_steps))
                       (hours dt));
            assign_column single fsize d col ver)
          (enumerate samples) verification;
  Ok (mk_verification f_hour samples vals).

(* ================================================================== *)
(** * Month-aware climatology ([DLWP/model/verify.py]) *)
(* ================================================================== *)

(** The mean over the samples, skipping NaN, at every position of the
    field. *)
Definition field_mean (rows : list field) (fsize : nat) : field :=
  map (fun j => nanmean_all (map (fun row => nth j row nan) rows))
      (seq 0 fsize).

(** [da.groupby('time.month').mean('time')], at month [m]. *)
Definition monthly_mean (da : DataArray) (m : Z) : field :=
  field_mean
    (map snd (List.filter (fun p => Z.eqb (month (fst p)) m)
                          (combine (sample da) (values da))))
    (field_size da).

(** [da.sel(time=val_set)]: every label has to be present, and the index
    must not repeat a label. *)
Definition sel_labels (da : DataArray) (val_set : list timestamp)
  : result (list (timestamp * field)) :=
  if bool_decide (NoDup (sample da))
  then for_each (fun t =>
         match sel_label da t with
         | Some row => Ok (t, row)
         | None => Raise KeyError
         end) val_set
  else Raise InvalidIndexError.

(** The error, and the anomaly when [return_da] is set.  The error is a
    0-d value when [n_fhour] is [None].  A group-by over the months of
    no time stamp at all is a [ValueError], for the data as for the
    selection, and the anomaly, a [DataArray], has no method [abs]. *)
Definition monthly_climo_error (da : DataArray) (val_set : list timestamp)
    (n_fhour : option nat) (method : string) (return_da : bool)
  : result (ndarray * option (list field)) :=
  if negb (known_method method) then Raise ValueError else
  if length (sample da) =? 0 then Raise ValueError else
  selected ← sel_labels da val_set;
  if length selected =? 0 then Raise ValueError else
  let anomaly :=
    map (fun p => zip_with fsub (snd p) (monthly_mean da (month (fst p))))
        selected in
  me ← (if String.eqb method "mse" then
          Ok (nanmean_all (map fsquare (concat anomaly)))
        else if String.eqb method "mae" then
          Raise AttributeError
        else
          Ok (fsqrt (nanmean_all (map fsquare (concat anomaly)))));
  let me :=
    match n_fhour with
    | Some n => mk_array [n] (repeat me n)
    | None => scalar me
    end in
  Ok (me, if return_da then Some anomaly else None).

(* ================================================================== *)
(** * Insolation ([DLWP/util.py]) *)
(* ================================================================== *)

(** Arrays of the caller, by reference. *)
Abbreviation loc := nat (only parsing).

#[global] Instance ndarray_inhabited : Inhabited ndarray :=
  populate (mk_array [] []).

(** What a local variable of array type is bound to: an array of the
    caller, or an array built during the call. *)
Inductive binding : Type :=
| Shared (l : loc)
| Fresh (a : ndarray).

Definition read (h : gmap loc ndarray) (b : binding) : ndarray :=
  match b with
  | Shared l => h !!! l
  | Fresh a => a
  end.

(** [x *= c]: the array bound to [x] is updated in place. *)
Definition imul (b : binding) (c : R) (h : gmap loc ndarray)
  : binding * gmap loc ndarray :=
  match b with
  | Shared l =>
      (Shared l, <[l := np_map (lift1 (fun r => r * c)%R) (h !!! l)]> h)
  | Fresh a => (Fresh (np_map (lift1 (fun r => r * c)%R) a), h)
  end.

(** [np.meshgrid(x, y)] for 1-d [x] and [y]: two new arrays of shape
    [(len(y), len(x))]. *)
Definition meshgrid (x y : ndarray) : ndarray * ndarray :=
  let nx := length (data x) in
  let ny := length (data y) in
  (mk_array [ny; nx] (concat (repeat (data x) ny)),
   mk_array [ny; nx] (flat_map (fun v => repeat v nx) (data y))).

(** [a[None, ...]] *)
Definition expand_front (a : ndarray) : ndarray :=
  mk_array (1 :: shape a) (data a).

(** [a[:, None, None]] *)
Definition expand_back2 (a : ndarray) : ndarray :=
  mk_array (shape a ++ [1; 1]) (data a).

(** [sol[sol < 0.] = 0.] *)
Definition clamp_negative (x : float) : float :=
  match x with
  | Some r => if Rlt_dec r 0 then Some 0%R else Some r
  | None => None
  end.

(** For the time stamps of the years 1678 to 2262: [pd.Timestamp] has no
    value for the first instant of 1677. *)
Definition day_of_year (date : timestamp) : R :=
  (IZR (date - Timestamp (year date) 1 1) / IZR second_ns / 3600 / 24)%R.

(** Constants for year 1995. *)
Definition eps : R := (23.4441 * PI / 180)%R.
Definition ecc : R := 0.016715%R.
Definition om : R := (282.7 * PI / 180)%R.
Definition beta : R := sqrt (1 - ecc ^ 2).

(** Longitude of the earth relative to the orbit, at day [d] of the year. *)
Definition lambda_m0 : R := (ecc * (1 + beta) * sin om)%R.
Definition lambda_m (d : R) : R := (lambda_m0 + 2 * PI * (d - 80.5) / 365)%R.
Definition lambda_ (d : R) : R :=
  (lambda_m d + 2 * ecc * sin (lambda_m d - om))%R.

(** Distance. *)
Definition rho (d : R) : R :=
  ((1 - ecc ^ 2) / (1 + ecc * cos (lambda_ d - om)))%R.

(** The body of [insolation] below the shape checks, with [lat] and [lon]
    bound to the grids.  It returns the result and the heap after the call;
    the heap is returned on an exception too.  The final cast to single
    precision is not modelled. *)
Definition insolation_grid (dates : list timestamp) (lat_b lon_b : binding)
    (S : float) (h : gmap loc ndarray) : result ndarray * gmap loc ndarray :=
  let days :=
    mk_array [length dates] (map (fun t => Some (day_of_year t)) dates) in
  let dec :=
    np_map farcsin
      (np_map (lift1 (fun d => sin eps * sin (lambda_ d))%R) days) in
  match np_add (expand_back2 days)
               (np_map (lift1 (fun r => r / 360)%R) (read h lon_b)) with
  | Raise e => (Raise e, h)
  | Ok t =>
      let hour_angle := np_map (lift1 (fun r => 2 * PI * r)%R) t in
      let dist := np_map (lift1 rho) days in
      let '(lat_b, h) := imul lat_b (PI / 180) h in
      let lat_v := read h lat_b in
      (a ← np_mul (np_map fsin (expand_front lat_v))
                  (np_map fsin (expand_back2 dec));
       b ← np_mul (np_map fcos (expand_front lat_v))
                  (np_map fcos (expand_back2 dec));
       b ← np_mul b (np_map fcos hour_angle);
       d ← np_sub a b;
       sol ← np_mul (np_map (fmul S) d)
                    (np_map finvsquare (expand_back2 dist));
       Ok (np_map clamp_negative sol),
       h)
  end.

Definition insolation (dates : list timestamp) (lat lon : loc) (S : float)
    (h : gmap loc ndarray) : result ndarray * gmap loc ndarray :=
  if negb (ndim (h !!! lat) =? ndim (h !!! lon)) then (Raise ValueError, h)
  else if (ndim (h !!! lat) =? 2)
          && negb (bool_decide (shape (h !!! lat) = shape (h !!! lon)))
  then (Raise ValueError, h)
  else
    let '(lon_b, lat_b) :=
      if ndim (h !!! lat) =? 1
      then let '(x, y) := meshgrid (h !!! lon) (h !!! lat) in (Fresh x, Fresh y)
      else (Shared lon, Shared lat) in
    insolation_grid dates lat_b lon_b S h.

(* ================================================================== *)
(** * Reference definitions for the statements *)
(* ================================================================== *)

(** What [reduce_error] computes when every element of the buffer [d] goes
    into one mean. *)
Definition error_of (method : string) (d : list float) : float :=
  if String.eqb method "mse" then nanmean_all (map fsquare d)
  else if String.eqb method "mae" then nanmean_all (map fabs d)
  else fsqrt (nanmean_all (map fsquare d)).

(** The values of a buffer that are not NaN. *)
Fixpoint finite_values (d : list float) : list R :=
  match d with
  | [] => []
  | Some r :: d' => r :: finite_values d'
  | None :: d' => finite_values d'
  end.

(** The mean of a list of reals; NaN for the empty list. *)
Definition plain_mean (l : list R) : float :=
  match l with
  | [] => None
  | _ :: _ => Some (fold_right Rplus 0%R l / INR (length l))%R
  end.

(** The error metrics on a list of real differences. *)
Definition plain_error (method : string) (l : list R) : float :=
  if String.eqb method "mse" then plain_mean (map (fun r => (r ^ 2)%R) l)
  else if String.eqb method "mae" then plain_mean (map Rabs l)
  else fsqrt (plain_mean (map (fun r => (r ^ 2)%R) l)).

(** [valid[f:] - forecast[f, :n_val - f]] for a forecast of shape
    [(n_f, n_t, ...)] and a series of shape [(n_val, ...)] over one grid:
    the valid series shifted forward by [f] steps, minus lead step [f] of
    the forecast cut to what is left of the series. *)
Definition overlap (n_t n_val : nat) (rest : list nat) (df dv : list float)
    (f : nat) : ndarray :=
  mk_array ((n_val - f) :: rest)
    (zip_with fsub
       (drop (f * size_of rest) dv)
       (take ((n_val - f) * size_of rest)
             (drop (f * (n_t * size_of rest)) df))).

(** The scenario of a forecast of four lead steps from one initialization
    time, and the observations at the initialization time and at the four
    lead times. *)
Definition scenario_forecast : ndarray :=
  mk_array [4; 1] (map Some [1; 2; 3; 4]%R).
Definition scenario_valid : ndarray :=
  mk_array [5; 1] (map Some [1; 1; 3; 3; 5]%R).

(** Monotone lists of reals, by index. *)
Definition nondecreasing (l : list R) : Prop :=
  forall i j a b, i < j -> l !! i = Some a -> l !! j = Some b -> (a <= b)%R.

Definition strictly_increasing (l : list R) : Prop :=
  forall i j a b, i < j -> l !! i = Some a -> l !! j = Some b -> (a < b)%R.

(** The mean absolute difference between the values of [xs] from step [f]
    on and the constant [v]. *)
Definition mae_from (v : R) (xs : list R) (f : nat) : R :=
  (fold_right Rplus 0 (map (fun x => Rabs (x - v)) (drop f xs))
   / INR (length (drop f xs)))%R.

(** A store as the data model has it: one row per time stamp, and no time
    stamp twice. *)
Definition wf_store (da : DataArray) : Prop :=
  NoDup (sample da) /\ length (values da) = length (sample da).

(** What [reindex] puts at label [t]: the row stored under [t], or NaN. *)
Definition row_at (da : DataArray) (t : timestamp) : field :=
  default (nan_field (field_size da)) (sel_label da t).

(** The verification array once the columns of the first [k] samples are
    filled from [colf]; the other columns still hold [nanf]. *)
Definition filled (colf : Z -> list field) (nanf : field) (n : nat)
    (samples : list Z) (k : nat) : list (list field) :=
  map (fun f => map (fun date => nth f (colf date) nanf) (take k samples)
                ++ repeat nanf (length samples - k))
      (seq 0 n).

(** One element of the result of [insolation]: scale [S], day of the year
    [day], latitude [phi] and longitude [l], both in degrees. *)
Definition sol_at (S : float) (day : R) (phi l : float) : float :=
  let lat := lift1 (fun r => r * (PI / 180))%R phi in
  let dec := farcsin (Some (sin eps * sin (lambda_ day))%R) in
  let hour_angle :=
    lift1 (fun r => 2 * PI * r)%R
          (fadd (Some day) (lift1 (fun r => r / 360)%R l)) in
  clamp_negative
    (fmul (fmul S (fsub (fmul (fsin lat) (fsin dec))
                        (fmul (fmul (fcos lat) (fcos dec)) (fcos hour_angle))))
          (finvsquare (Some (rho day)))).

(** The array that [lat *= np.pi / 180.] leaves in place of [a]. *)
Definition scale_lat : ndarray -> ndarray :=
  np_map (lift1 (fun r => r * (PI / 180))%R).

(* ================================================================== *)
(** * Persistence as a forecast ([examples/validate.py]) *)
(* ================================================================== *)

(** [np.repeat(a[None, ...], n, axis=0)]: [n] copies of [a] along a new
    first axis. *)
Definition np_repeat_lead (a : ndarray) (n : nat) : ndarray :=
  mk_array (n :: shape a) (concat (repeat (data a) n)).

(* ================================================================== *)
(** * Time series of predictors ([DLWP/model/verify.py]) *)
(* ================================================================== *)

(** [a.reshape(before + (-1,) + after)]: the length of the open axis is
    what is left of the size; it cannot be found when the known lengths
    multiply to zero or do not divide the size. *)
Definition reshape_infer (before after : list nat) (a : ndarray)
  : result ndarray :=
  let known := size_of before * size_of after in
  let size := length (data a) in
  if (known =? 0) || negb (size mod known =? 0) then Raise ValueError
  else Ok (mk_array (before ++ [size / known] ++ after) (data a)).

(** [a[:, 0]] when [first] is set, [a[:, -1]] otherwise. *)
Definition index1 (first : bool) (a : ndarray) : result ndarray :=
  match shape a with
  | n :: t :: rest =>
      if t =? 0 then Raise IndexError
      else
        let k := size_of rest in
        let j := if first then 0 else t - 1 in
        Ok (mk_array (n :: rest)
              (flat_map (fun win => firstn k (skipn (j * k) win))
                        (chunks (t * k) n (data a))))
  | _ => Raise IndexError
  end.

(** The array that [predictors_to_time_series] returns when no metadata is
    asked for ([meta_ds] is [None]); [time_steps] is not negative. *)
Definition predictors_to_time_series (predictors : ndarray) (time_steps : nat)
    (has_time_dim use_first_step : bool) : result ndarray :=
  if has_time_dim then index1 use_first_step predictors
  else
    match shape predictors with
    | [] => Raise IndexError
    | sample_dim :: feature_shape =>
        p ← reshape_infer [sample_dim; time_steps] (tail feature_shape)
              predictors;
        index1 use_first_step p
    end.

(* ================================================================== *)
(** * Samples with missing values ([DLWP/util.py]) *)
(* ================================================================== *)

Definition is_nan (x : float) : bool :=
  match x with
  | Some _ => false
  | None => true
  end.

(** What [a[(a >= 1.e20) | (a <= -1.e20)] = np.nan] leaves of one
    element. *)
Definition fill_large (x : float) : float :=
  match x with
  | Some r =>
      if Rle_dec 1e20 r then None
      else if Rle_dec r (-1e20) then None
      else Some r
  | None => None
  end.

(** The rows of a 2-d array. *)
Definition rows_of (a : ndarray) : list (list float) :=
  match shape a with
  | [n; k] => chunks k n (data a)
  | _ => []
  end.

(** [list(np.where(np.isnan(a))[0])]: the row of every NaN of a 2-d
    array. *)
Definition nan_row_indices (a : ndarray) : list nat :=
  flat_map (fun p => map (fun _ => fst p) (List.filter is_nan (snd p)))
           (enumerate (rows_of a)).

(** [np.mean(np.isnan(row))]; the mean of nothing is NaN. *)
Definition nan_fraction (row : list float) : float :=
  match row with
  | [] => None
  | _ :: _ =>
      Some (INR (length (List.filter is_nan row)) / INR (length row))%R
  end.

(** [x >= threshold], which is false of NaN. *)
Definition at_least (threshold : R) (x : float) : bool :=
  match x with
  | Some r => if Rle_dec threshold r then true else false
  | None => false
  end.

(** [list(np.where(np.mean(np.isnan(a), axis=1) >= threshold)[0])] *)
Definition dense_nan_rows (threshold : R) (a : ndarray) : list nat :=
  map fst (List.filter (fun p => at_least threshold (nan_fraction (snd p)))
                       (enumerate (rows_of a))).

(** [list(set(l))] *)
Definition list_set (l : list nat) : list nat :=
  elements (list_to_set l : gset nat).

(** [np.delete(a, bad, axis=0)] for a 2-d array and a list of row numbers,
    none of them negative: a new array without these rows.  A row number
    that is not one of the array is an [IndexError]. *)
Definition np_delete (a : ndarray) (bad : list nat) : result ndarray :=
  match shape a with
  | [n; k] =>
      if forallb (fun i => i <? n) bad then
        let kept :=
          map snd (List.filter (fun p => negb (bool_decide (fst p ∈ bad)))
                               (enumerate (rows_of a))) in
        Ok (mk_array [length kept; k] (concat kept))
      else Raise IndexError
  | _ => Raise AxisError
  end.

(** [a.reshape(s)] for a shape [s] without an open axis. *)
Definition reshape (s : list nat) (a : ndarray) : result ndarray :=
  if size_of s =? length (data a) then Ok (mk_array s (data a))
  else Raise ValueError.

(** [0 <= thr <= 1] *)
Definition in_unit_interval (thr : R) : bool :=
  if Rle_dec 0 thr then (if Rle_dec thr 1 then true else false) else false.

(** [predictors] and [targets] are arrays of the caller; the arrays that
    are returned are new.  The heap after the call is returned too, on an
    exception as well.  [threshold] is [None] or a number. *)
Definition delete_nan_samples (predictors targets : loc)
    (large_fill_value : bool) (threshold : option R)
    (h : gmap loc ndarray)
  : result (ndarray * ndarray) * gmap loc ndarray :=
  if match threshold with
     | Some thr => negb (in_unit_interval thr)
     | None => false
     end
  then (Raise ValueError, h)
  else
    let h :=
      if large_fill_value then
        let h := <[predictors := np_map fill_large (h !!! predictors)]> h in
        <[targets := np_map fill_large (h !!! targets)]> h
      else h in
    let p_shape := shape (h !!! predictors) in
    let t_shape := shape (h !!! targets) in
    (n_p ← shape0 (h !!! predictors);
     p ← reshape_infer [n_p] [] (h !!! predictors);
     n_t ← shape0 (h !!! targets);
     t ← reshape_infer [n_t] [] (h !!! targets);
     let p_ind :=
       match threshold with
       | None => nan_row_indices p
       | Some thr => dense_nan_rows thr p
       end in
     let t_ind :=
       match threshold with
       | None => nan_row_indices t
       | Some thr => dense_nan_rows thr t
       end in
     let bad_ind := list_set (p_ind ++ t_ind) in
     p ← np_delete p bad_ind;
     t ← np_delete t bad_ind;
     m_p ← shape0 p;
     m_t ← shape0 t;
     p ← reshape (m_p :: tail p_shape) p;
     t ← reshape (m_t :: tail t_shape) t;
     Ok (p, t),
     h).

(* ================================================================== *)
(** * Training and test indices ([DLWP/util.py]) *)
(* ================================================================== *)

(** [list(range(a, b))] *)
Definition py_range (a b : Z) : list Z :=
  map (fun i => (a + Z.of_nat i)%Z) (seq 0 (Z.to_nat (b - a))).

(** [random.choice(l)]: the element at a position that the generator
    picks; [k] is the number it draws, taken modulo the length.  An empty
    list is an [IndexError]. *)
Definition choice (k : nat) (l : list Z) : result Z :=
  match l with
  | [] => Raise IndexError
  | x :: _ => Ok (nth (k mod length l) l x)
  end.

(** [l.remove(x)]: without the first [x]; a [ValueError] when there is
    none. *)
Fixpoint py_remove (x : Z) (l : list Z) : result (list Z) :=
  match l with
  | [] => Raise ValueError
  | y :: l' =>
      if (x =? y)%Z then Ok l'
      else l'' ← py_remove x l'; Ok (y :: l'')
  end.

(** The loop that draws the test set; [draw j] is what the generator
    draws at iteration [j]. *)
Fixpoint draw_test_set (draw : nat -> nat) (j count : nat)
    (train_set test_set : list Z) : result (list Z * list Z) :=
  match count with
  | O => Ok (train_set, test_set)
  | S count' =>
      i ← choice (draw j) train_set;
      train_set' ← py_remove i train_set;
      draw_test_set draw (S j) count' train_set' (test_set ++ [i])
  end.

(** The train indices and the test indices. *)
Definition train_test_split_ind (draw : nat -> nat) (n_sample test_size : Z)
    (method : string) : result (list Z * list Z) :=
  if String.eqb method "first" then
    Ok (py_range test_size n_sample, py_range 0 test_size)
  else if String.eqb method "last" then
    Ok (py_range 0 (n_sample - test_size),
        py_range (n_sample - test_size) n_sample)
  else if String.eqb method "random" then
    '(train_set, test_set) ←
       draw_test_set draw 0 (Z.to_nat test_size) (py_range 0 n_sample) [];
    Ok (train_set, merge_sort Z.le test_set)
  else Raise ValueError.

(* ================================================================== *)
(** * Reference definitions for the statements, continued *)
(* ================================================================== *)

(** A store on a grid of [n] values per field. *)
Definition on_grid (n : nat) (da : DataArray) : Prop :=
  field_size da = n /\ Forall (fun row => length row = n) (values da).

(** A conversion for the examples: it takes [2^24 + 1 = 16777217], which
    has no single-precision value, to [2^24], as the conversion to single
    precision does, and leaves every other number; the other numbers of
    the examples are small integers, which have a single-precision
    value. *)
Definition single_example (r : R) : R :=
  if Req_dec_T r 16777217 then 16777216%R else r.

(** A value that is NaN or not negative. *)
Definition nan_or_nonneg (x : float) : Prop :=
  match x with
  | Some r => (0 <= r)%R
  | None => True
  end.

(** The shape of a verification array: a number of rows, each of one
    length. *)
Definition grid_shape (rows cols : nat) (ver : list (list field)) : Prop :=
  length ver = rows /\ Forall (fun row => length row = cols) ver.

(** A buffer without NaN. *)
Definition nan_free (d : list float) : Prop := Forall (fun x => x <> nan) d.

(** What makes [delete_nan_samples] drop a sample, in the row of its
    predictors or of its targets: a NaN when there is no threshold, a
    fraction of NaN of at least the threshold otherwise. *)
Definition bad_row (threshold : option R) (row : list float) : bool :=
  match threshold with
  | None => existsb is_nan row
  | Some thr => at_least thr (nan_fraction row)
  end.

(** A threshold that [delete_nan_samples] accepts. *)
Definition threshold_in_range (threshold : option R) : Prop :=
  match threshold with
  | Some thr => (0 <= thr <= 1)%R
  | None => True
  end.

(** The pairs of rows that are kept. *)
Definition kept_pair (threshold : option R)
    (p : list float * list float) : bool :=
  negb (bad_row threshold (fst p)) && negb (bad_row threshold (snd p)).



(** The insolation of every point of a grid of [lats] by [lons], at every
    day of [days]: the days vary slowest and the longitudes fastest. *)
Definition sol_grid (S : float) (days : list R) (lats lons : list float)
  : list float :=
  flat_map (fun day =>
    flat_map (fun phi => map (fun l => sol_at S day phi l) lons) lats) days.

(* ================================================================== *)
(** * The model on small inputs *)
(* ================================================================== *)

Ltac float_eq :=
  cbn; unfold scalar;
  repeat match goal with
         | |- Ok _ = Ok _ => f_equal
         | |- mk_array _ _ = mk_array _ _ => f_equal
         | |- _ :: _ = _ :: _ => f_equal
         | |- Some _ = Some _ => f_equal; lra
         end;
  try reflexivity.

Example broadcast_column_row :
  np_add (mk_array [2; 1] (map Some [10; 20]%R))
         (mk_array [3] (map Some [1; 2; 3]%R))
  = Ok (mk_array [2; 3] (map Some [11; 12; 13; 21; 22; 23]%R)).
Proof. float_eq. Qed.

Example broadcast_mismatch :
  np_add (mk_array [2; 3] (map Some [1; 2; 3; 4; 5; 6]%R))
         (mk_array [2] (map Some [1; 2]%R))
  = Raise ValueError.
Proof. reflexivity. Qed.

Example nanmean_over_rows :
  nanmean (mk_array [2; 3] [Some 1; nan; Some 3; Some 4; nan; nan]%R)
          (Some [0])
  = Ok (mk_array [3] [Some 2.5%R; nan; Some 3%R]).
Proof. float_eq. Qed.

Example nanmean_over_columns :
  nanmean (mk_array [2; 3] [Some 1; nan; Some 3; Some 4; nan; nan]%R)
          (Some [1])
  = Ok (mk_array [2] [Some 2%R; Some 4%R]).
Proof. float_eq. Qed.

Example nanmean_over_all :
  nanmean (mk_array [2; 3] [Some 1; nan; Some 3; Some 4; nan; nan]%R) None
  = Ok (scalar (Some (8 / 3)%R)).
Proof. float_eq. Qed.

Example nanmean_bad_axis :
  nanmean (mk_array [2; 3] (map Some [1; 2; 3; 4; 5; 6]%R)) (Some [2])
  = Raise AxisError.
Proof. reflexivity. Qed.

Example slice_stops :
  (stop_index 3 5, stop_index 7 5, stop_index (-1) 5, stop_index (-7) 5)
  = (3, 5, 4, 0).
Proof. reflexivity. Qed.

Example forecast_error_lead_times :
  forecast_error (mk_array [2; 2] (map Some [1; 2; 3; 4]%R))
                 (mk_array [2; 2] [Some 2; nan; Some 3; Some 6]%R)
                 "mse" None
  = Ok (mk_array [2] [Some 1%R; Some 2%R]).
Proof. float_eq. Qed.

Example calendar_dates :
  (civil_from_days 0, civil_from_days 9211, civil_from_days 11016,
   days_from_civil 2000 3 1)
  = ((1970, 1, 1), (1995, 3, 22), (2000, 2, 29), 11017)%Z.
Proof. reflexivity. Qed.

Example timestamp_fields :
  let date := (Timestamp 1995 3 22 + 12 * hour_ns)%Z in
  (year date, month date, date - Timestamp (year date) 1 1)%Z
  = (1995, 3, 6955200 * second_ns)%Z.
Proof. vm_compute. reflexivity. Qed.

Example six_hourly_range :
  date_range (hours 6) (hours 24) (hours 6)
  = [hours 6; hours 12; hours 18; hours 24].
Proof. reflexivity. Qed.

Example forecast_hours : np_arange 6 (6 * 4 + 1) 6 = [6; 12; 18; 24]%Z.
Proof. reflexivity. Qed.

(* ================================================================== *)
(** * Lists cut into blocks *)
(* ================================================================== *)

Lemma concat_chunks {A : Type} (k n : nat) (d : list A) :
  length d = n * k -> concat (chunks k n d) = d.
Proof.
  revert d; induction n as [|n IH]; intros d Hd; simpl in *.
  - now destruct d.
  - rewrite IH, take_drop; [reflexivity|].
    rewrite length_drop. lia.
Qed.

Lemma chunks_lengths {A : Type} (k n : nat) (d : list A) :
  length d = n * k -> Forall (fun c => length c = k) (chunks k n d).
Proof.
  revert d; induction n as [|n IH]; intros d Hd; simpl in *; constructor.
  - rewrite length_take. lia.
  - apply IH. rewrite length_drop. lia.
Qed.

Lemma chunks_map {A B : Type} (f : A -> B) (k n : nat) (d : list A) :
  chunks k n (map f d) = map (map f) (chunks k n d).
Proof.
  revert d; induction n as [|n IH]; intros d; simpl; [reflexivity|].
  rewrite <- IH. f_equal.
  - apply firstn_map.
  - f_equal. apply skipn_map.
Qed.

Lemma chunks_one {A : Type} (n : nat) (d : list A) :
  length d = n -> chunks 1 n d = map (fun x => [x]) d.
Proof.
  revert d; induction n as [|n IH]; intros [|x d] Hd; simpl in *;
    try discriminate; try reflexivity.
  f_equal. apply IH. lia.
Qed.

Lemma chunks_single {A : Type} (k : nat) (d : list A) :
  length d = k -> chunks k 1 d = [d].
Proof. intros Hd. cbn [chunks]. now rewrite firstn_all2 by lia. Qed.

(* ================================================================== *)
(** * Broadcasting of equal shapes *)
(* ================================================================== *)

Lemma broadcast_shapes_same (s : list nat) : broadcast_shapes s s = Ok s.
Proof.
  induction s as [|n r IH]; simpl; [reflexivity|].
  unfold broadcast_dim. rewrite Nat.eqb_refl, IH. reflexivity.
Qed.

Lemma pad_shape_same (s : list nat) : pad_shape (length s) s = s.
Proof. unfold pad_shape. now rewrite Nat.sub_diag. Qed.

Lemma rows_same (F : list float -> list float -> list float)
    (op : float -> float -> float) (k : nat) :
  (forall x y, length x = k -> length y = k -> F x y = zip_with op x y) ->
  forall n d1 d2, length d1 = n * k -> length d2 = n * k ->
    concat (map (fun p => F (fst p) (snd p))
                (combine (chunks k n d1) (chunks k n d2)))
    = zip_with op d1 d2.
Proof.
  intros HF n; induction n as [|n IH]; intros d1 d2 H1 H2; simpl in *.
  - destruct d1; [reflexivity | discriminate].
  - rewrite HF, IH by (rewrite ?length_take, ?length_drop; lia).
    rewrite <- zip_with_app by (rewrite !length_take; lia).
    now rewrite !take_drop.
Qed.

Lemma broadcast_data_same (op : float -> float -> float) (s : list nat) :
  forall d1 d2, length d1 = size_of s -> length d2 = size_of s ->
    broadcast_data op s s d1 d2 = zip_with op d1 d2.
Proof.
  induction s as [|n r IH]; intros d1 d2 H1 H2; simpl in *.
  - destruct d1 as [|x [|? ?]], d2 as [|y [|? ?]]; try discriminate.
    reflexivity.
  - rewrite Nat.eqb_refl. now apply rows_same.
Qed.

Lemma np_binop_same_shape (op : float -> float -> float) (s : list nat)
    (d1 d2 : list float) :
  length d1 = size_of s -> length d2 = size_of s ->
  np_binop op (mk_array s d1) (mk_array s d2)
  = Ok (mk_array s (zip_with op d1 d2)).
Proof.
  intros H1 H2. unfold np_binop, ndim; simpl.
  rewrite Nat.max_id, pad_shape_same, broadcast_shapes_same.
  now rewrite broadcast_data_same.
Qed.

(* ================================================================== *)
(** * Reductions *)
(* ================================================================== *)

Lemma acc_add_zero_r (a : acc) : acc_add a (0%R, 0) = a.
Proof.
  destruct a as [r n]; unfold acc_add; simpl.
  now rewrite Rplus_0_r, Nat.add_0_r.
Qed.

Lemma acc_add_assoc (a b c : acc) :
  acc_add a (acc_add b c) = acc_add (acc_add a b) c.
Proof.
  unfold acc_add; simpl. now rewrite Rplus_assoc, Nat.add_assoc.
Qed.

Lemma acc_sum_app (l1 l2 : list acc) :
  acc_sum (l1 ++ l2) = acc_add (acc_sum l1) (acc_sum l2).
Proof.
  induction l1 as [|a l1 IH]; simpl.
  - unfold acc_add; simpl. rewrite Rplus_0_l. now destruct (acc_sum l2).
  - fold (acc_sum (l1 ++ l2)). fold (acc_sum l1).
    now rewrite IH, acc_add_assoc.
Qed.

Lemma in_axes_seq (k a n : nat) :
  in_axes k (seq a n) = true <-> a <= k < a + n.
Proof.
  unfold in_axes. rewrite existsb_exists. split.
  - intros (x & Hx & He). apply in_seq in Hx.
    apply Nat.eqb_eq in He. lia.
  - intros Hk. exists k. split; [apply in_seq; lia | apply Nat.eqb_refl].
Qed.

Lemma no_dupb_seq (a n : nat) : no_dupb (seq a n) = true.
Proof.
  revert a; induction n as [|n IH]; intros a; simpl; [reflexivity|].
  rewrite IH, andb_true_r. apply negb_true_iff.
  destruct (in_axes a (seq (S a) n)) eqn:E; [|reflexivity].
  apply in_axes_seq in E. lia.
Qed.

Lemma inner_axes_in_range (r : nat) :
  forallb (fun k => k <? S r) (seq 1 r) = true.
Proof.
  apply forallb_forall. intros x Hx. apply in_seq in Hx.
  apply Nat.ltb_lt. lia.
Qed.

(** Reducing over every axis of a block leaves one accumulator. *)
Lemma reduce_axes_full (axes : list nat) (s : list nat) :
  forall cur d,
    (forall i, cur <= i < cur + length s -> in_axes i axes = true) ->
    length d = size_of s ->
    reduced_shape axes cur s = [] /\ reduce_axes axes cur s d = [acc_sum d].
Proof.
  induction s as [|n r IH]; intros cur d Hax Hd; simpl in *.
  - split; [reflexivity|].
    destruct d as [|x [|? ?]]; try discriminate.
    simpl. now rewrite acc_add_zero_r.
  - rewrite Hax by lia.
    assert (Hr : forall i, S cur <= i < S cur + length r ->
                           in_axes i axes = true)
      by (intros i Hi; apply Hax; lia).
    split; [apply (IH (S cur) (repeat (0%R, 0) (size_of r))); auto;
            now rewrite repeat_length|].
    destruct (IH (S cur) (repeat (0%R, 0) (size_of r)) Hr) as [-> _];
      [now rewrite repeat_length|].
    simpl.
    rewrite <- (concat_chunks (size_of r) n d) at 2 by lia.
    pose proof (chunks_lengths (size_of r) n d ltac:(lia)) as Hc.
    induction Hc as [|c cs Hlen _ IHc]; simpl; [reflexivity|].
    rewrite IHc. destruct (IH (S cur) c Hr Hlen) as [_ ->].
    simpl. now rewrite acc_sum_app.
Qed.

Lemma for_each_ok {A B : Type} (f : A -> result B) (g : A -> B) (l : list A) :
  (forall x, In x l -> f x = Ok (g x)) -> for_each f l = Ok (map g l).
Proof.
  induction l as [|x l IH]; intros H; simpl; [reflexivity|].
  rewrite H by now left. rewrite IH; [reflexivity|].
  intros y Hy. apply H. now right.
Qed.

Lemma nanmean_inner (n : nat) (rest : list nat) (d : list float) :
  length d = n * size_of rest ->
  nanmean (mk_array (n :: rest) d) (Some (seq 1 (length rest)))
  = Ok (mk_array [n] (map nanmean_all (chunks (size_of rest) n d))).
Proof.
  intros Hd. unfold nanmean, ndim. simpl shape. simpl length.
  rewrite inner_axes_in_range, no_dupb_seq. simpl.
  assert (Hax : forall i, 1 <= i < 1 + length rest ->
                          in_axes i (seq 1 (length rest)) = true)
    by (intros i Hi; apply in_axes_seq; lia).
  replace (in_axes 0 (seq 1 (length rest))) with false
    by (symmetry; apply not_true_is_false; rewrite in_axes_seq; lia).
  destruct (reduce_axes_full (seq 1 (length rest)) rest 1
              (repeat (0%R, 0) (size_of rest)) Hax) as [-> _];
    [now rewrite repeat_length|].
  do 2 f_equal. rewrite chunks_map.
  pose proof (chunks_lengths (size_of rest) n d ltac:(lia)) as Hc.
  induction Hc as [|c cs Hlen _ IHc]; simpl; [reflexivity|].
  destruct (reduce_axes_full (seq 1 (length rest)) rest 1 (map acc_of c) Hax)
    as [_ ->]; [now rewrite length_map|].
  simpl. now rewrite IHc.
Qed.

Lemma reduce_error_all (method : string) (a : ndarray) :
  reduce_error method a None = Ok (scalar (error_of method (data a))).
Proof.
  unfold reduce_error, error_of.
  destruct (String.eqb method "mse"); [reflexivity|].
  destruct (String.eqb method "mae"); reflexivity.
Qed.

Lemma reduce_error_inner (method : string) (n : nat) (rest : list nat)
    (d : list float) :
  length d = n * size_of rest ->
  reduce_error method (mk_array (n :: rest) d) (Some (seq 1 (length rest)))
  = Ok (mk_array [n] (map (error_of method) (chunks (size_of rest) n d))).
Proof.
  intros Hd. unfold reduce_error, error_of, np_map; cbn [shape data].
  destruct (String.eqb method "mse"); [|destruct (String.eqb method "mae")];
    rewrite nanmean_inner by (now rewrite length_map);
    cbn [mbind result_bind shape data]; rewrite chunks_map, ?map_map;
    reflexivity.
Qed.

Lemma np_array_scalars (l : list float) :
  np_array (map scalar l) = Ok (mk_array [length l] l).
Proof.
  destruct l as [|x l]; [reflexivity|].
  unfold np_array. Opaque bool_decide. simpl. Transparent bool_decide.
  replace (forallb _ (map scalar l)) with true.
  - rewrite bool_decide_eq_true_2 by reflexivity. simpl.
    rewrite length_map. do 3 f_equal.
    induction l as [|y l IH]; simpl; [reflexivity | now rewrite IH].
  - symmetry. apply forallb_forall. intros b Hb.
    apply in_map_iff in Hb as (y & <- & _). now apply bool_decide_eq_true_2.
Qed.

(** Two arrays of one shape, same-rank branch, default axis: one error per
    lead step, over the block of that lead step. *)
Lemma forecast_error_same_shape (method : string) (n : nat) (rest : list nat)
    (df dv : list float) :
  known_method method = true ->
  length df = n * size_of rest -> length dv = n * size_of rest ->
  forecast_error (mk_array (n :: rest) df) (mk_array (n :: rest) dv) method None
  = Ok (mk_array [n]
          (map (error_of method)
               (chunks (size_of rest) n (zip_with fsub dv df)))).
Proof.
  intros Hm Hf Hv. unfold forecast_error. rewrite Hm. simpl negb. cbv iota.
  unfold shape0, ndim. simpl shape. simpl length. rewrite Nat.eqb_refl.
  simpl mbind. unfold np_sub. rewrite np_binop_same_shape by (simpl; lia).
  simpl. rewrite Nat.sub_0_r. apply reduce_error_inner.
  rewrite length_zip_with. lia.
Qed.

Lemma for_each_ext {A B : Type} (f g : A -> result B) (l : list A) :
  (forall x, In x l -> f x = g x) -> for_each f l = for_each g l.
Proof.
  induction l as [|x l IH]; intros H; simpl; [reflexivity|].
  rewrite H by now left. rewrite IH; [reflexivity|].
  intros y Hy. apply H. now right.
Qed.

Lemma stop_index_overlap (n_val f n_t : nat) :
  f <= n_val -> n_val <= n_t ->
  stop_index (Z.of_nat n_val - Z.of_nat f) n_t = n_val - f.
Proof.
  intros Hf Ht. unfold stop_index.
  destruct (Z.ltb_spec (Z.of_nat n_val - Z.of_nat f) 0); lia.
Qed.

(** The valid series from step [f] on, and lead step [f] of the forecast cut
    to the length of what is left of the series. *)
Lemma shifted_operands (n_f n_t n_val f : nat) (rest : list nat)
    (df dv : list float) :
  f < n_f -> f <= n_val -> n_val <= n_t ->
  slice_from f (mk_array (n_val :: rest) dv)
  = Ok (mk_array ((n_val - f) :: rest) (drop (f * size_of rest) dv))
  /\ index0_slice_to f (Z.of_nat n_val - Z.of_nat f)
       (mk_array (n_f :: n_t :: rest) df)
     = Ok (mk_array ((n_val - f) :: rest)
             (take ((n_val - f) * size_of rest)
                   (drop (f * (n_t * size_of rest)) df))).
Proof.
  intros Hf Hv Ht. split; [reflexivity|].
  unfold index0_slice_to, index0, slice_to; cbn [shape data].
  destruct (Nat.ltb_spec f n_f); [|lia].
  cbn [mbind result_bind shape data].
  rewrite stop_index_overlap by lia.
  do 2 f_equal. change (size_of (n_t :: rest)) with (n_t * size_of rest).
  rewrite take_take. f_equal.
  apply Nat.min_l, Nat.mul_le_mono_r. lia.
Qed.

(* ================================================================== *)
(** * The concrete scenario *)
(* ================================================================== *)

Ltac eval_abs :=
  unfold Rabs; repeat (destruct (Rcase_abs _)); try lra.

Lemma scenario_same_rank_raises :
  forecast_error scenario_forecast scenario_valid "mae" None
  = Raise ValueError.
Proof. reflexivity. Qed.

(** C1, as stated, fails: with the forecast of shape (4, 1) and the valid
    array of shape (5, 1), [forecast_error] with [method='mae'] does not
    return [[0, 1, 0, 1]]; the two arrays have the same rank, so they are
    subtracted as they are, and shapes (5, 1) and (4, 1) do not broadcast. *)
Lemma scenario_mae_not_returned :
  forecast_error scenario_forecast scenario_valid "mae" None
  <> Ok (mk_array [4] (map Some [0; 1; 0; 1]%R)).
Proof. rewrite scenario_same_rank_raises. discriminate. Qed.

(** C1, amended: once the caller has dropped the initialization time from
    the valid array ([valid[1:]], of shape (4, 1) and values [1, 3, 3, 5]),
    [forecast_error] with [method='mae'] returns [[0, 1, 0, 1]], lead step
    [f] of the forecast being compared with row [f] of that array; on the
    5-row valid array itself the call raises [ValueError]. *)
Theorem scenario_mae_after_alignment :
  (v ← slice_from 1 scenario_valid;
   forecast_error scenario_forecast v "mae" None)
  = Ok (mk_array [4] (map Some [0; 1; 0; 1]%R))
  /\ slice_from 1 scenario_valid
     = Ok (mk_array [4; 1] (map Some [1; 3; 3; 5]%R))
  /\ forecast_error scenario_forecast scenario_valid "mae" None
     = Raise ValueError.
Proof.
  split; [|split; reflexivity].
  cbn. repeat f_equal; eval_abs.
Qed.

(* ================================================================== *)
(** * Forecast against a plain time series *)
(* ================================================================== *)



Lemma forecast_error_series_general (method : string)
    (axis : option (list nat)) (n_f n_t n_val : nat) (rest : list nat)
    (df dv : list float) :
  known_method method = true ->
  length df = n_f * (n_t * size_of rest) ->
  length dv = n_val * size_of rest ->
  n_val <= n_t -> n_f <= S n_val ->
  forecast_error (mk_array (n_f :: n_t :: rest) df)
                 (mk_array (n_val :: rest) dv) method axis
  = (me ← for_each (fun f =>
             reduce_error method (overlap n_t n_val rest df dv f) axis)
          (seq 0 n_f);
     np_array me).
Proof.
  intros Hm Hf Hv Ht Hn.
  unfold forecast_error. rewrite Hm. simpl negb. cbv iota.
  unfold shape0, ndim. cbn [shape length mbind result_bind].
  destruct (Nat.eqb_spec (S (S (length rest))) (S (length rest))); [lia|].
  f_equal. apply for_each_ext. intros f Hin. apply in_seq in Hin.
  destruct (shifted_operands n_f n_t n_val f rest df dv) as [-> ->];
    try lia.
  cbn [mbind result_bind]. unfold np_sub.
  rewrite np_binop_same_shape; [reflexivity| |].
  - rewrite length_drop. change (size_of ((n_val - f) :: rest))
      with ((n_val - f) * size_of rest). nia.
  - rewrite length_take, length_drop.
    change (size_of ((n_val - f) :: rest)) with ((n_val - f) * size_of rest).
    apply Nat.min_l. rewrite Hf, <- Nat.mul_sub_distr_r.
    transitivity (1 * (n_t * size_of rest)).
    + rewrite Nat.mul_1_l. apply Nat.mul_le_mono_r. lia.
    + apply Nat.mul_le_mono_r. lia.
Qed.

Lemma forecast_error_series_default (method : string)
    (n_f n_t n_val : nat) (rest : list nat) (df dv : list float) :
  known_method method = true ->
  length df = n_f * (n_t * size_of rest) ->
  length dv = n_val * size_of rest ->
  n_val <= n_t -> n_f <= S n_val ->
  forecast_error (mk_array (n_f :: n_t :: rest) df)
                 (mk_array (n_val :: rest) dv) method None
  = Ok (mk_array [n_f]
          (map (fun f =>
                  error_of method (data (overlap n_t n_val rest df dv f)))
               (seq 0 n_f))).
Proof.
  intros Hm Hf Hv Ht Hn.
  rewrite forecast_error_series_general by assumption.
  rewrite (for_each_ok _
    (fun f => scalar (error_of method (data (overlap n_t n_val rest df dv f)))))
    by (intros; apply reduce_error_all).
  cbn [mbind result_bind].
  rewrite <- (map_map
    (fun f => error_of method (data (overlap n_t n_val rest df dv f))) scalar).
  rewrite np_array_scalars. now rewrite length_map, length_seq.
Qed.

Lemma for_each_inv {A B : Type} (f : A -> result B) (l : list A)
    (ys : list B) :
  for_each f l = Ok ys -> Forall2 (fun x y => f x = Ok y) l ys.
Proof.
  revert ys; induction l as [|x l IH]; intros ys H; simpl in H.
  - inversion H. constructor.
  - destruct (f x) as [y|] eqn:Ex; [|discriminate].
    destruct (for_each f l) as [ys'|] eqn:El; [|discriminate].
    inversion H. constructor; auto.
Qed.

Lemma bind_ok {A B : Type} (m : result A) (k : A -> result B) (b : B) :
  m ≫= k = Ok b -> exists a, m = Ok a /\ k a = Ok b.
Proof. destruct m as [a|]; [eauto | discriminate]. Qed.

(** Whatever the shapes, when the ranks differ and the call returns, entry
    [f] of the result is the reduction of [valid[f:] - forecast[f, :n_val -
    f]]. *)
Lemma forecast_error_series_entries (forecast valid : ndarray)
    (method : string) (axis : option (list nat)) (r : ndarray) :
  known_method method = true ->
  ndim forecast <> ndim valid ->
  forecast_error forecast valid method axis = Ok r ->
  exists n_f n_val me,
    shape0 forecast = Ok n_f /\ shape0 valid = Ok n_val
    /\ np_array me = Ok r
    /\ Forall2
         (fun f e =>
            exists v fc diff,
              slice_from f valid = Ok v
              /\ index0_slice_to f (Z.of_nat n_val - Z.of_nat f) forecast
                 = Ok fc
              /\ np_sub v fc = Ok diff
              /\ reduce_error method diff axis = Ok e)
         (seq 0 n_f) me.
Proof.
  intros Hm Hr H. unfold forecast_error in H. rewrite Hm in H.
  simpl negb in H. cbv iota in H.
  apply bind_ok in H as (n_f & Hnf & H).
  destruct (Nat.eqb_spec (ndim forecast) (ndim valid)); [contradiction|].
  apply bind_ok in H as (n_val & Hnv & H).
  apply bind_ok in H as (me & Hme & H).
  exists n_f, n_val, me. repeat split; try assumption.
  apply for_each_inv in Hme.
  eapply Forall2_impl; [exact Hme|].
  intros f e He. cbn beta in He.
  apply bind_ok in He as (v & Hv & He).
  apply bind_ok in He as (fc & Hfc & He).
  apply bind_ok in He as (diff & Hd & He).
  exists v, fc, diff. auto.
Qed.

(** C5: [forecast_error] on a forecast and a valid array of another rank
    (one less, for a plain time series).  Whenever the call returns, the
    entry at lead index [f] is the chosen reduction of [valid[f:] -
    forecast[f, :n_val - f]], [n_val] being the length of the first axis
    of [valid].  For a forecast of shape [(n_f, n_t, ...)] and a series of
    shape [(n_val, ...)] over the same grid, with [n_val <= n_t] and
    [n_f <= n_val + 1], the two operands are what is said: the series
    shifted forward by [f] steps (the first [f] blocks of its buffer are
    dropped) and lead step [f] of the forecast cut to the [n_val - f]
    steps that are left; the call then returns what the reductions of
    these differences return, for every [axis], and with the default
    [axis] it returns the array of the [n_f] errors. *)
Theorem forecast_error_shifted_series (method : string)
    (axis : option (list nat)) :
  known_method method = true ->
  (forall forecast valid r,
     ndim forecast = S (ndim valid) ->
     forecast_error forecast valid method axis = Ok r ->
     exists n_f n_val me,
       shape0 forecast = Ok n_f /\ shape0 valid = Ok n_val
       /\ np_array me = Ok r
       /\ Forall2
            (fun f e =>
               exists v fc diff,
                 slice_from f valid = Ok v
                 /\ index0_slice_to f (Z.of_nat n_val - Z.of_nat f) forecast
                    = Ok fc
                 /\ np_sub v fc = Ok diff
                 /\ reduce_error method diff axis = Ok e)
            (seq 0 n_f) me)
  /\ (forall n_f n_t n_val rest df dv,
        length df = n_f * (n_t * size_of rest) ->
        length dv = n_val * size_of rest ->
        n_val <= n_t -> n_f <= S n_val ->
        let forecast := mk_array (n_f :: n_t :: rest) df in
        let valid := mk_array (n_val :: rest) dv in
        (forall f, f < n_f ->
           slice_from f valid
           = Ok (mk_array ((n_val - f) :: rest) (drop (f * size_of rest) dv))
           /\ index0_slice_to f (Z.of_nat n_val - Z.of_nat f) forecast
              = Ok (mk_array ((n_val - f) :: rest)
                      (take ((n_val - f) * size_of rest)
                            (drop (f * (n_t * size_of rest)) df))))
        /\ forecast_error forecast valid method axis
           = (me ← for_each (fun f =>
                      reduce_error method
                        (overlap n_t n_val rest df dv f) axis)
                   (seq 0 n_f);
              np_array me)
        /\ forecast_error forecast valid method None
           = Ok (mk_array [n_f]
                   (map (fun f =>
                           error_of method
                             (data (overlap n_t n_val rest df dv f)))
                        (seq 0 n_f)))).
Proof.
  intros Hm. split.
  - intros forecast valid r Hr H.
    apply forecast_error_series_entries; [exact Hm | lia | exact H].
  - intros n_f n_t n_val rest df dv Hf Hv Ht Hn forecast valid.
    split; [|split].
    + intros f Hlt. apply shifted_operands; lia.
    + now apply forecast_error_series_general.
    + now apply forecast_error_series_default.
Qed.

Lemma forecast_error_shifted_series_witness :
  forecast_error (mk_array [2; 3] (map Some [1; 2; 3; 4; 5; 6]%R))
                 (mk_array [3] (map Some [1; 2; 4]%R)) "mse" None
  = Ok (mk_array [2]
          [error_of "mse" (map Some [1 - 1; 2 - 2; 4 - 3]%R);
           error_of "mse" (map Some [2 - 4; 4 - 5]%R)]).
Proof.
  exact (proj2 (proj2 (proj2 (forecast_error_shifted_series "mse" None
                                eq_refl)
                         2 3 3 [] (map Some [1; 2; 3; 4; 5; 6]%R)
                         (map Some [1; 2; 4]%R)
                         eq_refl eq_refl ltac:(lia) ltac:(lia)))).
Defined.

(* ================================================================== *)
(** * Not-a-number is left out of every mean *)
(* ================================================================== *)

Lemma acc_sum_finite (d : list float) :
  acc_sum (map acc_of d)
  = (fold_right Rplus 0%R (finite_values d), length (finite_values d)).
Proof.
  induction d as [|[r|] d IH]; simpl; [reflexivity| |];
    fold (acc_sum (map acc_of d)); rewrite IH; unfold acc_add; simpl.
  - reflexivity.
  - now rewrite Rplus_0_l.
Qed.

Lemma nanmean_all_plain (d : list float) :
  nanmean_all d = plain_mean (finite_values d).
Proof.
  unfold nanmean_all. rewrite acc_sum_finite. unfold acc_mean; simpl.
  now destruct (finite_values d).
Qed.

Lemma finite_values_lift1 (g : R -> R) (d : list float) :
  finite_values (map (lift1 g) d) = map g (finite_values d).
Proof.
  induction d as [|[r|] d IH]; simpl; [reflexivity| |]; now rewrite IH.
Qed.

Lemma error_of_plain (method : string) (d : list float) :
  error_of method d = plain_error method (finite_values d).
Proof.
  unfold error_of, plain_error, fsquare, fabs.
  now rewrite !nanmean_all_plain, !finite_values_lift1.
Qed.

Lemma finite_values_app (d1 d2 : list float) :
  finite_values (d1 ++ d2) = finite_values d1 ++ finite_values d2.
Proof.
  induction d1 as [|[r|] d1 IH]; simpl; [reflexivity| |]; now rewrite IH.
Qed.

Lemma fsub_nan (x y : float) : x = nan \/ y = nan -> fsub y x = nan.
Proof. intros [-> | ->]; [now destruct y | reflexivity]. Qed.

(** The differences of two buffers, one of which is NaN at a position, have
    the finite values of the differences without that position. *)
Lemma finite_values_diff_without (pf qf pv qv : list float) (x y : float) :
  length pf = length pv -> x = nan \/ y = nan ->
  finite_values (zip_with fsub (pv ++ y :: qv) (pf ++ x :: qf))
  = finite_values (zip_with fsub (pv ++ qv) (pf ++ qf)).
Proof.
  intros Hp Hxy.
  rewrite !zip_with_app by congruence.
  rewrite !finite_values_app. simpl. now rewrite fsub_nan.
Qed.

(** C4: [forecast_error] leaves not-a-number out of each reduction, for
    every method.  With arrays of one shape, and with a valid series of one
    rank less, the error of a lead step is the plain metric of the
    differences that are not NaN: a NaN adds nothing to the sum nor to the
    count, and the error is NaN only when nothing is left.  So arrays with
    a NaN element (in the forecast or in the valid array) give the same
    error as the arrays with that element removed. *)
Theorem forecast_error_excludes_nan (method : string) :
  known_method method = true ->
  (forall n rest df dv,
     length df = n * size_of rest -> length dv = n * size_of rest ->
     forecast_error (mk_array (n :: rest) df) (mk_array (n :: rest) dv)
                    method None
     = Ok (mk_array [n]
             (map (fun block => plain_error method (finite_values block))
                  (chunks (size_of rest) n (zip_with fsub dv df)))))
  /\ (forall n_f n_t n_val rest df dv,
        length df = n_f * (n_t * size_of rest) ->
        length dv = n_val * size_of rest ->
        n_val <= n_t -> n_f <= S n_val ->
        forecast_error (mk_array (n_f :: n_t :: rest) df)
                       (mk_array (n_val :: rest) dv) method None
        = Ok (mk_array [n_f]
                (map (fun f =>
                        plain_error method
                          (finite_values
                             (data (overlap n_t n_val rest df dv f))))
                     (seq 0 n_f))))
  /\ (forall pf qf pv qv x y,
        length pf = length pv -> length qf = length qv ->
        x = nan \/ y = nan ->
        forecast_error
          (mk_array [1; S (length (pf ++ qf))] (pf ++ x :: qf))
          (mk_array [1; S (length (pv ++ qv))] (pv ++ y :: qv)) method None
        = forecast_error
            (mk_array [1; length (pf ++ qf)] (pf ++ qf))
            (mk_array [1; length (pv ++ qv)] (pv ++ qv)) method None).
Proof.
  intros Hm. split; [|split].
  - intros n rest df dv Hf Hv.
    rewrite forecast_error_same_shape by assumption.
    do 2 f_equal. apply map_ext. intros. apply error_of_plain.
  - intros n_f n_t n_val rest df dv Hf Hv Ht Hn.
    rewrite forecast_error_series_default by assumption.
    do 2 f_equal. apply map_ext. intros. apply error_of_plain.
  - intros pf qf pv qv x y Hp Hq Hxy.
    assert (Hl : length (pv ++ qv) = length (pf ++ qf))
      by (rewrite !length_app; lia).
    rewrite Hl.
    rewrite !forecast_error_same_shape;
      try assumption;
      try (cbn [size_of fold_right]; rewrite ?length_app in *; simpl; lia).
    do 2 f_equal. cbn [size_of fold_right].
    rewrite !chunks_single
      by (rewrite length_zip_with, !length_app in *; simpl; lia).
    simpl. f_equal. rewrite !error_of_plain. f_equal.
    now apply finite_values_diff_without.
Qed.

Lemma forecast_error_excludes_nan_witness :
  forecast_error (mk_array [1; 3] [Some 1%R; nan; Some 4%R])
                 (mk_array [1; 3] [Some 2%R; Some 7%R; Some 2%R]) "rmse" None
  = forecast_error (mk_array [1; 2] [Some 1%R; Some 4%R])
                   (mk_array [1; 2] [Some 2%R; Some 2%R]) "rmse" None.
Proof.
  exact (proj2 (proj2 (forecast_error_excludes_nan "rmse" eq_refl))
           [Some 1%R] [Some 4%R] [Some 2%R] [Some 2%R] nan (Some 7%R)
           eq_refl eq_refl (or_introl eq_refl)).
Defined.

(* ================================================================== *)
(** * Persistence of a constant *)
(* ================================================================== *)

Lemma finite_values_Some (l : list R) : finite_values (map Some l) = l.
Proof. induction l as [|x l IH]; simpl; [reflexivity | now rewrite IH]. Qed.

Lemma zip_with_fsub_const (v : R) (l : list R) (k m : nat) :
  length l <= k -> k <= m ->
  zip_with fsub (map Some l) (take k (repeat (Some v) m))
  = map (fun x => Some (x - v)%R) l.
Proof.
  revert k m; induction l as [|x l IH]; intros k m Hk Hm; simpl in *.
  - reflexivity.
  - destruct k as [|k]; [lia|]. destruct m as [|m]; [lia|]. simpl.
    f_equal. apply IH; lia.
Qed.

(** [persistence_error] with a constant predictor, a series without NaN and
    [method='mae']: the error at lead step [f] is the mean of [|x - v|]
    over the series from step [f] on. *)
Lemma persistence_error_constant (v : R) (xs : list R) (m n_fhour : nat) :
  n_fhour <= length xs -> length xs <= m ->
  persistence_error (mk_array [m] (repeat (Some v) m))
                    (mk_array [length xs] (map Some xs)) n_fhour "mae" None
  = Ok (mk_array [n_fhour] (map Some (map (mae_from v xs) (seq 0 n_fhour)))).
Proof.
  intros Hn Hm. unfold persistence_error.
  cbn [known_method existsb negb shape0 shape mbind result_bind].
  change (negb (_ || _)) with false. cbv iota.
  rewrite (for_each_ok _ (fun f => scalar (Some (mae_from v xs f)))).
  - cbn [mbind result_bind].
    rewrite <- (map_map (fun f => Some (mae_from v xs f)) scalar).
    rewrite np_array_scalars, length_map, length_seq. now rewrite map_map.
  - intros f Hin. apply in_seq in Hin.
    unfold slice_from, slice_to. cbn [shape data mbind result_bind].
    rewrite stop_index_overlap by lia.
    cbn [size_of fold_right]. rewrite !Nat.mul_1_r.
    unfold np_sub. rewrite np_binop_same_shape.
    + cbn [mbind result_bind]. rewrite reduce_error_all. cbn [data].
      do 2 f_equal.
      rewrite skipn_map.
      rewrite zip_with_fsub_const by (rewrite ?length_drop; lia).
      unfold error_of. cbn [String.eqb Ascii.eqb Bool.eqb].
      rewrite nanmean_all_plain, map_map.
      change (fun x => fabs (Some (x - v)%R))
        with (fun x => Some (Rabs (x - v))).
      rewrite <- (map_map (fun x => Rabs (x - v)) Some), finite_values_Some.
      unfold mae_from, plain_mean.
      destruct (drop f xs) eqn:E.
      * apply (f_equal length) in E. rewrite length_drop in E. simpl in E. lia.
      * now rewrite length_map.
    + rewrite length_drop, length_map. cbn [size_of fold_right]. lia.
    + rewrite length_take, repeat_length. cbn [size_of fold_right]. lia.
Qed.

Section SuffixMeans.
Local Open Scope R_scope.

Lemma sum_ge_head (y : R) (l : list R) :
  (forall z, In z l -> y <= z) ->
  INR (length l) * y <= fold_right Rplus 0 l.
Proof.
  induction l as [|z l IH]; intros H.
  - simpl. lra.
  - change (length (z :: l)) with (S (length l)). rewrite S_INR.
    simpl fold_right.
    assert (y <= z) by (apply H; now left).
    assert (INR (length l) * y <= fold_right Rplus 0 l)
      by (apply IH; intros; apply H; now right).
    lra.
Qed.

Lemma sum_gt_head (y : R) (l : list R) :
  l <> [] -> (forall z, In z l -> y < z) ->
  INR (length l) * y < fold_right Rplus 0 l.
Proof.
  intros Hne H.
  destruct l as [|z l]; [congruence|].
  change (length (z :: l)) with (S (length l)). rewrite S_INR.
  simpl fold_right.
  assert (y < z) by (apply H; now left).
  assert (INR (length l) * y <= fold_right Rplus 0 l).
  { apply sum_ge_head. intros w Hw. left. apply H. now right. }
  lra.
Qed.

(** Dropping a head that is not above the rest does not lower the mean. *)
Lemma mean_drop_head (y s k : R) :
  0 < k -> k * y <= s -> (y + s) / (k + 1) <= s / k.
Proof.
  intros Hk Hs.
  assert (E : s / k - (y + s) / (k + 1) = (s - k * y) * / (k * (k + 1)))
    by (field; lra).
  assert (0 <= (s - k * y) * / (k * (k + 1))).
  { apply Rle_mult_inv_pos; nra. }
  lra.
Qed.

Lemma mean_drop_head_strict (y s k : R) :
  0 < k -> k * y < s -> (y + s) / (k + 1) < s / k.
Proof.
  intros Hk Hs.
  assert (E : s / k - (y + s) / (k + 1) = (s - k * y) / (k * (k + 1)))
    by (field; lra).
  assert (0 < (s - k * y) / (k * (k + 1))).
  { apply Rdiv_lt_0_compat; nra. }
  lra.
Qed.
End SuffixMeans.

Lemma drop_S_lookup {A : Type} (l : list A) (f : nat) (x : A) :
  l !! f = Some x -> drop f l = x :: drop (S f) l.
Proof.
  revert f; induction l as [|y l IH]; intros [|f] H; simpl in *;
    try discriminate.
  - now inversion H.
  - now apply IH.
Qed.

(** When the constant is not above the series, the absolute differences
    are the differences, and they inherit the order of the series. *)
Lemma mae_from_step (v : R) (xs : list R) (f : nat) :
  S f < length xs ->
  (forall x, In x xs -> (v <= x)%R) ->
  (nondecreasing xs -> (mae_from v xs f <= mae_from v xs (S f))%R)
  /\ (strictly_increasing xs -> (mae_from v xs f < mae_from v xs (S f))%R).
Proof.
  intros Hf Hv.
  destruct (lookup_lt_is_Some_2 xs f ltac:(lia)) as [y Hy].
  unfold mae_from. rewrite (drop_S_lookup xs f y Hy).
  set (l := drop (S f) xs).
  assert (Hl : l <> []).
  { intros E. apply (f_equal length) in E. unfold l in E.
    rewrite length_drop in E. simpl in E. lia. }
  assert (Hpos : (0 < INR (length l))%R).
  { apply lt_0_INR. destruct l; [congruence | simpl; lia]. }
  assert (Hin : forall z, In z l ->
            exists j, f < j /\ xs !! j = Some z).
  { intros z Hz. apply list_elem_of_In, list_elem_of_lookup in Hz as [i Hi].
    unfold l in Hi. rewrite lookup_drop in Hi. exists (S f + i). split; [lia|].
    exact Hi. }
  assert (Habs : forall z, In z xs -> Rabs (z - v) = (z - v)%R).
  { intros z Hz. apply Rabs_pos_eq. specialize (Hv z Hz). lra. }
  assert (Hy_in : In y xs)
    by (apply list_elem_of_In, list_elem_of_lookup; eauto).
  assert (Hl_in : forall z, In z l -> In z xs).
  { intros z Hz. destruct (Hin z Hz) as (j & _ & Hj).
    apply list_elem_of_In, list_elem_of_lookup; eauto. }
  change (length (y :: l)) with (S (length l)). rewrite S_INR.
  cbn [map fold_right].
  split; intros Hs.
  - apply mean_drop_head; [exact Hpos|].
    rewrite <- (length_map (fun x => Rabs (x - v)) l).
    apply sum_ge_head. intros z Hz.
    apply in_map_iff in Hz as (w & <- & Hw).
    rewrite !Habs by auto.
    destruct (Hin w Hw) as (j & Hj & Hjw).
    pose proof (Hs f j y w Hj Hy Hjw). lra.
  - apply mean_drop_head_strict; [exact Hpos|].
    rewrite <- (length_map (fun x => Rabs (x - v)) l).
    apply sum_gt_head; [now destruct l|]. intros z Hz.
    apply in_map_iff in Hz as (w & <- & Hw).
    rewrite !Habs by auto.
    destruct (Hin w Hw) as (j & Hj & Hjw).
    pose proof (Hs f j y w Hj Hy Hjw). lra.
Qed.

Lemma lookup_map_seq {A : Type} (g : nat -> A) (n i : nat) (a : A) :
  map g (seq 0 n) !! i = Some a -> i < n /\ a = g i.
Proof.
  intros H. apply list_lookup_fmap_Some in H as (k & -> & Hk).
  apply lookup_seq in Hk as [-> ?]. split; [lia | reflexivity].
Qed.

Lemma steps_nondecreasing (g : nat -> R) (n : nat) :
  (forall f, S f < n -> (g f <= g (S f))%R) ->
  nondecreasing (map g (seq 0 n)).
Proof.
  intros Hstep i j a b Hij Ha Hb.
  apply lookup_map_seq in Ha as [Hi ->], Hb as [Hj ->].
  induction j as [|j IH]; [lia|].
  destruct (Nat.eq_dec i j) as [->|]; [apply Hstep; lia|].
  apply Rle_trans with (g j); [apply IH; lia | apply Hstep; lia].
Qed.

Lemma steps_increasing (g : nat -> R) (n : nat) :
  (forall f, S f < n -> (g f < g (S f))%R) ->
  strictly_increasing (map g (seq 0 n)).
Proof.
  intros Hstep i j a b Hij Ha Hb.
  apply lookup_map_seq in Ha as [Hi ->], Hb as [Hj ->].
  induction j as [|j IH]; [lia|].
  destruct (Nat.eq_dec i j) as [->|]; [apply Hstep; lia|].
  apply Rlt_trans with (g j); [apply IH; lia | apply Hstep; lia].
Qed.

(** C3, as stated, fails: the constant predictor 10 scored against the
    increasing series [1, 2, 3] gives the mean absolute errors
    [8, 7.5, 7], which decrease with lead time. *)
Lemma persistence_mae_decreases_above_series :
  strictly_increasing [1; 2; 3]%R
  /\ persistence_error (mk_array [3] (repeat (Some 10%R) 3))
       (mk_array [3] (map Some [1; 2; 3]%R)) 3 "mae" None
     = Ok (mk_array [3] (map Some [8; 7.5; 7]%R))
  /\ ~ nondecreasing [8; 7.5; 7]%R.
Proof.
  split; [|split].
  - intros i j a b Hij Ha Hb.
    destruct i as [|[|[|i]]], j as [|[|[|j]]]; simpl in *;
      try lia; try discriminate;
      inversion Ha; inversion Hb; subst; lra.
  - etransitivity;
      [apply (persistence_error_constant 10 [1; 2; 3]%R 3 3); simpl; lia|].
    unfold mae_from. simpl. repeat f_equal; eval_abs.
  - intros H. specialize (H 0 1 8%R 7.5%R ltac:(lia) eq_refl eq_refl). lra.
Qed.

(** C3, amended: when the constant predictor value [v] is not above the
    ground-truth series (and no more lead steps are asked for than the
    series has values), the mean absolute errors returned by
    [persistence_error] are, for a non-decreasing series, non-decreasing
    in the lead-time index, and for a strictly increasing series, strictly
    increasing. *)
Theorem persistence_mae_monotone (v : R) (xs : list R) (m n_fhour : nat) :
  n_fhour <= length xs -> length xs <= m ->
  (forall x, In x xs -> (v <= x)%R) ->
  exists maes : list R,
    persistence_error (mk_array [m] (repeat (Some v) m))
                      (mk_array [length xs] (map Some xs)) n_fhour "mae" None
    = Ok (mk_array [n_fhour] (map Some maes))
    /\ length maes = n_fhour
    /\ (nondecreasing xs -> nondecreasing maes)
    /\ (strictly_increasing xs -> strictly_increasing maes).
Proof.
  intros Hn Hm Hv. exists (map (mae_from v xs) (seq 0 n_fhour)).
  split; [now apply persistence_error_constant|].
  split; [now rewrite length_map, length_seq|].
  split; intros Hs.
  - apply steps_nondecreasing. intros f Hf.
    apply mae_from_step; [lia | exact Hv | exact Hs].
  - apply steps_increasing. intros f Hf.
    apply mae_from_step; [lia | exact Hv | exact Hs].
Qed.

Lemma persistence_mae_monotone_witness :
  exists maes : list R,
    persistence_error (mk_array [3] (repeat (Some 0%R) 3))
                      (mk_array [3] (map Some [1; 2; 3]%R)) 3 "mae" None
    = Ok (mk_array [3] (map Some maes))
    /\ length maes = 3
    /\ (nondecreasing [1; 2; 3]%R -> nondecreasing maes)
    /\ (strictly_increasing [1; 2; 3]%R -> strictly_increasing maes).
Proof.
  apply (persistence_mae_monotone 0 [1; 2; 3]%R 3 3); simpl; try lia.
  intros x [<-|[<-|[<-|[]]]]; lra.
Defined.

(* ================================================================== *)
(** * The verification loop *)
(* ================================================================== *)

Lemma for_fold_ext {A S : Type} (f g : S -> A -> result S) (l : list A) (s : S) :
  (forall s' x, In x l -> f s' x = g s' x) -> for_fold f l s = for_fold g l s.
Proof.
  revert s; induction l as [|x l IH]; intros s H; simpl; [reflexivity|].
  rewrite H by now left.
  destruct (g s x); [|reflexivity].
  apply IH. intros s' y Hy. apply H. now right.
Qed.

Lemma zip_with_map_seq {A B C : Type} (g : A -> B -> C) (h : nat -> A)
    (col : list B) (dflt : B) (k n : nat) :
  length col = n ->
  zip_with g (map h (seq k n)) col
  = map (fun f => g (h f) (nth (f - k) col dflt)) (seq k n).
Proof.
  revert k col; induction n as [|n IH]; intros k [|x col] Hn; simpl in *;
    try discriminate; [reflexivity|].
  rewrite Nat.sub_diag. f_equal.
  rewrite IH by lia. apply map_ext_in. intros f Hf. apply in_seq in Hf.
  replace (f - k) with (S (f - S k)) by lia. reflexivity.
Qed.

Lemma map_const_seq {A : Type} (x : A) (k n : nat) :
  map (fun _ : nat => x) (seq k n) = repeat x n.
Proof.
  revert k; induction n as [|n IH]; intros k; simpl;
    [reflexivity | now rewrite IH].
Qed.

Section Columns.
Context (single : R -> R) (fsize : nat) (colf : Z -> list field)
  (nanf : field) (n : nat).

(** What is stored of the block looked up for a date. *)
Local Abbreviation stored :=
  (fun date : Z => map (map (lift1 single)) (colf date)).
Local Abbreviation filled := (filled stored nanf n).

Lemma assign_next_column (samples : list Z) (k : nat) (date : Z) :
  samples !! k = Some date -> length (colf date) = n ->
  Forall (fun x => length x = fsize) (colf date) ->
  assign_column single fsize k (colf date) (filled samples k)
  = Ok (filled samples (S k)).
Proof.
  intros Hk Hlen Hgrid. unfold assign_column, filled.
  rewrite length_map, length_seq, Hlen, Nat.eqb_refl.
  replace (forallb (fun x => length x =? fsize) (colf date)) with true.
  2: { symmetry. apply forallb_forall. intros x Hx. apply Nat.eqb_eq.
       rewrite List.Forall_forall in Hgrid. now apply Hgrid. }
  cbn [andb]. f_equal.
  rewrite (zip_with_map_seq _ _ _ []) by exact Hlen.
  apply map_ext_in. intros f Hf. apply in_seq in Hf. rewrite Nat.sub_0_r.
  pose proof (lookup_lt_Some _ _ _ Hk) as Hlt.
  rewrite (take_S_r _ _ _ Hk), map_app, <- app_assoc. simpl.
  rewrite insert_app_r_alt by (rewrite length_map, length_take; lia).
  rewrite length_map, length_take.
  replace (k - k `min` length samples) with 0 by lia.
  replace (length samples - k) with (S (length samples - S k)) by lia.
  assert (E : nth f (map (map (lift1 single)) (colf date)) nanf
              = map (lift1 single) (nth f (colf date) [])).
  { rewrite <- (map_nth (map (lift1 single))). apply nth_indep.
    rewrite length_map.
    assert (E0 : @length (list float) (colf date) = n) by exact Hlen.
    lia. }
  f_equal. cbn [repeat]. change (<[0:=?x]> (?y :: ?l)) with (x :: l).
  f_equal. symmetry. exact E.
Qed.

Lemma fill_columns (samples rest : list Z) (k : nat) :
  (forall date, In date samples ->
     length (colf date) = n
     /\ Forall (fun x => length x = fsize) (colf date)) ->
  drop k samples = rest ->
  for_fold (fun ver '(d, date) =>
              assign_column single fsize d (colf date) ver)
           (combine (seq k (length rest)) rest) (filled samples k)
  = Ok (filled samples (length samples)).
Proof.
  intros Hlen. revert k; induction rest as [|date rest IH]; intros k Hk.
  - simpl. f_equal.
    assert (length samples <= k).
    { apply (f_equal length) in Hk. rewrite length_drop in Hk.
      simpl in Hk.
      destruct (Nat.le_gt_cases (length samples) k); [assumption|lia]. }
    unfold filled. apply map_ext. intros f.
    rewrite !firstn_all2 by lia.
    now replace (length samples - k) with 0 by lia;
      rewrite Nat.sub_diag.
  - assert (Hd : samples !! k = Some date).
    { rewrite <- (Nat.add_0_r k), <- lookup_drop, Hk. reflexivity. }
    assert (Hin : In date samples)
      by (apply list_elem_of_In, list_elem_of_lookup; eauto).
    simpl. rewrite assign_next_column;
      [|exact Hd | apply (Hlen date Hin) | apply (Hlen date Hin)].
    apply IH. replace (S k) with (k + 1) by lia.
    now rewrite <- drop_drop, Hk.
Qed.

(** The loop over the samples fills the array column by column: entry
    [f] of column [d] is entry [f] of what was looked up for sample
    [d], in single precision. *)
Lemma verification_loop (samples : list Z) :
  (forall date, In date samples ->
     length (colf date) = n
     /\ Forall (fun x => length x = fsize) (colf date)) ->
  for_fold (fun ver '(d, date) =>
              assign_column single fsize d (colf date) ver)
           (enumerate samples) (repeat (repeat nanf (length samples)) n)
  = Ok (map (fun f => map (fun date => nth f (stored date) nanf) samples)
            (seq 0 n)).
Proof.
  intros Hlen.
  pose proof (fill_columns samples samples 0 Hlen eq_refl) as H.
  unfold filled in H. change (take 0 samples) with (@nil Z) in H.
  cbn [map] in H. rewrite Nat.sub_0_r, Nat.sub_diag in H.
  unfold enumerate.
  replace (repeat (repeat nanf (length samples)) n)
    with (map (fun _ : nat => [] ++ repeat nanf (length samples)) (seq 0 n)).
  - rewrite H. f_equal. apply map_ext. intros f.
    rewrite firstn_all. simpl. apply app_nil_r.
  - simpl. apply map_const_seq.
Qed.
End Columns.

Lemma date_range_steps (start step : Z) (n : nat) :
  (0 < step)%Z ->
  date_range start (start + Z.of_nat n * step) step
  = map (fun i => (start + Z.of_nat i * step)%Z) (seq 0 (S n)).
Proof.
  intros Hs. unfold date_range.
  destruct (Z.ltb_spec (start + Z.of_nat n * step) start) as [H|_]; [nia|].
  replace (start + Z.of_nat n * step - start)%Z with (Z.of_nat n * step)%Z
    by lia.
  rewrite Z.div_mul by lia. rewrite Nat2Z.id.
  now replace (n + 1) with (S n) by lia.
Qed.

Lemma hours_pos (dt : Z) : (1 <= dt)%Z -> (0 < hours dt)%Z.
Proof. unfold hours, hour_ns, second_ns. lia. Qed.

(** The times looked up for one initialization time by
    [verification_from_series]: [date + dt], ..., [date + forecast_steps *
    dt]. *)
Lemma series_range (date forecast_steps dt : Z) :
  (1 <= forecast_steps)%Z -> (1 <= dt)%Z ->
  date_range (date + hours dt) (date + hours (dt * forecast_steps)) (hours dt)
  = map (fun i => (date + hours (dt * (Z.of_nat i + 1)))%Z)
        (seq 0 (Z.to_nat forecast_steps)).
Proof.
  intros Hs Hd.
  replace (date + hours (dt * forecast_steps))%Z
    with (date + hours dt + Z.of_nat (Z.to_nat (forecast_steps - 1)) * hours dt)%Z
    by (unfold hours; rewrite Z2Nat.id by lia; ring).
  rewrite date_range_steps by now apply hours_pos.
  replace (S (Z.to_nat (forecast_steps - 1))) with (Z.to_nat forecast_steps)
    by lia.
  apply map_ext. intros i. unfold hours. ring.
Qed.

Lemma nth_map_seq {A : Type} (g : nat -> A) (n f : nat) (dflt : A) :
  f < n -> nth f (map g (seq 0 n)) dflt = g f.
Proof.
  intros Hf. rewrite (nth_indep _ dflt (g 0)) by (now rewrite length_map, length_seq).
  rewrite (map_nth g), seq_nth by assumption. reflexivity.
Qed.

Lemma reindex_unique (da : DataArray) (target : list Z) :
  NoDup (sample da) -> reindex da target = Ok (map (row_at da) target).
Proof.
  intros H. unfold reindex. now rewrite bool_decide_eq_true_2.
Qed.

Lemma sel_label_in (da : DataArray) (t : Z) (row : field) :
  sel_label da t = Some row -> In row (values da).
Proof.
  unfold sel_label. destruct (find _ _) as [[u x]|] eqn:E; [|discriminate].
  intros H. injection H as <-. apply find_some in E as [E _].
  now apply in_combine_r in E.
Qed.

(** What is looked up in a store on a grid is a field of that grid. *)
Lemma row_at_length (da : DataArray) (n : nat) (t : Z) :
  on_grid n da -> length (row_at da t) = n.
Proof.
  intros [Hsize Hrows]. unfold row_at.
  destruct (sel_label da t) as [row|] eqn:E; cbn [default].
  - rewrite List.Forall_forall in Hrows. apply Hrows.
    now apply (sel_label_in da t).
  - unfold nan_field. now rewrite repeat_length.
Qed.

(** The array built by [verification_from_series] from a source whose time
    stamps are all different, on the grid of the validation set: lead step
    [f + 1] of initialization time [date] holds what the source has at
    [date + (f + 1) * dt], in single precision. *)
Lemma verification_from_series_values (single : R -> R) (ds : SeriesDataset)
    (all_ds : option SeriesDataset) (forecast_steps dt : Z) :
  (1 <= forecast_steps)%Z -> (1 <= dt)%Z ->
  let source := predictors (default ds all_ds) in
  NoDup (sample source) ->
  on_grid (field_size (predictors ds)) source ->
  verification_from_series single ds all_ds forecast_steps dt
  = Ok (mk_verification
          (np_arange dt (dt * forecast_steps + 1) dt)
          (sample (predictors ds))
          (map (fun f =>
                  map (fun date =>
                         map (lift1 single)
                             (row_at source
                                (date + hours (dt * (Z.of_nat f + 1)))))
                      (sample (predictors ds)))
               (seq 0 (Z.to_nat forecast_steps)))).
Proof.
  intros Hs Hd source Hu Hg. unfold verification_from_series.
  destruct (Z.ltb_spec forecast_steps 1); [lia|].
  destruct (Z.ltb_spec dt 1); [lia|].
  replace (match all_ds with Some a => predictors a | None => predictors ds end)
    with source by (now destruct all_ds).
  set (colf := fun date : Z =>
    map (fun i => row_at source (date + hours (dt * (Z.of_nat i + 1))))
        (seq 0 (Z.to_nat forecast_steps))).
  rewrite (for_fold_ext _
    (fun ver '(d, date) =>
       assign_column single (field_size (predictors ds)) d (colf date) ver)).
  - rewrite verification_loop.
    + cbn [mbind result_bind]. do 2 f_equal.
      apply map_ext_in. intros f Hf. apply in_seq in Hf.
      apply map_ext. intros date. unfold colf.
      now rewrite map_map, nth_map_seq by lia.
    + intros date _. unfold colf. split.
      * now rewrite length_map, length_seq.
      * apply Forall_map, List.Forall_forall. intros i _.
        now apply row_at_length.
  - intros ver [d date] _.
    rewrite series_range, reindex_unique by assumption.
    cbn [mbind result_bind]. unfold colf. now rewrite map_map.
Qed.

Lemma hours_ns (n : Z) : hours n = (n * 3600000000000)%Z.
Proof. reflexivity. Qed.

Lemma find_label_absent (idx : list Z) (vals : list field) (t : Z) :
  ~ In t idx ->
  find (fun p : Z * field => Z.eqb (fst p) t) (combine idx vals) = None.
Proof.
  revert vals; induction idx as [|u idx IH]; intros [|v vals] H; simpl in *;
    try reflexivity.
  destruct (Z.eqb_spec u t); [tauto|]. apply IH. tauto.
Qed.

Lemma find_label_present (idx : list Z) (vals : list field) (t : Z)
    (i : nat) (x : field) :
  NoDup idx -> idx !! i = Some t -> vals !! i = Some x ->
  find (fun p : Z * field => Z.eqb (fst p) t) (combine idx vals) = Some (t, x).
Proof.
  revert vals i; induction idx as [|u idx IH]; intros [|v vals] [|i] Hu Hi Hx;
    simpl in *; try discriminate.
  - inversion Hi; inversion Hx; subst. now rewrite Z.eqb_refl.
  - apply NoDup_cons in Hu as [Hnot Hu].
    destruct (Z.eqb_spec u t) as [->|_].
    + exfalso. apply Hnot. apply list_elem_of_lookup. eauto.
    + eapply IH; eauto.
Qed.

Lemma row_at_absent (da : DataArray) (t : Z) :
  ~ In t (sample da) -> row_at da t = nan_field (field_size da).
Proof.
  intros H. unfold row_at, sel_label. now rewrite find_label_absent.
Qed.

Lemma row_at_present (da : DataArray) (t : Z) (i : nat) (x : field) :
  NoDup (sample da) -> sample da !! i = Some t -> values da !! i = Some x ->
  row_at da t = x.
Proof.
  intros Hu Hi Hx. unfold row_at, sel_label.
  now rewrite (find_label_present _ _ _ i x).
Qed.

Lemma verification_entry (single : R -> R) (ds : SeriesDataset)
    (source : DataArray) (forecast_steps dt : Z) (d f : nat) (t0 : Z) :
  sample (predictors ds) !! d = Some t0 ->
  1 <= f <= Z.to_nat forecast_steps ->
  exists row,
    map (fun f =>
           map (fun date =>
                  map (lift1 single)
                      (row_at source (date + hours (dt * (Z.of_nat f + 1)))))
               (sample (predictors ds)))
        (seq 0 (Z.to_nat forecast_steps)) !! (f - 1) = Some row
    /\ row !! d
       = Some (map (lift1 single)
                   (row_at source (t0 + Z.of_nat f * dt * 3600000000000))).
Proof.
  intros Hd Hf. eexists. split.
  - apply list_lookup_fmap_Some. exists (f - 1). split; [reflexivity|].
    apply lookup_seq. split; [reflexivity | lia].
  - apply list_lookup_fmap_Some. exists t0. split; [|exact Hd].
    rewrite hours_ns.
    replace (Z.of_nat (f - 1) + 1)%Z with (Z.of_nat f) by lia.
    do 3 f_equal. ring.
Qed.

Lemma single_example_rounds : single_example 16777217 = 16777216%R.
Proof.
  unfold single_example.
  destruct (Req_dec_T 16777217 16777217); [reflexivity | contradiction].
Qed.

Lemma single_example_keeps (r : R) :
  r <> 16777217%R -> single_example r = r.
Proof.
  intros Hr. unfold single_example.
  destruct (Req_dec_T r 16777217); [contradiction | reflexivity].
Qed.

Lemma map_lift1_nan (g : R -> R) (n : nat) :
  map (lift1 g) (nan_field n) = repeat None n.
Proof.
  unfold nan_field. induction n as [|n IH]; simpl; [reflexivity|].
  now rewrite IH.
Qed.

Lemma map_fixed {A : Type} (g : A -> A) (l : list A) :
  Forall (fun v => g v = v) l -> map g l = l.
Proof.
  induction 1 as [|v l Hv _ IH]; simpl; [reflexivity|]. now rewrite Hv, IH.
Qed.

(* ================================================================== *)
(** * Verification from a series *)
(* ================================================================== *)

(** C6, as stated, fails: the array that [verification_from_series]
    returns has single precision, so a value of the store that has no
    single-precision value comes back rounded.  The store has a sample at
    0 h and at 6 h; the validation set is the time 0 h, with one lead step
    of 6 hours.  The store holds 16777217 at 6 h, the array holds
    16777216. *)
Lemma verification_from_series_rounds_to_single :
  let store :=
    mk_series (mk_da [0; 21600000000000]%Z
                 [[Some 1%R]; [Some 16777217%R]] 1) in
  let ds := mk_series (mk_da [0]%Z [[Some 1%R]] 1) in
  single_example 16777217 = 16777216%R
  /\ exists ver row,
       verification_from_series single_example ds (Some store) 1 6 = Ok ver
       /\ ver_values ver !! 0 = Some row
       /\ row !! 0 = Some [Some 16777216%R]
       /\ values (predictors store) !! 1 = Some [Some 16777217%R]
       /\ (16777216 <> 16777217)%R.
Proof.
  intros store ds. split; [apply single_example_rounds|].
  eexists. eexists. split; [reflexivity|]. split; [reflexivity|].
  split; [|split; [reflexivity | lra]].
  cbv -[single_example IZR]. now rewrite single_example_rounds.
Qed.

(** C6: let the source store ([all_ds] if given, else [ds]) have one row
    per time stamp and no time stamp twice, be on the grid of [ds], and
    have a sample every [dt] hours from [T0] to [T1]; let [t0] be an
    initialization time of the validation set, on that grid of times, with
    [t0 + forecast_steps * dt <= T1].  Then [verification_from_series]
    returns an array whose entry at lead step [f] (for [f] from 1 to
    [forecast_steps]) and initialization time [t0] is the row that the
    store holds at time [t0 + f * dt], every value converted to single
    precision; it is that row itself when the conversion leaves its
    values as they are.  Times are in nanoseconds: an hour is
    3600000000000. *)
Theorem verification_from_series_reindex (single : R -> R)
    (ds : SeriesDataset) (all_ds : option SeriesDataset)
    (forecast_steps dt T0 T1 t0 k0 : Z) (d : nat) :
  (1 <= forecast_steps)%Z -> (1 <= dt)%Z ->
  let source := predictors (default ds all_ds) in
  wf_store source ->
  on_grid (field_size (predictors ds)) source ->
  (forall k, (0 <= k)%Z -> (T0 + k * dt * 3600000000000 <= T1)%Z ->
             In (T0 + k * dt * 3600000000000)%Z (sample source)) ->
  sample (predictors ds) !! d = Some t0 ->
  (0 <= k0)%Z -> t0 = (T0 + k0 * dt * 3600000000000)%Z ->
  (t0 + forecast_steps * dt * 3600000000000 <= T1)%Z ->
  exists ver,
    verification_from_series single ds all_ds forecast_steps dt = Ok ver
    /\ forall f, 1 <= f <= Z.to_nat forecast_steps ->
         exists i x row,
           sample source !! i
           = Some (t0 + Z.of_nat f * dt * 3600000000000)%Z
           /\ values source !! i = Some x
           /\ ver_values ver !! (f - 1) = Some row
           /\ row !! d = Some (map (option_map single) x)
           /\ (Forall (fun v => option_map single v = v) x ->
               row !! d = Some x).
Proof.
  intros Hs Hd source [Hu Hwf] Hg Hgrid Hd0 Hk0 Ht0 Hend.
  eexists. split; [now apply verification_from_series_values|].
  intros f Hf. cbn [ver_values].
  assert (Hin : In (t0 + Z.of_nat f * dt * 3600000000000)%Z (sample source)).
  { replace (t0 + Z.of_nat f * dt * 3600000000000)%Z
      with (T0 + (k0 + Z.of_nat f) * dt * 3600000000000)%Z
      by (subst t0; ring).
    apply Hgrid; [lia|]. subst t0. nia. }
  apply list_elem_of_In, list_elem_of_lookup in Hin as [i Hi].
  destruct (lookup_lt_is_Some_2 (values source) i) as [x Hx].
  { rewrite Hwf. eapply lookup_lt_Some; eauto. }
  destruct (verification_entry single ds source forecast_steps dt d f t0
              Hd0 Hf) as (row & Hrow & Hx').
  rewrite (row_at_present source _ i x) in Hx' by assumption.
  exists i, x, row. repeat split; try assumption.
  intros Hfix. etransitivity; [exact Hx'|]. f_equal.
  exact (map_fixed _ _ Hfix).
Qed.

Lemma verification_from_series_reindex_witness :
  let store :=
    mk_series (mk_da [0; 21600000000000; 43200000000000; 64800000000000]%Z
                 [[Some 1%R]; [Some 2%R]; [Some 3%R]; [Some 4%R]] 1) in
  exists ver,
    verification_from_series single_example store None 2 6 = Ok ver
    /\ forall f, 1 <= f <= Z.to_nat 2 ->
         exists i x row,
           sample (predictors store) !! i
           = Some (21600000000000 + Z.of_nat f * 6 * 3600000000000)%Z
           /\ values (predictors store) !! i = Some x
           /\ ver_values ver !! (f - 1) = Some row
           /\ row !! 1 = Some (map (option_map single_example) x)
           /\ (Forall (fun v => option_map single_example v = v) x ->
               row !! 1 = Some x).
Proof.
  intros store.
  apply (verification_from_series_reindex single_example store None 2 6 0
           64800000000000 21600000000000 1 1); try reflexivity; try lia.
  - split; [|reflexivity]. apply (bool_decide_unpack _). vm_compute. exact I.
  - split; [reflexivity|]. repeat constructor.
  - intros k Hk Hle.
    assert (Hc : (k = 0 \/ k = 1 \/ k = 2 \/ k = 3)%Z) by lia.
    destruct Hc as [->|[->|[->| ->]]]; cbn; tauto.
Defined.




(* ================================================================== *)
(** * The two verification builders *)
(* ================================================================== *)

Lemma date_range_shift (start stop step c : Z) :
  date_range (start + c) (stop + c) step
  = map (fun t => (t + c)%Z) (date_range start stop step).
Proof.
  unfold date_range.
  replace (stop + c <? start + c)%Z with (stop <? start)%Z
    by (destruct (Z.ltb_spec stop start), (Z.ltb_spec (stop + c) (start + c));
        lia).
  destruct (stop <? start)%Z; [reflexivity|].
  replace (stop + c - (start + c))%Z with (stop - start)%Z by lia.
  rewrite map_map. apply map_ext. intros i. lia.
Qed.

Lemma find_label_shift (idx : list Z) (vals : list field) (t c : Z) :
  snd <$> find (fun p : Z * field => Z.eqb (fst p) t)
               (combine (map (fun u => (u - c)%Z) idx) vals)
  = snd <$> find (fun p : Z * field => Z.eqb (fst p) (t + c))
                 (combine idx vals).
Proof.
  revert vals; induction idx as [|u idx IH]; intros [|v vals]; simpl;
    try reflexivity.
  destruct (Z.eqb_spec (u - c) t), (Z.eqb_spec u (t + c)); try lia;
    [reflexivity | apply IH].
Qed.

Lemma NoDup_shift (idx : list Z) (c : Z) :
  NoDup (map (fun u => (u - c)%Z) idx) <-> NoDup idx.
Proof.
  assert (Hinj : Inj eq eq (fun u => (u - c)%Z)) by (intros x y H; lia).
  apply (NoDup_fmap (fun u => (u - c)%Z)).
Qed.

(** The targets of a samples store at [time_step=0] and the predictors of a
    series store that hold the same observations are reindexed alike. *)
Lemma reindex_shift (idx : list Z) (vals : list field) (fsize : nat)
    (target : list Z) (c : Z) :
  reindex (mk_da (map (fun u => (u - c)%Z) idx) vals fsize) target
  = reindex (mk_da idx vals fsize) (map (fun t => (t + c)%Z) target).
Proof.
  unfold reindex. cbn [sample field_size].
  rewrite (bool_decide_ext _ _ (NoDup_shift idx c)).
  destruct (bool_decide (NoDup idx)); [|reflexivity].
  f_equal. rewrite map_map. apply map_ext. intros t.
  unfold sel_label. cbn [sample values]. now rewrite find_label_shift.
Qed.

(** C7: let the validation set, the grid, [forecast_steps] and [dt] be the
    same for both builders, and let the two source stores hold the same
    observations: the targets of the samples store, at [time_step=0] of
    sample time [t - dt], are the predictors of the series store at sample
    time [t].  Then [verification_from_samples] and
    [verification_from_series] return the same thing (the same array, or
    the same exception). *)
Theorem verification_builders_agree (single : R -> R)
    (ds_w : SamplesDataset) (all_w : option SamplesDataset)
    (ds_s : SeriesDataset) (all_s : option SeriesDataset)
    (forecast_steps dt : Z) :
  let src_w := targets (default ds_w all_w) in
  let src_s := predictors (default ds_s all_s) in
  w_sample (sample_predictors ds_w) = sample (predictors ds_s) ->
  w_field_size (sample_predictors ds_w) = field_size (predictors ds_s) ->
  0 < w_time_steps src_w ->
  w_sample src_w = map (fun t => (t - hours dt)%Z) (sample src_s) ->
  map (fun win => nth 0 win (nan_field (w_field_size src_w))) (w_values src_w)
  = values src_s ->
  w_field_size src_w = field_size src_s ->
  verification_from_samples single ds_w all_w forecast_steps dt
  = verification_from_series single ds_s all_s forecast_steps dt.
Proof.
  intros src_w src_s Hval Hsize Hts Hidx Hobs Hfs.
  unfold verification_from_samples, verification_from_series.
  destruct (forecast_steps <? 1)%Z; [reflexivity|].
  destruct (dt <? 1)%Z; [reflexivity|].
  replace (match all_w with
           | Some a => isel_time_step 0 (targets a)
           | None => isel_time_step 0 (targets ds_w)
           end)
    with (isel_time_step 0 src_w) by (now destruct all_w).
  replace (match all_s with Some a => predictors a | None => predictors ds_s end)
    with src_s by (now destruct all_s).
  unfold isel_time_step.
  destruct (Nat.ltb_spec 0 (w_time_steps src_w)); [|lia].
  cbn [mbind result_bind]. rewrite Hval, Hsize, Hidx, Hobs, Hfs.
  f_equal. apply for_fold_ext. intros ver [d date] _.
  f_equal. destruct src_s as [idx vals fsize]. cbn [sample values field_size].
  rewrite reindex_shift, <- date_range_shift. do 2 f_equal.
  unfold hours. ring.
Qed.

Lemma verification_builders_agree_witness :
  let validation := [0; hours 6]%Z in
  let series :=
    mk_series (mk_da [0; hours 6; hours 12]%Z
                 [[Some 1%R]; [Some 2%R]; [Some 3%R]] 1) in
  let windows :=
    mk_wa [hours (-6); 0; hours 6]%Z 1 [[[Some 1%R]]; [[Some 2%R]]; [[Some 3%R]]] 1 in
  verification_from_samples single_example
    (mk_samples (mk_wa validation 1 [[[Some 1%R]]; [[Some 2%R]]] 1)
                (mk_wa validation 1 [[[Some 2%R]]; [[Some 3%R]]] 1))
    (Some (mk_samples windows windows)) 2 6
  = verification_from_series single_example
      (mk_series (mk_da validation [[Some 1%R]; [Some 2%R]] 1))
      (Some series) 2 6.
Proof.
  intros validation series windows.
  apply (verification_builders_agree single_example
           (mk_samples (mk_wa validation 1 [[[Some 1%R]]; [[Some 2%R]]] 1)
                       (mk_wa validation 1 [[[Some 2%R]]; [[Some 3%R]]] 1))
           (Some (mk_samples windows windows))
           (mk_series (mk_da validation [[Some 1%R]; [Some 2%R]] 1))
           (Some series) 2 6); try reflexivity.
  simpl. lia.
Defined.

(* ================================================================== *)
(** * Configuration errors *)
(* ================================================================== *)

Lemma unknown_method (method : string) :
  method <> "mse"%string -> method <> "mae"%string ->
  method <> "rmse"%string -> known_method method = false.
Proof.
  intros H1 H2 H3. unfold known_method. simpl.
  apply String.eqb_neq in H1, H2, H3. now rewrite H1, H2, H3.
Qed.

(** C8: invalid shapes and parameters raise [ValueError] before anything
    is computed or changed.  [insolation] raises when [lat] and [lon] have
    different ranks, or are both 2-d with different shapes, and leaves the
    heap as it was; [verification_from_series] and
    [verification_from_samples] raise when [forecast_steps < 1] or
    [dt < 1]; [forecast_error], [persistence_error], [climo_error] and
    [monthly_climo_error] raise when [method] is not one of ['mse'],
    ['mae'], ['rmse'], whatever the other arguments are. *)
Theorem configuration_errors_raise_first :
  (forall dates lat lon S (h : gmap nat ndarray),
     ndim (h !!! lat) <> ndim (h !!! lon) ->
     insolation dates lat lon S h = (Raise ValueError, h))
  /\ (forall dates lat lon S (h : gmap nat ndarray),
        ndim (h !!! lat) = 2 -> ndim (h !!! lon) = 2 ->
        shape (h !!! lat) <> shape (h !!! lon) ->
        insolation dates lat lon S h = (Raise ValueError, h))
  /\ (forall single ds all_ds forecast_steps dt,
        (forecast_steps < 1 \/ dt < 1)%Z ->
        verification_from_series single ds all_ds forecast_steps dt
        = Raise ValueError)
  /\ (forall single ds all_ds forecast_steps dt,
        (forecast_steps < 1 \/ dt < 1)%Z ->
        verification_from_samples single ds all_ds forecast_steps dt
        = Raise ValueError)
  /\ (forall method,
        method <> "mse"%string -> method <> "mae"%string ->
        method <> "rmse"%string ->
        (forall forecast valid axis,
           forecast_error forecast valid method axis = Raise ValueError)
        /\ (forall predictors valid n_fhour axis,
              persistence_error predictors valid n_fhour method axis
              = Raise ValueError)
        /\ (forall valid n_fhour axis,
              climo_error valid n_fhour method axis = Raise ValueError)
        /\ (forall da val_set n_fhour return_da,
              monthly_climo_error da val_set n_fhour method return_da
              = Raise ValueError)).
Proof.
  repeat split.
  - intros dates lat lon S h H. unfold insolation.
    now destruct (Nat.eqb_spec (ndim (h !!! lat)) (ndim (h !!! lon))).
  - intros dates lat lon S h H1 H2 H. unfold insolation.
    rewrite H1, H2. simpl. now rewrite bool_decide_eq_false_2.
  - intros single ds all_ds forecast_steps dt H.
    unfold verification_from_series.
    destruct (Z.ltb_spec forecast_steps 1); [reflexivity|].
    destruct (Z.ltb_spec dt 1); [reflexivity | lia].
  - intros single ds all_ds forecast_steps dt H.
    unfold verification_from_samples.
    destruct (Z.ltb_spec forecast_steps 1); [reflexivity|].
    destruct (Z.ltb_spec dt 1); [reflexivity | lia].
  - intros. unfold forecast_error. now rewrite unknown_method.
  - intros. unfold persistence_error. now rewrite unknown_method.
  - intros. unfold climo_error. now rewrite unknown_method.
  - intros. unfold monthly_climo_error. now rewrite unknown_method.
Qed.

Lemma configuration_errors_raise_first_witness :
  forecast_error scenario_forecast scenario_valid "mean" None
  = Raise ValueError
  /\ verification_from_series single_example (mk_series (mk_da [] [] 0))
       None 0 6
     = Raise ValueError.
Proof.
  split.
  - apply (proj1 (proj2 (proj2 (proj2 (proj2
             configuration_errors_raise_first))) "mean"%string
             ltac:(discriminate) ltac:(discriminate) ltac:(discriminate))).
  - apply (proj1 (proj2 (proj2 configuration_errors_raise_first))).
    left. lia.
Defined.

(* ================================================================== *)
(** * Broadcasting against axes of length one *)
(* ================================================================== *)

Lemma broadcast_dim_1_l (n : nat) : broadcast_dim 1 n = Ok n.
Proof.
  unfold broadcast_dim. destruct (Nat.eqb_spec 1 n); [now subst | reflexivity].
Qed.

Lemma broadcast_dim_1_r (n : nat) : broadcast_dim n 1 = Ok n.
Proof.
  unfold broadcast_dim. destruct (Nat.eqb_spec n 1); [reflexivity|].
  reflexivity.
Qed.

Lemma broadcast_shapes_ones_l (s : list nat) :
  broadcast_shapes (repeat 1 (length s)) s = Ok s.
Proof.
  induction s as [|n s IH]; simpl; [reflexivity|].
  now rewrite broadcast_dim_1_l, IH.
Qed.

Lemma broadcast_shapes_ones_r (s : list nat) :
  broadcast_shapes s (repeat 1 (length s)) = Ok s.
Proof.
  induction s as [|n s IH]; simpl; [reflexivity|].
  now rewrite broadcast_dim_1_r, IH.
Qed.

Lemma size_of_ones (k : nat) : size_of (repeat 1 k) = 1.
Proof. induction k as [|k IH]; simpl; [reflexivity | now rewrite IH]. Qed.

Lemma broadcast_data_cons (op : float -> float -> float) (n1 n2 : nat)
    (r1 r2 : list nat) (d1 d2 : list float) :
  broadcast_data op (n1 :: r1) (n2 :: r2) d1 d2
  = concat
      (map (fun p => broadcast_data op r1 r2 (fst p) (snd p))
           (if n1 =? n2
            then combine (chunks (size_of r1) n1 d1) (chunks (size_of r2) n2 d2)
            else if n1 =? 1
                 then map (fun y => (d1, y)) (chunks (size_of r2) n2 d2)
                 else map (fun x => (x, d2)) (chunks (size_of r1) n1 d1))).
Proof. reflexivity. Qed.

Lemma map_blocks {A B : Type} (F : list A -> list B) (g : A -> B)
    (k n : nat) (d : list A) :
  (forall c, length c = k -> F c = map g c) ->
  length d = n * k ->
  concat (map F (chunks k n d)) = map g d.
Proof.
  intros HF Hd.
  rewrite <- (concat_chunks k n d) at 2 by assumption.
  rewrite concat_map. f_equal.
  apply map_ext_in. intros c Hc. apply HF.
  pose proof (chunks_lengths k n d Hd) as Hall.
  rewrite List.Forall_forall in Hall. now apply Hall.
Qed.

(** A single value against an array. *)
Lemma broadcast_data_scalar_l (op : float -> float -> float) (x : float)
    (s : list nat) :
  forall d, length d = size_of s ->
    broadcast_data op (repeat 1 (length s)) s [x] d = map (op x) d.
Proof.
  induction s as [|n s IH]; intros d Hd.
  - destruct d as [|y [|? ?]]; try discriminate. reflexivity.
  - change (repeat 1 (length (n :: s))) with (1 :: repeat 1 (length s)).
    change (size_of (n :: s)) with (n * size_of s) in Hd.
    rewrite broadcast_data_cons, size_of_ones.
    replace (if 1 =? n
             then combine (chunks 1 1 [x]) (chunks (size_of s) n d)
             else if 1 =? 1
                  then map (fun y => ([x], y)) (chunks (size_of s) n d)
                  else map (fun x0 => (x0, d)) (chunks 1 1 [x]))
      with (map (fun y => ([x], y)) (chunks (size_of s) n d)).
    + rewrite map_map. cbn [fst snd]. now apply map_blocks.
    + destruct (Nat.eqb_spec 1 n) as [<-|]; reflexivity.
Qed.

Lemma broadcast_data_scalar_r (op : float -> float -> float) (y : float)
    (s : list nat) :
  forall d, length d = size_of s ->
    broadcast_data op s (repeat 1 (length s)) d [y]
    = map (fun x => op x y) d.
Proof.
  induction s as [|n s IH]; intros d Hd.
  - destruct d as [|x [|? ?]]; try discriminate. reflexivity.
  - change (repeat 1 (length (n :: s))) with (1 :: repeat 1 (length s)).
    change (size_of (n :: s)) with (n * size_of s) in Hd.
    rewrite broadcast_data_cons, size_of_ones.
    replace (if n =? 1
             then combine (chunks (size_of s) n d) (chunks 1 1 [y])
             else if n =? 1
                  then map (fun y0 => (d, y0)) (chunks 1 1 [y])
                  else map (fun x => (x, [y])) (chunks (size_of s) n d))
      with (map (fun x => (x, [y])) (chunks (size_of s) n d)).
    + rewrite map_map. cbn [fst snd]. now apply map_blocks.
    + destruct (Nat.eqb_spec n 1) as [->|]; reflexivity.
Qed.

(** An array against one value per block. *)
Lemma broadcast_data_blocks (op : float -> float -> float) (n : nat)
    (s : list nat) (d ys : list float) :
  length d = n * size_of s -> length ys = n ->
  broadcast_data op (n :: s) (n :: repeat 1 (length s)) d ys
  = concat (zip_with (fun c y => map (fun x => op x y) c)
                     (chunks (size_of s) n d) ys).
Proof.
  intros Hd Hy. rewrite broadcast_data_cons, Nat.eqb_refl, size_of_ones.
  rewrite chunks_one by assumption. f_equal.
  pose proof (chunks_lengths (size_of s) n d Hd) as Hall.
  generalize dependent (chunks (size_of s) n d). intros cs Hall.
  clear Hd Hy. revert ys.
  induction Hall as [|c cs Hc _ IHc]; intros [|y ys]; simpl;
    try reflexivity.
  now rewrite IHc, broadcast_data_scalar_r.
Qed.

(** One value per block against an array: the outer product, the values
    varying slowest. *)
Lemma broadcast_data_outer_l (op : float -> float -> float) (n : nat)
    (s : list nat) (xs d : list float) :
  length xs = n -> length d = size_of s ->
  broadcast_data op (n :: repeat 1 (length s)) (1 :: s) xs d
  = flat_map (fun x => map (op x) d) xs.
Proof.
  intros Hx Hd. rewrite broadcast_data_cons, size_of_ones.
  rewrite chunks_one, chunks_single by assumption.
  replace (if n =? 1
           then combine (map (fun x => [x]) xs) [d]
           else if n =? 1
                then map (fun y => (xs, y)) [d]
                else map (fun x => (x, d)) (map (fun x => [x]) xs))
    with (map (fun x => ([x], d)) xs).
  - rewrite map_map. cbn [fst snd]. rewrite flat_map_concat_map. f_equal.
    apply map_ext. intros x. now apply broadcast_data_scalar_l.
  - destruct (Nat.eqb_spec n 1) as [->|]; [|now rewrite map_map].
    destruct xs as [|x [|? ?]]; try discriminate. reflexivity.
Qed.

Lemma broadcast_data_outer_r (op : float -> float -> float) (n : nat)
    (s : list nat) (d ys : list float) :
  length d = size_of s -> length ys = n ->
  broadcast_data op (1 :: s) (n :: repeat 1 (length s)) d ys
  = flat_map (fun y => map (fun x => op x y) d) ys.
Proof.
  intros Hd Hy. rewrite broadcast_data_cons, size_of_ones.
  rewrite chunks_one, chunks_single by assumption.
  replace (if 1 =? n
           then combine [d] (map (fun y => [y]) ys)
           else if 1 =? 1
                then map (fun y => (d, y)) (map (fun y => [y]) ys)
                else map (fun x => (x, ys)) [d])
    with (map (fun y => (d, [y])) ys).
  - rewrite map_map. cbn [fst snd]. rewrite flat_map_concat_map. f_equal.
    apply map_ext. intros y. now apply broadcast_data_scalar_r.
  - destruct (Nat.eqb_spec 1 n) as [<-|]; [|now rewrite map_map].
    destruct ys as [|y [|? ?]]; try discriminate. reflexivity.
Qed.

(* ================================================================== *)
(** * Insolation, element by element *)
(* ================================================================== *)

Lemma np_binop_outer_l (op : float -> float -> float) (n : nat)
    (s : list nat) (xs d : list float) :
  length xs = n -> length d = size_of s ->
  np_binop op (mk_array (n :: repeat 1 (length s)) xs) (mk_array s d)
  = Ok (mk_array (n :: s) (flat_map (fun x => map (op x) d) xs)).
Proof.
  intros Hx Hd. unfold np_binop, ndim, pad_shape. cbn [shape data length].
  rewrite repeat_length.
  replace (S (length s) `max` length s) with (S (length s)) by lia.
  rewrite Nat.sub_diag.
  replace (S (length s) - length s) with 1 by lia.
  cbn [repeat app broadcast_shapes].
  rewrite broadcast_dim_1_r, broadcast_shapes_ones_l.
  now rewrite broadcast_data_outer_l.
Qed.

Lemma np_binop_outer_r (op : float -> float -> float) (n : nat)
    (s : list nat) (d ys : list float) :
  length d = size_of s -> length ys = n ->
  np_binop op (mk_array (1 :: s) d) (mk_array (n :: repeat 1 (length s)) ys)
  = Ok (mk_array (n :: s) (flat_map (fun y => map (fun x => op x y) d) ys)).
Proof.
  intros Hd Hy. unfold np_binop, ndim, pad_shape. cbn [shape data length].
  rewrite repeat_length, Nat.max_id, Nat.sub_diag.
  cbn [repeat app broadcast_shapes].
  rewrite broadcast_dim_1_l, broadcast_shapes_ones_r.
  now rewrite broadcast_data_outer_r.
Qed.

Lemma np_binop_blocks (op : float -> float -> float) (n : nat)
    (s : list nat) (d ys : list float) :
  length d = n * size_of s -> length ys = n ->
  np_binop op (mk_array (n :: s) d) (mk_array (n :: repeat 1 (length s)) ys)
  = Ok (mk_array (n :: s)
          (concat (zip_with (fun c y => map (fun x => op x y) c)
                            (chunks (size_of s) n d) ys))).
Proof.
  intros Hd Hy. unfold np_binop, ndim, pad_shape. cbn [shape data length].
  rewrite repeat_length, Nat.max_id, Nat.sub_diag.
  cbn [repeat app broadcast_shapes]. unfold broadcast_dim.
  rewrite Nat.eqb_refl, broadcast_shapes_ones_r.
  now rewrite broadcast_data_blocks.
Qed.

Lemma map_flat_map {A B C : Type} (g : B -> C) (F : A -> list B)
    (T : list A) :
  map g (flat_map F T) = flat_map (fun t => map g (F t)) T.
Proof.
  induction T as [|t T IH]; simpl; [reflexivity|].
  now rewrite map_app, IH.
Qed.

Lemma flat_map_map {A B C : Type} (F : B -> list C) (h : A -> B)
    (T : list A) :
  flat_map F (map h T) = flat_map (fun t => F (h t)) T.
Proof.
  induction T as [|t T IH]; simpl; [reflexivity | now rewrite IH].
Qed.

Lemma zip_with_flat_map {A B C D : Type} (f : B -> C -> D)
    (F : A -> list B) (G : A -> list C) (T : list A) :
  (forall t, length (F t) = length (G t)) ->
  zip_with f (flat_map F T) (flat_map G T)
  = flat_map (fun t => zip_with f (F t) (G t)) T.
Proof.
  intros H. induction T as [|t T IH]; simpl; [reflexivity|].
  now rewrite zip_with_app, IH.
Qed.

Lemma length_flat_map_const {A B : Type} (F : A -> list B) (T : list A)
    (k : nat) :
  (forall t, length (F t) = k) -> length (flat_map F T) = length T * k.
Proof.
  intros H. induction T as [|t T IH]; simpl; [reflexivity|].
  rewrite length_app, IH, H. lia.
Qed.

Lemma blocks_flat_map {A B C D : Type} (g : list B -> C -> list D)
    (F : A -> list B) (h : A -> C) (T : list A) (k : nat) :
  (forall t, length (F t) = k) ->
  concat (zip_with g (chunks k (length T) (flat_map F T)) (map h T))
  = flat_map (fun t => g (F t) (h t)) T.
Proof.
  intros H. induction T as [|t T IH]; simpl; [reflexivity|].
  rewrite take_app_length' by (symmetry; apply H).
  rewrite drop_app_length' by (symmetry; apply H).
  now rewrite IH.
Qed.

Lemma flat_map_ext_all {A B : Type} (F G : A -> list B) (T : list A) :
  (forall t, F t = G t) -> flat_map F T = flat_map G T.
Proof.
  intros H. induction T as [|t T IH]; simpl; [reflexivity|].
  now rewrite H, IH.
Qed.

Lemma imul_read (b : binding) (c : R) (h : gmap nat ndarray) :
  read (snd (imul b c h)) (fst (imul b c h))
  = np_map (lift1 (fun r => r * c)%R) (read h b).
Proof.
  destruct b as [l|a]; simpl; [|reflexivity].
  now rewrite lookup_total_insert_eq.
Qed.

(** The result of [insolation] on a grid of shape [(a, b)]: one block of
    [a * b] values per date, each value being [sol_at] of the date and of
    the latitude and longitude at that position of the grid. *)
Lemma insolation_grid_value (dates : list Z) (lat_b lon_b : binding)
    (S : float) (h : gmap nat ndarray) (a b : nat) :
  shape (read h lat_b) = [a; b] -> shape (read h lon_b) = [a; b] ->
  length (data (read h lat_b)) = a * b ->
  length (data (read h lon_b)) = a * b ->
  insolation_grid dates lat_b lon_b S h
  = (Ok (mk_array [length dates; a; b]
           (flat_map (fun t =>
                        zip_with (sol_at S (day_of_year t))
                                 (data (read h lat_b)) (data (read h lon_b)))
                     dates)),
     snd (imul lat_b (PI / 180) h)).
Proof.
  intros Hslat Hslon Hlat Hlon. unfold insolation_grid.
  pose proof (imul_read lat_b (PI / 180) h) as Hread.
  destruct (imul lat_b (PI / 180) h) as [lat_b' h'] eqn:Eimul.
  cbn [fst snd] in Hread.
  unfold np_add, np_mul, np_sub, expand_back2, expand_front, np_map.
  rewrite Hread. unfold np_map.
  cbn [shape data app]. rewrite Hslat, Hslon.
  change [1; 1] with (repeat 1 (length [a; b])).
  assert (Hsz : size_of [a; b] = a * b) by (simpl; lia).
  rewrite np_binop_outer_l
    by (rewrite ?length_map; try reflexivity; lia).
  cbn [mbind result_bind shape data].
  rewrite np_binop_outer_r
    by (rewrite ?length_map; try reflexivity; lia).
  cbn [mbind result_bind shape data].
  rewrite np_binop_outer_r
    by (rewrite ?length_map; try reflexivity; lia).
  cbn [mbind result_bind shape data].
  rewrite !map_map, !flat_map_map, !map_flat_map.
  assert (Hlen : forall F : Z -> list float,
            (forall t, length (F t) = a * b) ->
            length (flat_map F dates) = size_of [length dates; a; b]).
  { intros F HF. rewrite (length_flat_map_const F dates (a * b) HF).
    simpl. lia. }
  unfold np_sub, np_mul.
  rewrite np_binop_same_shape
    by (apply Hlen; intros; rewrite ?length_map; assumption).
  cbn [mbind result_bind shape data].
  rewrite zip_with_flat_map by (intros; rewrite !length_map; lia).
  rewrite np_binop_same_shape
    by (apply Hlen; intros; rewrite ?length_zip_with, ?length_map; lia).
  cbn [mbind result_bind shape data].
  rewrite zip_with_flat_map
    by (intros; rewrite ?length_zip_with, ?length_map; lia).
  rewrite map_flat_map.
  rewrite np_binop_blocks.
  2:{ rewrite Hsz. apply length_flat_map_const. intros.
      rewrite ?length_map, ?length_zip_with, ?length_map. lia. }
  2:{ now rewrite length_map. }
  cbn [mbind result_bind shape data].
  rewrite Hsz, blocks_flat_map
    by (intros; rewrite ?length_map, ?length_zip_with, ?length_map; lia).
  rewrite map_flat_map.
  do 3 f_equal. apply flat_map_ext_all. intros t.
  assert (Hl : length (data (read h lat_b)) = length (data (read h lon_b)))
    by lia.
  revert Hl. generalize (data (read h lat_b)) (data (read h lon_b)).
  intros lats; induction lats as [|p lats IH]; intros [|l lons] Hl;
    simpl in *; try discriminate; [reflexivity|].
  f_equal. apply IH. lia.
Qed.

Lemma insolation_2d (dates : list Z) (lat lon : nat) (S : float)
    (h : gmap nat ndarray) (a b : nat) :
  shape (h !!! lat) = [a; b] -> shape (h !!! lon) = [a; b] ->
  wf_array (h !!! lat) -> wf_array (h !!! lon) ->
  insolation dates lat lon S h
  = (Ok (mk_array [length dates; a; b]
           (flat_map (fun t =>
                        zip_with (sol_at S (day_of_year t))
                                 (data (h !!! lat)) (data (h !!! lon)))
                     dates)),
     <[lat := scale_lat (h !!! lat)]> h).
Proof.
  intros Hlat Hlon Wlat Wlon. unfold insolation, ndim.
  rewrite Hlat, Hlon. cbn [length Nat.eqb negb andb].
  rewrite bool_decide_eq_true_2 by reflexivity. cbn [negb].
  unfold wf_array in *. rewrite Hlat in Wlat. rewrite Hlon in Wlon.
  rewrite (insolation_grid_value dates (Shared lat) (Shared lon) S h a b);
    try assumption; try (cbn [read size_of fold_right] in *; lia).
  reflexivity.
Qed.

Lemma length_concat_repeat {A : Type} (l : list A) (n : nat) :
  length (concat (repeat l n)) = n * length l.
Proof.
  induction n as [|n IH]; simpl; [reflexivity|].
  rewrite length_app, IH. lia.
Qed.

Lemma insolation_1d (dates : list Z) (lat lon : nat) (S : float)
    (h : gmap nat ndarray) (ny nx : nat) :
  shape (h !!! lat) = [ny] -> shape (h !!! lon) = [nx] ->
  wf_array (h !!! lat) -> wf_array (h !!! lon) ->
  insolation dates lat lon S h
  = (Ok (mk_array [length dates; ny; nx]
           (flat_map (fun t =>
                        zip_with (sol_at S (day_of_year t))
                                 (flat_map (fun v => repeat v nx)
                                           (data (h !!! lat)))
                                 (concat (repeat (data (h !!! lon)) ny)))
                     dates)),
     h).
Proof.
  intros Hlat Hlon Wlat Wlon. unfold insolation, ndim.
  rewrite Hlat, Hlon. cbn [length Nat.eqb negb andb].
  unfold wf_array in *. rewrite Hlat in Wlat. rewrite Hlon in Wlon.
  cbn [size_of fold_right] in Wlat, Wlon.
  unfold meshgrid. rewrite Wlat, Wlon, !Nat.mul_1_r.
  rewrite (insolation_grid_value dates _ _ S h ny nx); try reflexivity.
  - cbn [read data].
    rewrite (length_flat_map_const _ _ nx) by (intros; apply repeat_length).
    lia.
  - cbn [read data]. rewrite length_concat_repeat. lia.
Qed.

(* ================================================================== *)
(** * The latitude array after the call *)
(* ================================================================== *)

Lemma hour_angle_broadcasts (n a b : nat) (d1 d2 : list float) :
  exists d,
    np_add (mk_array [n; 1; 1] d1) (mk_array [a; b] d2)
    = Ok (mk_array [n; a; b] d).
Proof.
  unfold np_add, np_binop, ndim, pad_shape. cbn [shape data length].
  cbn [Nat.max Nat.sub repeat app broadcast_shapes].
  rewrite broadcast_dim_1_r, !broadcast_dim_1_l. eexists. reflexivity.
Qed.

Lemma insolation_heap_2d (dates : list Z) (lat lon : nat) (S : float)
    (h : gmap nat ndarray) :
  ndim (h !!! lat) = 2 -> shape (h !!! lon) = shape (h !!! lat) ->
  snd (insolation dates lat lon S h) = <[lat := scale_lat (h !!! lat)]> h.
Proof.
  intros Hr Hs. unfold insolation, ndim in *. rewrite Hs, Hr.
  rewrite Nat.eqb_refl. cbn [negb Nat.eqb andb].
  rewrite bool_decide_eq_true_2 by reflexivity. cbn [negb].
  unfold insolation_grid, expand_back2, np_map. cbn [shape data app read].
  rewrite Hs.
  destruct (shape (h !!! lat)) as [|a [|b [|? ?]]]; try discriminate.
  destruct (hour_angle_broadcasts (length dates) a b
              (map (fun t => Some (day_of_year t)) dates)
              (map (lift1 (fun r => r / 360)%R) (data (h !!! lon))))
    as [d ->].
  reflexivity.
Qed.

Lemma insolation_heap_1d (dates : list Z) (lat lon : nat) (S : float)
    (h : gmap nat ndarray) :
  ndim (h !!! lat) = 1 -> snd (insolation dates lat lon S h) = h.
Proof.
  intros Hr. unfold insolation. rewrite Hr.
  destruct (1 =? ndim (h !!! lon)); [|reflexivity].
  cbn [negb Nat.eqb andb]. unfold meshgrid, insolation_grid.
  destruct (np_add _ _); reflexivity.
Qed.

Lemma scaled_differs (r : R) : r <> 0%R -> (r * (PI / 180))%R <> r.
Proof.
  intros Hr E. pose proof PI_4. apply Hr.
  assert (r * (1 - PI / 180) = 0)%R by lra.
  apply Rmult_integral in H0 as [|]; [assumption | lra].
Qed.

(** C10: called with a 2-d [lat] (and a [lon] of the same shape),
    [insolation] leaves in the caller's heap, in place of [lat], the array
    with every element multiplied by [pi / 180]; every element that was
    not zero has changed.  Called with a 1-d [lat], it leaves the heap as
    it was: the scaling is applied to the array that [meshgrid] built. *)
Theorem insolation_scales_lat_in_place (dates : list Z) (lat lon : nat)
    (S : float) (h : gmap nat ndarray) :
  (ndim (h !!! lat) = 2 -> shape (h !!! lon) = shape (h !!! lat) ->
   let h' := snd (insolation dates lat lon S h) in
   h' = <[lat := scale_lat (h !!! lat)]> h
   /\ shape (h' !!! lat) = shape (h !!! lat)
   /\ forall i r,
        data (h !!! lat) !! i = Some (Some r) ->
        data (h' !!! lat) !! i = Some (Some (r * (PI / 180))%R)
        /\ (r <> 0%R -> (r * (PI / 180))%R <> r))
  /\ (ndim (h !!! lat) = 1 -> snd (insolation dates lat lon S h) = h).
Proof.
  split.
  - intros Hr Hs h'. unfold h'. rewrite insolation_heap_2d by assumption.
    rewrite lookup_total_insert_eq. split; [reflexivity|].
    split; [reflexivity|].
    intros i r Hi. split; [|apply scaled_differs].
    unfold scale_lat, np_map. cbn [data].
    apply list_lookup_fmap_Some. exists (Some r). now split.
  - apply insolation_heap_1d.
Qed.

Lemma insolation_scales_lat_in_place_witness :
  let grid := mk_array [1; 2] [Some 45%R; Some 90%R] in
  let h : gmap nat ndarray := {[ 0 := grid ]} in
  snd (insolation [0%Z] 0 0 (Some 1%R) h) = {[ 0 := scale_lat grid ]}.
Proof.
  intros grid h.
  destruct (insolation_scales_lat_in_place [0%Z] 0 0 (Some 1%R) h)
    as [H2 _].
  destruct (H2 eq_refl eq_refl) as [-> _].
  unfold h. rewrite lookup_total_singleton_eq. apply insert_singleton_eq.
Defined.

(* ================================================================== *)
(** * Bounds on the insolation *)
(* ================================================================== *)

Section Orbit.
Local Open Scope R_scope.

Lemma PI_bounds : 3 < PI <= 4.
Proof. pose proof PI2_3_2. pose proof PI_4. lra. Qed.

Lemma ecc_value : ecc = 0.016715.
Proof. reflexivity. Qed.

Lemma rho_denominator (d : R) :
  1 - ecc <= 1 + ecc * cos (lambda_ d - om) <= 1 + ecc.
Proof.
  pose proof (COS_bound (lambda_ d - om)). rewrite ecc_value. lra.
Qed.

Lemma rho_lower (d : R) : 1 - ecc <= rho d.
Proof.
  pose proof (rho_denominator d) as HD. unfold rho.
  set (D := 1 + ecc * cos (lambda_ d - om)) in *.
  rewrite ecc_value in *.
  apply Rmult_le_reg_r with D; [lra|].
  replace ((1 - 0.016715 ^ 2) / D * D) with (1 - 0.016715 ^ 2)
    by (field; lra).
  nra.
Qed.

Lemma inv_rho_sq_bounds (d : R) :
  0 < / (rho d ^ 2) <= / ((1 - ecc) ^ 2).
Proof.
  pose proof (rho_lower d) as H. rewrite ecc_value in *.
  assert (0 < (1 - 0.016715) ^ 2) by nra.
  assert ((1 - 0.016715) ^ 2 <= rho d ^ 2) by nra.
  split.
  - apply Rinv_0_lt_compat. lra.
  - apply Rinv_le_contravar; lra.
Qed.

(** The cosine of the zenith angle is between -1 and 1. *)
Lemma geometry_bounds (p q t : R) :
  -1 <= sin p * sin q - cos p * cos q * cos t <= 1.
Proof.
  pose proof (sin2_cos2 p) as Hp. pose proof (sin2_cos2 q) as Hq.
  pose proof (COS_bound t) as Ht.
  pose proof (Rle_0_sqr (sin p - sin q)) as H1.
  pose proof (Rle_0_sqr (sin p + sin q)) as H2.
  unfold Rsqr in *.
  assert (0 <= (1 + cos t) * ((cos p + cos q) * (cos p + cos q)))
    by (apply Rmult_le_pos; [lra | apply Rle_0_sqr]).
  assert (0 <= (1 - cos t) * ((cos p - cos q) * (cos p - cos q)))
    by (apply Rmult_le_pos; [lra | apply Rle_0_sqr]).
  assert (0 <= (1 - cos t) * ((cos p + cos q) * (cos p + cos q)))
    by (apply Rmult_le_pos; [lra | apply Rle_0_sqr]).
  assert (0 <= (1 + cos t) * ((cos p - cos q) * (cos p - cos q)))
    by (apply Rmult_le_pos; [lra | apply Rle_0_sqr]).
  lra.
Qed.

Lemma declination_defined (d : R) :
  farcsin (Some (sin eps * sin (lambda_ d)))
  = Some (asin (sin eps * sin (lambda_ d))).
Proof.
  unfold farcsin.
  destruct (Rlt_dec 1 (Rabs (sin eps * sin (lambda_ d)))) as [H|];
    [|reflexivity].
  exfalso. pose proof (SIN_bound eps). pose proof (SIN_bound (lambda_ d)).
  revert H. unfold Rabs. destruct (Rcase_abs _); nra.
Qed.

(** One element of the result, for a scale, a latitude and a longitude that
    are not NaN. *)
Lemma sol_at_bounds (s day p l : R) :
  exists r, sol_at (Some s) day (Some p) (Some l) = Some r
            /\ 0 <= r <= Rabs s / (1 - ecc) ^ 2.
Proof.
  unfold sol_at. rewrite declination_defined.
  cbn [lift1 fadd lift2 fsin fcos fmul fsub finvsquare clamp_negative].
  set (g := sin (p * (PI / 180)) * sin (asin (sin eps * sin (lambda_ day)))
            - cos (p * (PI / 180)) * cos (asin (sin eps * sin (lambda_ day)))
              * cos (2 * PI * (day + l / 360))).
  pose proof (geometry_bounds (p * (PI / 180))
                (asin (sin eps * sin (lambda_ day)))
                (2 * PI * (day + l / 360))) as Hg. fold g in Hg.
  pose proof (inv_rho_sq_bounds day) as [Hi1 Hi2].
  set (i := / (rho day ^ 2)) in *. set (k := / ((1 - ecc) ^ 2)) in *.
  assert (Hk : Rabs s / (1 - ecc) ^ 2 = Rabs s * k) by reflexivity.
  rewrite Hk.
  assert (Ha : 0 <= Rabs s) by apply Rabs_pos.
  assert (Hsg : s * g <= Rabs s).
  { unfold Rabs in *. destruct (Rcase_abs s); nra. }
  destruct (Rlt_dec (s * g * i) 0) as [Hneg|Hpos]; eexists; split;
    try reflexivity.
  - nra.
  - assert (s * g * i <= Rabs s * i) by nra.
    nra.
Qed.
End Orbit.

Lemma Forall_grid {A B C : Type} (P : C -> Prop) (f : A -> B -> C)
    (Q1 : A -> Prop) (Q2 : B -> Prop) (l1 : list A) (l2 : list B) :
  (forall x y, Q1 x -> Q2 y -> P (f x y)) ->
  List.Forall Q1 l1 -> List.Forall Q2 l2 -> List.Forall P (zip_with f l1 l2).
Proof.
  intros H H1. revert l2. induction H1 as [|x l1 Hx _ IH]; intros l2 H2.
  - constructor.
  - destruct H2 as [|y l2 Hy H2]; simpl; constructor; auto.
Qed.

Lemma Forall_flat_map_all {A B : Type} (P : B -> Prop) (F : A -> list B)
    (T : list A) :
  (forall t, List.Forall P (F t)) -> List.Forall P (flat_map F T).
Proof.
  intros H. induction T as [|t T IH]; simpl; [constructor|].
  apply List.Forall_app. split; [apply H | exact IH].
Qed.

Lemma Forall_meshgrid_rows {A : Type} (P : A -> Prop) (l : list A) (n : nat) :
  List.Forall P l -> List.Forall P (flat_map (fun v => repeat v n) l).
Proof.
  intros H. induction H as [|x l Hx _ IH]; simpl; [constructor|].
  apply List.Forall_app. split; [|exact IH].
  clear IH. induction n; simpl; constructor; auto.
Qed.

Lemma Forall_meshgrid_columns {A : Type} (P : A -> Prop) (l : list A)
    (n : nat) :
  List.Forall P l -> List.Forall P (concat (repeat l n)).
Proof.
  intros H. induction n as [|n IH]; simpl; [constructor|].
  apply List.Forall_app. now split.
Qed.

(* ================================================================== *)
(** * The insolation at the March equinox *)
(* ================================================================== *)

Section Equinox.
Local Open Scope R_scope.

Lemma Rabs_le_bounds (a b : R) : Rabs a <= b -> - b <= a <= b.
Proof. unfold Rabs. destruct (Rcase_abs a); lra. Qed.

Lemma sin_abs_le (x : R) : Rabs (sin x) <= Rabs x.
Proof.
  assert (Hpos : forall y, 0 <= y -> - y <= sin y <= y).
  { intros y Hy. destruct (Req_dec y 0) as [->|Hne].
    - rewrite sin_0. lra.
    - pose proof (sin_lt_x y ltac:(lra)). pose proof (SIN_bound y).
      destruct (Rle_dec y 1).
      + pose proof PI_bounds. pose proof (sin_ge_0 y ltac:(lra) ltac:(lra)).
        lra.
      + lra. }
  unfold Rabs. destruct (Rcase_abs x) as [Hx|Hx].
  - pose proof (Hpos (- x) ltac:(lra)) as H. rewrite sin_neg in H.
    destruct (Rcase_abs (sin x)); lra.
  - pose proof (Hpos x ltac:(lra)). destruct (Rcase_abs (sin x)); lra.
Qed.

Lemma beta_bounds : 0 <= beta <= 1.
Proof.
  unfold beta. split; [apply sqrt_pos|].
  rewrite <- sqrt_1 at 2. apply sqrt_le_1_alt. rewrite ecc_value. lra.
Qed.

Lemma lambda_m0_bounds : - 0.03343 <= lambda_m0 <= 0.03343.
Proof.
  unfold lambda_m0. pose proof beta_bounds. pose proof (SIN_bound om).
  rewrite ecc_value. nra.
Qed.

Lemma lambda_equinox_bounds : - 0.06686 <= lambda_ 80.5 <= 0.06686.
Proof.
  unfold lambda_, lambda_m.
  replace (lambda_m0 + 2 * PI * (80.5 - 80.5) / 365) with lambda_m0 by lra.
  pose proof lambda_m0_bounds. pose proof (SIN_bound (lambda_m0 - om)).
  rewrite ecc_value. nra.
Qed.

Lemma eps_bounds : 0 < eps <= 0.521.
Proof. unfold eps. pose proof PI_bounds. lra. Qed.

(** The sine of the declination at the equinox is small. *)
Lemma sin_dec_equinox :
  Rabs (sin eps * sin (lambda_ 80.5)) <= 0.03484.
Proof.
  pose proof (sin_abs_le eps) as H1.
  pose proof (sin_abs_le (lambda_ 80.5)) as H2.
  pose proof eps_bounds. pose proof lambda_equinox_bounds.
  rewrite Rabs_mult.
  assert (Rabs eps <= 0.521) by (rewrite Rabs_pos_eq; lra).
  assert (Rabs (lambda_ 80.5) <= 0.06686) by (apply Rabs_le; lra).
  pose proof (Rabs_pos (sin eps)). pose proof (Rabs_pos (sin (lambda_ 80.5))).
  nra.
Qed.

Lemma sqrt_ge_self (u : R) : 0 <= u <= 1 -> u <= sqrt u.
Proof.
  intros Hu. pose proof (sqrt_pos u). pose proof (sqrt_sqrt u ltac:(lra)).
  assert (sqrt u <= 1) by (rewrite <- sqrt_1; apply sqrt_le_1_alt; lra).
  nra.
Qed.

Lemma cos_dec_equinox :
  0.9987 <= cos (asin (sin eps * sin (lambda_ 80.5))).
Proof.
  pose proof sin_dec_equinox as H. apply Rabs_le_bounds in H.
  rewrite cos_asin by lra.
  set (s := sin eps * sin (lambda_ 80.5)) in *.
  assert (0 <= s * s <= 0.0013).
  { split; [nra|]. destruct (Rle_dec 0 s); nra. }
  apply Rle_trans with (1 - s²); [unfold Rsqr; lra|].
  apply sqrt_ge_self. unfold Rsqr. lra.
Qed.

(** [om] is 12.7 degrees past three quarters of a turn. *)
Lemma cos_om_lower : 0.2 <= cos om.
Proof.
  pose proof PI_bounds as HPI.
  set (x := 12.7 * PI / 180).
  assert (Hx : 0.2116 <= x <= 0.2823) by (unfold x; lra).
  assert (E : cos om = sin x).
  { rewrite <- (cos_shift x), <- (cos_neg (PI / 2 - x)).
    rewrite <- (cos_period (- (PI / 2 - x)) 1). f_equal.
    unfold om, x. simpl INR. lra. }
  rewrite E.
  pose proof (sin_bound x 0 ltac:(lra) ltac:(lra)) as [Hlo _].
  unfold sin_approx, sin_term in Hlo. simpl in Hlo.
  assert (0.2 <= x - x * x * x / 6) by nra.
  lra.
Qed.

Lemma cos_lambda_equinox : 0.9955 <= cos (lambda_ 80.5).
Proof.
  pose proof lambda_equinox_bounds as Hl. pose proof PI_bounds.
  pose proof (cos_ge_0 (lambda_ 80.5) ltac:(lra) ltac:(lra)) as Hc.
  pose proof (COS_bound (lambda_ 80.5)).
  pose proof (sin2_cos2 (lambda_ 80.5)) as Hs. unfold Rsqr in Hs.
  pose proof (sin_abs_le (lambda_ 80.5)) as Ha.
  assert (Rabs (lambda_ 80.5) <= 0.06686) by (apply Rabs_le; lra).
  apply Rabs_le_bounds in Ha.
  set (c := cos (lambda_ 80.5)) in *. set (t := sin (lambda_ 80.5)) in *.
  assert (t * t <= 0.0045) by (destruct (Rle_dec 0 t); nra).
  nra.
Qed.

Lemma cos_anomaly_equinox : 0.13 <= cos (lambda_ 80.5 - om).
Proof.
  rewrite cos_minus.
  pose proof cos_lambda_equinox. pose proof cos_om_lower.
  pose proof (COS_bound (lambda_ 80.5)). pose proof (COS_bound om).
  pose proof (SIN_bound om) as Hso.
  pose proof (sin_abs_le (lambda_ 80.5)) as Ha.
  pose proof lambda_equinox_bounds.
  assert (Rabs (lambda_ 80.5) <= 0.06686) by (apply Rabs_le; lra).
  apply Rabs_le_bounds in Ha.
  set (t := sin (lambda_ 80.5)) in *. set (w := sin om) in *.
  assert (- 0.06686 <= t * w).
  { destruct (Rle_dec 0 t), (Rle_dec 0 w); nra. }
  nra.
Qed.

(** At the equinox the earth is nearer to the sun than the mean
    distance. *)
Lemma inv_rho_sq_equinox : 1.0043 <= / (rho 80.5 ^ 2).
Proof.
  pose proof cos_anomaly_equinox as Hc.
  pose proof (COS_bound (lambda_ 80.5 - om)).
  unfold rho. set (c := cos (lambda_ 80.5 - om)) in *.
  rewrite ecc_value.
  replace (/ ((1 - 0.016715 ^ 2) / (1 + 0.016715 * c)) ^ 2)
    with (((1 + 0.016715 * c) / (1 - 0.016715 ^ 2)) ^ 2) by (field; lra).
  assert (1.00217 <= (1 + 0.016715 * c) / (1 - 0.016715 ^ 2)).
  { apply Rmult_le_reg_r with (1 - 0.016715 ^ 2); [lra|].
    replace ((1 + 0.016715 * c) / (1 - 0.016715 ^ 2) * (1 - 0.016715 ^ 2))
      with (1 + 0.016715 * c) by (field; lra).
    lra. }
  nra.
Qed.

Lemma cos_hour_angle_noon : cos (2 * PI * (80.5 + 0 / 360)) = -1.
Proof.
  replace (2 * PI * (80.5 + 0 / 360)) with (PI + 2 * INR 80 * PI)
    by (replace (INR 80) with 80 by (simpl; lra); lra).
  rewrite cos_period. apply cos_PI.
Qed.

(** On the equator, at the equinox and at local noon, the insolation is
    above the scale. *)
Lemma sol_at_equinox_noon :
  exists r, sol_at (Some 1) 80.5 (Some 0) (Some 0) = Some r /\ 1 < r.
Proof.
  unfold sol_at. rewrite declination_defined.
  cbn [lift1 fadd lift2 fsin fcos fmul fsub finvsquare clamp_negative].
  rewrite cos_hour_angle_noon.
  replace (0 * (PI / 180)) with 0 by lra. rewrite sin_0, cos_0.
  pose proof cos_dec_equinox. pose proof inv_rho_sq_equinox.
  set (cd := cos (asin (sin eps * sin (lambda_ 80.5)))) in *.
  set (sd := sin (asin (sin eps * sin (lambda_ 80.5)))) in *.
  set (i := / (rho 80.5 ^ 2)) in *.
  assert (1 < 1 * (0 * sd - 1 * cd * -1) * i) by nra.
  destruct (Rlt_dec (1 * (0 * sd - 1 * cd * -1) * i) 0); [lra|].
  eexists. split; [reflexivity | assumption].
Qed.
End Equinox.

Lemma day_of_year_equinox_noon :
  day_of_year (Timestamp 1995 3 22 + 12 * hour_ns) = 80.5%R.
Proof.
  unfold day_of_year.
  replace (Timestamp 1995 3 22 + 12 * hour_ns
           - Timestamp (year (Timestamp 1995 3 22 + 12 * hour_ns)) 1 1)%Z
    with 6955200000000000%Z by (vm_compute; reflexivity).
  unfold second_ns. lra.
Qed.

(** C2, as stated, fails: with the scale [S = 1], on 22 March (1995) at
    12:00, at latitude 0 and longitude 0, [insolation] returns a value
    above 1, hence above [S]. *)
Lemma insolation_exceeds_scale :
  let h : gmap nat ndarray :=
    {[ 0 := mk_array [1] [Some 0%R]; 1 := mk_array [1] [Some 0%R] ]} in
  exists r,
    fst (insolation [(Timestamp 1995 3 22 + 12 * hour_ns)%Z] 0 1 (Some 1%R) h)
    = Ok (mk_array [1; 1; 1] [Some r])
    /\ (1 < r)%R.
Proof.
  intros h.
  destruct sol_at_equinox_noon as (r & Hr & Hlt).
  exists r. split; [|exact Hlt].
  rewrite (insolation_1d _ 0 1 (Some 1%R) h 1 1); try reflexivity.
  cbn [fst length]. do 2 f_equal.
  change (data (h !!! 0)) with [Some 0%R].
  change (data (h !!! 1)) with [Some 0%R].
  cbn [flat_map repeat concat zip_with app].
  now rewrite day_of_year_equinox_noon, Hr.
Qed.

Lemma sol_grid_bounds (s : R) (dates : list Z) (lats lons : list float) :
  List.Forall is_Some lats -> List.Forall is_Some lons ->
  List.Forall
    (fun x => exists r, x = Some r /\ (0 <= r <= Rabs s / (1 - ecc) ^ 2)%R)
    (flat_map (fun t => zip_with (sol_at (Some s) (day_of_year t)) lats lons)
              dates).
Proof.
  intros Hlat Hlon. apply Forall_flat_map_all. intros t.
  apply (Forall_grid _ _ is_Some is_Some); try assumption.
  intros x y [p ->] [l ->]. apply sol_at_bounds.
Qed.

(** C2, amended: for a scale [S], latitudes and longitudes without NaN, the
    latitudes and longitudes being 1-d, or 2-d of one shape, [insolation]
    returns an array whose every element is at least 0 and at most
    [|S| / (1 - ecc)^2], where [ecc = 0.016715] is the eccentricity used
    by the code; the bound [S] itself is exceeded when the earth is nearer
    to the sun than the mean distance. *)
Theorem insolation_bounds (dates : list Z) (lat lon : nat) (s : R)
    (h : gmap nat ndarray) :
  wf_array (h !!! lat) -> wf_array (h !!! lon) ->
  List.Forall is_Some (data (h !!! lat)) ->
  List.Forall is_Some (data (h !!! lon)) ->
  (ndim (h !!! lat) = 1 /\ ndim (h !!! lon) = 1)
  \/ (ndim (h !!! lat) = 2 /\ shape (h !!! lon) = shape (h !!! lat)) ->
  exists sol,
    fst (insolation dates lat lon (Some s) h) = Ok sol
    /\ List.Forall
         (fun x => exists r, x = Some r /\ (0 <= r <= Rabs s / (1 - ecc) ^ 2)%R)
         (data sol).
Proof.
  intros Wlat Wlon Flat Flon [[R1 R2]|[R1 R2]]; unfold ndim in *.
  - destruct (shape (h !!! lat)) as [|ny [|? ?]] eqn:Elat; try discriminate.
    destruct (shape (h !!! lon)) as [|nx [|? ?]] eqn:Elon; try discriminate.
    rewrite (insolation_1d dates lat lon (Some s) h ny nx) by assumption.
    eexists. split; [reflexivity|]. cbn [data].
    apply sol_grid_bounds; try assumption.
    + now apply Forall_meshgrid_rows.
    + now apply Forall_meshgrid_columns.
  - destruct (shape (h !!! lat)) as [|a [|b [|? ?]]] eqn:Elat;
      try discriminate.
    rewrite (insolation_2d dates lat lon (Some s) h a b) by assumption.
    eexists. split; [reflexivity|]. cbn [data].
    now apply sol_grid_bounds.
Qed.

Lemma insolation_bounds_witness :
  let h : gmap nat ndarray :=
    {[ 0 := mk_array [2] [Some 0%R; Some 45%R];
       1 := mk_array [1] [Some 180%R] ]} in
  exists sol,
    fst (insolation [Timestamp 1995 6 21] 0 1 (Some 1%R) h) = Ok sol
    /\ List.Forall
         (fun x => exists r, x = Some r
                             /\ (0 <= r <= Rabs 1 / (1 - ecc) ^ 2)%R)
         (data sol).
Proof.
  intros h.
  apply (insolation_bounds [Timestamp 1995 6 21] 0 1 1 h).
  - reflexivity.
  - reflexivity.
  - repeat constructor; eexists; reflexivity.
  - repeat constructor; eexists; reflexivity.
  - left. split; reflexivity.
Defined.
(* ================================================================== *)
(** * The three metrics *)
(* ================================================================== *)

Lemma for_each_fmap {A B C : Type} (g : A -> result B) (k : B -> C)
    (l : list A) :
  for_each (fun x => r ← g x; Ok (k r)) l
  = (ys ← for_each g l; Ok (map k ys)).
Proof.
  induction l as [|x l IH]; simpl; [reflexivity|].
  destruct (g x) as [y|e]; simpl; [|reflexivity].
  rewrite IH. destruct (for_each g l); reflexivity.
Qed.

Lemma same_shapes_np_map (k : float -> float) (s : list nat)
    (l : list ndarray) :
  forallb (fun b => bool_decide (shape b = s)) (map (np_map k) l)
  = forallb (fun b => bool_decide (shape b = s)) l.
Proof. induction l as [|b l IH]; simpl; [reflexivity | now rewrite IH]. Qed.

Lemma concat_data_np_map (k : float -> float) (l : list ndarray) :
  concat (map data (map (np_map k) l)) = map k (concat (map data l)).
Proof.
  induction l as [|b l IH]; [reflexivity|].
  cbn [map concat data np_map]. now rewrite map_app, IH.
Qed.

Lemma np_array_np_map (k : float -> float) (me : list ndarray) :
  np_array (map (np_map k) me) = (a ← np_array me; Ok (np_map k a)).
Proof.
  destruct me as [|a me]; [reflexivity|].
  unfold np_array.
  change (map (np_map k) (a :: me)) with (np_map k a :: map (np_map k) me).
  cbv iota.
  change (np_map k a :: map (np_map k) me) with (map (np_map k) (a :: me)).
  change (shape (np_map k a)) with (shape a).
  rewrite same_shapes_np_map, concat_data_np_map, length_map.
  destruct (forallb _ (a :: me)); reflexivity.
Qed.

Lemma reduce_error_rmse (diff : ndarray) (axis : option (list nat)) :
  reduce_error "rmse" diff axis
  = (r ← reduce_error "mse" diff axis; Ok (np_map fsqrt r)).
Proof. reflexivity. Qed.

Lemma error_of_rmse (d : list float) :
  error_of "rmse" d = fsqrt (error_of "mse" d).
Proof. reflexivity. Qed.

(** X1: for each of the four error functions, the result with
    [method='rmse'] is the elementwise square root of the result with
    [method='mse'], for every input and every [axis]; where one call
    raises, the other raises the same exception. *)
Theorem rmse_is_sqrt_of_mse :
  (forall forecast valid axis,
     forecast_error forecast valid "rmse" axis
     = (r ← forecast_error forecast valid "mse" axis; Ok (np_map fsqrt r)))
  /\ (forall predictors valid n_fhour axis,
        persistence_error predictors valid n_fhour "rmse" axis
        = (r ← persistence_error predictors valid n_fhour "mse" axis;
           Ok (np_map fsqrt r)))
  /\ (forall valid n_fhour axis,
        climo_error valid n_fhour "rmse" axis
        = (r ← climo_error valid n_fhour "mse" axis; Ok (np_map fsqrt r)))
  /\ (forall da val_set n_fhour return_da,
        monthly_climo_error da val_set n_fhour "rmse" return_da
        = ('(r, anomaly) ← monthly_climo_error da val_set n_fhour "mse"
                              return_da;
           Ok (np_map fsqrt r, anomaly))).
Proof.
  repeat split.
  - intros forecast valid axis. unfold forecast_error.
    cbn [known_method existsb String.eqb Ascii.eqb Bool.eqb orb negb].
    destruct (shape0 forecast) as [n_f|e]; [|reflexivity].
    cbn [mbind result_bind].
    destruct (ndim forecast =? ndim valid).
    + destruct (np_sub valid forecast) as [diff|e]; [|reflexivity].
      cbn [mbind result_bind]. apply reduce_error_rmse.
    + destruct (shape0 valid) as [n_val|e]; [|reflexivity].
      cbn [mbind result_bind].
      rewrite (for_each_ext _
        (fun f => r ← (v ← slice_from f valid;
                       fc ← index0_slice_to f (Z.of_nat n_val - Z.of_nat f)
                              forecast;
                       diff ← np_sub v fc;
                       reduce_error "mse" diff axis);
                  Ok (np_map fsqrt r))).
      * rewrite for_each_fmap.
        destruct (for_each _ (seq 0 n_f)) as [me|e]; [|reflexivity].
        cbn [mbind result_bind]. apply np_array_np_map.
      * intros f _. destruct (slice_from f valid); [|reflexivity].
        cbn [mbind result_bind].
        destruct (index0_slice_to _ _ _); [|reflexivity].
        cbn [mbind result_bind]. destruct (np_sub _ _); reflexivity.
  - intros predictors valid n_fhour axis. unfold persistence_error.
    cbn [known_method existsb String.eqb Ascii.eqb Bool.eqb orb negb].
    destruct (shape0 valid) as [n_f|e]; [|reflexivity].
    cbn [mbind result_bind].
    rewrite (for_each_ext _
      (fun f => r ← (v ← slice_from f valid;
                     p ← slice_to (Z.of_nat n_f - Z.of_nat f) predictors;
                     diff ← np_sub v p;
                     reduce_error "mse" diff axis);
                Ok (np_map fsqrt r))).
    + rewrite for_each_fmap.
      destruct (for_each _ (seq 0 n_fhour)) as [me|e]; [|reflexivity].
      cbn [mbind result_bind]. apply np_array_np_map.
    + intros f _. destruct (slice_from f valid); [|reflexivity].
      cbn [mbind result_bind].
      destruct (slice_to _ _); [|reflexivity].
      cbn [mbind result_bind]. destruct (np_sub _ _); reflexivity.
  - intros valid n_fhour axis. unfold climo_error.
    cbn [known_method existsb String.eqb Ascii.eqb Bool.eqb orb negb].
    destruct (shape0 valid) as [n_f|e]; [|reflexivity].
    cbn [mbind result_bind].
    rewrite (for_each_ext _
      (fun f => r ← (v ← slice_to (Z.of_nat n_f - Z.of_nat f) valid;
                     climo ← nanmean valid (Some [0]);
                     diff ← np_sub v climo;
                     reduce_error "mse" diff axis);
                Ok (np_map fsqrt r))).
    + rewrite for_each_fmap.
      destruct (for_each _ (seq 0 n_fhour)) as [me|e]; [|reflexivity].
      cbn [mbind result_bind]. apply np_array_np_map.
    + intros f _. destruct (slice_to _ valid); [|reflexivity].
      cbn [mbind result_bind].
      destruct (nanmean valid _); [|reflexivity].
      cbn [mbind result_bind]. destruct (np_sub _ _); reflexivity.
  - intros da val_set n_fhour return_da. unfold monthly_climo_error.
    cbn [known_method existsb String.eqb Ascii.eqb Bool.eqb orb negb].
    destruct (length (sample da) =? 0); [reflexivity|].
    destruct (sel_labels da val_set) as [selected|e]; [|reflexivity].
    cbn [mbind result_bind].
    destruct selected as [|p selected]; [reflexivity|].
    cbn [length Nat.eqb mbind result_bind].
    destruct n_fhour as [n|]; [|reflexivity].
    unfold np_map. cbn [shape data]. now rewrite map_repeat.
Qed.
(* ================================================================== *)
(** * Exchanging the forecast and the verification *)
(* ================================================================== *)

Lemma broadcast_dim_comm (n1 n2 : nat) :
  broadcast_dim n1 n2 = broadcast_dim n2 n1.
Proof.
  unfold broadcast_dim.
  destruct (Nat.eqb_spec n1 n2), (Nat.eqb_spec n2 n1), (Nat.eqb_spec n1 1),
    (Nat.eqb_spec n2 1); subst; try reflexivity; congruence.
Qed.

Lemma broadcast_shapes_comm (s1 s2 : list nat) :
  broadcast_shapes s1 s2 = broadcast_shapes s2 s1.
Proof.
  revert s2; induction s1 as [|n1 r1 IH]; intros [|n2 r2]; simpl;
    try reflexivity.
  now rewrite broadcast_dim_comm, IH.
Qed.

Lemma broadcast_data_nil_l (op : float -> float -> float) (s2 : list nat)
    (d1 d2 : list float) :
  broadcast_data op [] s2 d1 d2
  = match d1, d2 with
    | x :: _, y :: _ => [op x y]
    | _, _ => []
    end.
Proof. destruct s2; reflexivity. Qed.

Lemma broadcast_data_nil_r (op : float -> float -> float) (s1 : list nat)
    (d1 d2 : list float) :
  broadcast_data op s1 [] d1 d2
  = match d1, d2 with
    | x :: _, y :: _ => [op x y]
    | _, _ => []
    end.
Proof. destruct s1; reflexivity. Qed.

Lemma broadcast_data_map (g : float -> float) (op : float -> float -> float)
    (s1 : list nat) :
  forall s2 d1 d2,
    map g (broadcast_data op s1 s2 d1 d2)
    = broadcast_data (fun x y => g (op x y)) s1 s2 d1 d2.
Proof.
  induction s1 as [|n1 r1 IH]; intros s2 d1 d2.
  - rewrite !broadcast_data_nil_l. destruct d1, d2; reflexivity.
  - destruct s2 as [|n2 r2].
    + rewrite !broadcast_data_nil_r. destruct d1, d2; reflexivity.
    + rewrite !broadcast_data_cons, concat_map, map_map. f_equal.
      apply map_ext. intros p. apply IH.
Qed.

Lemma broadcast_data_ext (op op' : float -> float -> float) (s1 : list nat) :
  (forall x y, op x y = op' x y) ->
  forall s2 d1 d2,
    broadcast_data op s1 s2 d1 d2 = broadcast_data op' s1 s2 d1 d2.
Proof.
  intros Hop. induction s1 as [|n1 r1 IH]; intros s2 d1 d2.
  - rewrite !broadcast_data_nil_l. destruct d1, d2; try reflexivity.
    now rewrite Hop.
  - destruct s2 as [|n2 r2].
    + rewrite !broadcast_data_nil_r. destruct d1, d2; try reflexivity.
      now rewrite Hop.
    + rewrite !broadcast_data_cons. f_equal. apply map_ext. intros p. apply IH.
Qed.

Lemma combine_swap {A B : Type} (l1 : list A) (l2 : list B) :
  combine l2 l1 = map (fun p => (snd p, fst p)) (combine l1 l2).
Proof.
  revert l2; induction l1 as [|x l1 IH]; intros [|y l2]; simpl;
    try reflexivity.
  now rewrite IH.
Qed.

(** Exchanging the operands of an operation that broadcasts. *)
Lemma broadcast_data_flip (op : float -> float -> float) (s1 : list nat) :
  forall s2 s d1 d2,
    broadcast_shapes s1 s2 = Ok s ->
    broadcast_data op s1 s2 d1 d2
    = broadcast_data (fun x y => op y x) s2 s1 d2 d1.
Proof.
  induction s1 as [|n1 r1 IH]; intros s2 s d1 d2 Hs.
  - destruct s2; [|discriminate]. simpl. destruct d1, d2; reflexivity.
  - destruct s2 as [|n2 r2]; [discriminate|].
    simpl in Hs. unfold broadcast_dim in Hs.
    destruct (broadcast_shapes r1 r2) as [r|e] eqn:Hr;
      [|repeat (destruct (_ =? _) in Hs); discriminate].
    rewrite !broadcast_data_cons.
    destruct (Nat.eqb_spec n1 n2) as [->|Hne].
    + rewrite Nat.eqb_refl, (combine_swap (chunks (size_of r1) n2 d1)), map_map.
      f_equal. apply map_ext. intros p. cbn [fst snd]. now apply (IH r2 r).
    + destruct (Nat.eqb_spec n2 n1) as [Heq|_]; [congruence|].
      destruct (Nat.eqb_spec n1 1) as [->|Hn1].
      * destruct (Nat.eqb_spec n2 1) as [Heq|_]; [congruence|].
        rewrite !map_map. f_equal. apply map_ext. intros c. cbn [fst snd].
        now apply (IH r2 r).
      * destruct (Nat.eqb_spec n2 1) as [->|Hn2]; [|discriminate].
        rewrite !map_map. f_equal. apply map_ext. intros c. cbn [fst snd].
        now apply (IH r2 r).
Qed.

Lemma fsquare_fsub_comm (x y : float) :
  fsquare (fsub x y) = fsquare (fsub y x).
Proof. destruct x, y; simpl; try reflexivity. f_equal. ring. Qed.

Lemma fabs_fsub_comm (x y : float) : fabs (fsub x y) = fabs (fsub y x).
Proof. destruct x, y; simpl; try reflexivity. f_equal. apply Rabs_minus_sym. Qed.

(** The squares and the absolute values of [a - b] and of [b - a]. *)
Lemma np_sub_comm_under (g : float -> float) (a b : ndarray) :
  (forall x y, g (fsub x y) = g (fsub y x)) ->
  (d ← np_sub a b; Ok (np_map g d)) = (d ← np_sub b a; Ok (np_map g d)).
Proof.
  intros Hg. unfold np_sub, np_binop.
  rewrite (Nat.max_comm (ndim b) (ndim a)).
  set (r := Nat.max (ndim a) (ndim b)).
  rewrite (broadcast_shapes_comm (pad_shape r (shape b))).
  destruct (broadcast_shapes (pad_shape r (shape a)) (pad_shape r (shape b)))
    as [s|e] eqn:Hs; [|reflexivity].
  cbn [mbind result_bind]. unfold np_map. cbn [shape data]. do 2 f_equal.
  rewrite !broadcast_data_map.
  rewrite (broadcast_data_flip _ _ _ s _ _ Hs).
  apply broadcast_data_ext. intros x y. symmetry. apply Hg.
Qed.

Lemma reduce_error_np_sub_comm (method : string) (a b : ndarray)
    (axis : option (list nat)) :
  (d ← np_sub a b; reduce_error method d axis)
  = (d ← np_sub b a; reduce_error method d axis).
Proof.
  pose proof (np_sub_comm_under fsquare a b fsquare_fsub_comm) as Hsq.
  pose proof (np_sub_comm_under fabs a b fabs_fsub_comm) as Hab.
  unfold reduce_error.
  destruct (np_sub a b) as [d|e], (np_sub b a) as [d'|e'];
    cbn [mbind result_bind] in *; try congruence.
  assert (Hsq' : np_map fsquare d = np_map fsquare d') by congruence.
  assert (Hab' : np_map fabs d = np_map fabs d') by congruence.
  now rewrite Hsq', Hab'.
Qed.

(** X2: on two arrays of the same rank, [forecast_error] does not depend on
    which of the two is the forecast: exchanging them gives the same
    result, or the same exception, for every method and every [axis]. *)
Theorem forecast_error_symmetric (a b : ndarray) (method : string)
    (axis : option (list nat)) :
  ndim a = ndim b ->
  forecast_error a b method axis = forecast_error b a method axis.
Proof.
  intros Hr. unfold forecast_error.
  destruct (known_method method); [|reflexivity]. cbn [negb].
  rewrite Hr, Nat.eqb_refl. unfold ndim in Hr. unfold shape0.
  destruct (shape a) as [|na ra] eqn:Ha, (shape b) as [|nb rb] eqn:Hb;
    try discriminate; [reflexivity|].
  cbn [mbind result_bind]. apply reduce_error_np_sub_comm.
Qed.

Lemma forecast_error_symmetric_witness :
  forecast_error (mk_array [2; 1] [Some 1%R; None])
                 (mk_array [1; 3] [Some 0%R; Some 2%R; Some 5%R]) "mae" None
  = forecast_error (mk_array [1; 3] [Some 0%R; Some 2%R; Some 5%R])
                   (mk_array [2; 1] [Some 1%R; None]) "mae" None.
Proof. apply forecast_error_symmetric. reflexivity. Defined.
(* ================================================================== *)
(** * The sign of an error *)
(* ================================================================== *)

(** A running sum that is not negative. *)
Lemma acc_add_nonneg (a b : acc) :
  (0 <= fst a)%R -> (0 <= fst b)%R -> (0 <= fst (acc_add a b))%R.
Proof. unfold acc_add. simpl. lra. Qed.

Lemma acc_zip_nonneg (a b : list acc) :
  Forall (fun x => 0 <= fst x)%R a -> Forall (fun x => 0 <= fst x)%R b ->
  Forall (fun x => 0 <= fst x)%R (acc_zip a b).
Proof.
  intros Ha; revert b; induction Ha as [|x a Hx Ha IH]; intros b Hb.
  - constructor.
  - destruct Hb as [|y b Hy Hb]; simpl; constructor.
    + now apply acc_add_nonneg.
    + now apply IH.
Qed.

Lemma fold_acc_zip_nonneg (z : list acc) (parts : list (list acc)) :
  Forall (fun x => 0 <= fst x)%R z ->
  Forall (Forall (fun x => 0 <= fst x)%R) parts ->
  Forall (fun x => 0 <= fst x)%R (fold_right acc_zip z parts).
Proof.
  intros Hz Hparts. induction Hparts as [|p ps Hp _ IHp]; simpl;
    [assumption | now apply acc_zip_nonneg].
Qed.

Lemma Forall_chunks {A : Type} (P : A -> Prop) (k n : nat) (d : list A) :
  Forall P d -> Forall (Forall P) (chunks k n d).
Proof.
  revert d; induction n as [|n IH]; intros d Hd; simpl; constructor.
  - now apply Forall_take.
  - apply IH. now apply Forall_drop.
Qed.

Lemma reduce_axes_nonneg (axes : list nat) (s : list nat) :
  forall cur d,
    Forall (fun x => 0 <= fst x)%R d ->
    Forall (fun x => 0 <= fst x)%R (reduce_axes axes cur s d).
Proof.
  induction s as [|n r IH]; intros cur d Hd; simpl; [assumption|].
  assert (Hparts : Forall (Forall (fun x : acc => 0 <= fst x)%R)
                     (map (reduce_axes axes (S cur) r)
                          (chunks (size_of r) n d))).
  { apply Forall_map. eapply Forall_impl; [apply Forall_chunks, Hd|].
    intros c Hc. now apply IH. }
  destruct (in_axes cur axes).
  - apply fold_acc_zip_nonneg; [|exact Hparts].
    apply List.Forall_forall. intros x Hx. apply repeat_spec in Hx. subst.
    simpl. lra.
  - now apply Forall_concat.
Qed.

Lemma acc_mean_nonneg (a : acc) : (0 <= fst a)%R -> nan_or_nonneg (acc_mean a).
Proof.
  intros Ha. unfold acc_mean. destruct (snd a) as [|n]; [exact I|].
  unfold nan_or_nonneg.
  apply Rle_mult_inv_pos; [assumption|]. apply lt_0_INR. lia.
Qed.

Lemma acc_sum_nonneg (l : list acc) :
  Forall (fun x => 0 <= fst x)%R l -> (0 <= fst (acc_sum l))%R.
Proof.
  induction 1 as [|x l Hx _ IH]; simpl; [lra|]. now apply acc_add_nonneg.
Qed.

Lemma nanmean_nonneg (a r : ndarray) (axis : option (list nat)) :
  Forall nan_or_nonneg (data a) ->
  nanmean a axis = Ok r -> Forall nan_or_nonneg (data r).
Proof.
  intros Ha H.
  assert (Hacc : Forall (fun x => 0 <= fst x)%R (map acc_of (data a))).
  { apply Forall_map. eapply Forall_impl; [exact Ha|].
    intros [x|] Hx; simpl in *; lra. }
  unfold nanmean in H. destruct axis as [axes|].
  - destruct (negb _); [discriminate|]. destruct (negb _); [discriminate|].
    injection H as <-. cbn [data]. apply Forall_map.
    eapply Forall_impl; [apply reduce_axes_nonneg, Hacc|].
    intros x Hx. now apply acc_mean_nonneg.
  - injection H as <-. cbn [data scalar]. constructor; [|constructor].
    apply acc_mean_nonneg. now apply acc_sum_nonneg.
Qed.

Lemma fsquare_nonneg (x : float) : nan_or_nonneg (fsquare x).
Proof. destruct x as [r|]; simpl; [nra | exact I]. Qed.

Lemma fabs_nonneg (x : float) : nan_or_nonneg (fabs x).
Proof. destruct x as [r|]; simpl; [apply Rabs_pos | exact I]. Qed.

Lemma fsqrt_nonneg (x : float) : nan_or_nonneg (fsqrt x).
Proof.
  destruct x as [r|]; simpl; [|exact I].
  destruct (Rlt_dec r 0); simpl; [exact I | apply sqrt_pos].
Qed.

Lemma reduce_error_nonneg (method : string) (diff r : ndarray)
    (axis : option (list nat)) :
  reduce_error method diff axis = Ok r -> Forall nan_or_nonneg (data r).
Proof.
  unfold reduce_error. intros H.
  destruct (String.eqb method "mse");
    [|destruct (String.eqb method "mae")].
  - eapply nanmean_nonneg; [|exact H]. cbn [np_map data].
    apply Forall_map, Forall_forall. intros x _. apply fsquare_nonneg.
  - eapply nanmean_nonneg; [|exact H]. cbn [np_map data].
    apply Forall_map, Forall_forall. intros x _. apply fabs_nonneg.
  - apply bind_ok in H as (m & _ & H). injection H as <-.
    cbn [np_map data]. apply Forall_map, Forall_forall.
    intros x _. apply fsqrt_nonneg.
Qed.

Lemma np_array_nonneg (me : list ndarray) (r : ndarray) :
  Forall (fun e => Forall nan_or_nonneg (data e)) me ->
  np_array me = Ok r -> Forall nan_or_nonneg (data r).
Proof.
  intros Hme H. unfold np_array in H. destruct me as [|a me].
  - injection H as <-. constructor.
  - destruct (forallb _ _); [|discriminate]. injection H as <-.
    apply (proj2 (Forall_concat _ (map data (a :: me)))), Forall_map.
    exact Hme.
Qed.

(** The errors of a loop over the lead steps. *)
Lemma for_each_errors_nonneg {A : Type} (g : A -> result ndarray)
    (l : list A) (r : ndarray) :
  (forall x e, g x = Ok e -> Forall nan_or_nonneg (data e)) ->
  (me ← for_each g l; np_array me) = Ok r ->
  Forall nan_or_nonneg (data r).
Proof.
  intros Hg H. apply bind_ok in H as (me & Hme & H).
  eapply np_array_nonneg; [|exact H].
  apply for_each_inv in Hme.
  clear H. induction Hme as [|x e l me He _ IH]; constructor;
    [exact (Hg x e He) | exact IH].
Qed.

(** X4: an error is never negative.  Whatever the arrays, the method and
    the [axis], every value of an array returned by [forecast_error],
    [persistence_error] or [climo_error] is NaN or at least zero. *)
Theorem errors_never_negative (forecast predictors valid r : ndarray)
    (n_fhour : nat) (method : string) (axis : option (list nat)) :
  forecast_error forecast valid method axis = Ok r
  \/ persistence_error predictors valid n_fhour method axis = Ok r
  \/ climo_error valid n_fhour method axis = Ok r ->
  Forall nan_or_nonneg (data r).
Proof.
  intros [H | [H | H]].
  - unfold forecast_error in H. destruct (negb _); [discriminate|].
    apply bind_ok in H as (n_f & _ & H).
    destruct (ndim forecast =? ndim valid).
    + apply bind_ok in H as (diff & _ & H).
      now apply reduce_error_nonneg in H.
    + apply bind_ok in H as (n_val & _ & H).
      eapply for_each_errors_nonneg; [|exact H].
      intros f e He. cbn beta in He.
      apply bind_ok in He as (v & _ & He).
      apply bind_ok in He as (fc & _ & He).
      apply bind_ok in He as (diff & _ & He).
      now apply reduce_error_nonneg in He.
  - unfold persistence_error in H. destruct (negb _); [discriminate|].
    apply bind_ok in H as (n_f & _ & H).
    eapply for_each_errors_nonneg; [|exact H].
    intros f e He. cbn beta in He.
    apply bind_ok in He as (v & _ & He).
    apply bind_ok in He as (p & _ & He).
    apply bind_ok in He as (diff & _ & He).
    now apply reduce_error_nonneg in He.
  - unfold climo_error in H. destruct (negb _); [discriminate|].
    apply bind_ok in H as (n_f & _ & H).
    eapply for_each_errors_nonneg; [|exact H].
    intros f e He. cbn beta in He.
    apply bind_ok in He as (v & _ & He).
    apply bind_ok in He as (climo & _ & He).
    apply bind_ok in He as (diff & _ & He).
    now apply reduce_error_nonneg in He.
Qed.

Lemma errors_never_negative_witness :
  exists r,
    climo_error (mk_array [3] [Some 1%R; None; Some 4%R]) 2 "rmse" None = Ok r
    /\ Forall nan_or_nonneg (data r).
Proof.
  eexists. split; [reflexivity|].
  eapply (errors_never_negative (mk_array [] []) (mk_array [] [])
            (mk_array [3] [Some 1%R; None; Some 4%R]) _ 2 "rmse" None).
  right. right. reflexivity.
Defined.
(* ================================================================== *)
(** * Means of squares *)
(* ================================================================== *)

Lemma sum_sq_nonneg (l : list R) :
  (0 <= fold_right Rplus 0 (map (fun r => r ^ 2) l))%R.
Proof.
  induction l as [|x l IH]; cbn [map fold_right]; [lra|].
  pose proof (pow2_ge_0 x). lra.
Qed.

Lemma plain_mean_map (g : R -> R) (l : list R) :
  l <> [] ->
  plain_mean (map g l)
  = Some (fold_right Rplus 0 (map g l) / INR (length l))%R.
Proof.
  destruct l as [|x l]; [contradiction|]. intros _.
  unfold plain_mean. cbn [map]. do 3 f_equal. cbn [length].
  now rewrite length_map.
Qed.

Lemma fsqrt_nonneg_value (r : R) : (0 <= r)%R -> fsqrt (Some r) = Some (sqrt r).
Proof.
  intros Hr. unfold fsqrt. destruct (Rlt_dec r 0); [lra | reflexivity].
Qed.

Lemma length_concat_const {A : Type} (k : nat) (ls : list (list A)) :
  Forall (fun c => length c = k) ls -> length (concat ls) = length ls * k.
Proof.
  induction 1 as [|c ls Hc _ IH]; simpl; [reflexivity|].
  rewrite length_app, IH, Hc. reflexivity.
Qed.

Lemma chunks_count {A : Type} (k n : nat) (d : list A) :
  length (chunks k n d) = n.
Proof.
  revert d; induction n as [|n IH]; intros d; simpl; [reflexivity|].
  now rewrite IH.
Qed.
(* ================================================================== *)
(** * A perfect forecast *)
(* ================================================================== *)

Lemma sum_of_zeros (g : R -> R) (l : list R) :
  g 0%R = 0%R -> Forall (fun x => x = 0%R) l ->
  fold_right Rplus 0%R (map g l) = 0%R.
Proof.
  intros Hg. induction 1 as [|x l -> _ IH]; simpl; [reflexivity|].
  rewrite Hg, IH. lra.
Qed.

Lemma plain_mean_of_zeros (g : R -> R) (l : list R) :
  l <> [] -> g 0%R = 0%R -> Forall (fun x => x = 0%R) l ->
  plain_mean (map g l) = Some 0%R.
Proof.
  intros Hl Hg Hz. rewrite plain_mean_map by assumption.
  rewrite sum_of_zeros by assumption. f_equal. unfold Rdiv. apply Rmult_0_l.
Qed.

Lemma plain_error_of_zeros (method : string) (l : list R) :
  l <> [] -> Forall (fun x => x = 0%R) l ->
  plain_error method l = Some 0%R.
Proof.
  intros Hl Hz. unfold plain_error.
  assert (Hsq : plain_mean (map (fun r => (r ^ 2)%R) l) = Some 0%R)
    by (apply plain_mean_of_zeros; [assumption | lra | assumption]).
  assert (Hab : plain_mean (map Rabs l) = Some 0%R)
    by (apply plain_mean_of_zeros; [assumption | apply Rabs_R0 | assumption]).
  destruct (String.eqb method "mse"); [exact Hsq|].
  destruct (String.eqb method "mae"); [exact Hab|].
  rewrite Hsq, fsqrt_nonneg_value by lra. f_equal. apply sqrt_0.
Qed.

Lemma zip_with_fsub_self (l : list R) :
  zip_with fsub (map Some l) (map Some l) = map Some (map (fun _ => 0%R) l).
Proof.
  induction l as [|x l IH]; simpl; [reflexivity|].
  rewrite IH. do 2 f_equal. lra.
Qed.

(** X3: a perfect forecast has no error.  For a forecast that holds the
    values of the valid array, of shape [(n, ...)], all of them numbers
    (no NaN, nothing infinite) and at least one per lead step,
    [forecast_error] with the default [axis] returns zero at every lead
    step, for each of the three methods. *)
Theorem forecast_error_perfect_forecast (method : string) (n : nat)
    (rest : list nat) (dv : list R) :
  known_method method = true ->
  0 < size_of rest ->
  length dv = n * size_of rest ->
  forecast_error (mk_array (n :: rest) (map Some dv))
                 (mk_array (n :: rest) (map Some dv)) method None
  = Ok (mk_array [n] (repeat (Some 0%R) n)).
Proof.
  intros Hm Hk Hv.
  rewrite forecast_error_same_shape by (rewrite ?length_map; assumption).
  rewrite zip_with_fsub_self, chunks_map, map_map.
  set (diff := map (fun _ => 0%R) dv).
  assert (Hd : length diff = n * size_of rest)
    by (unfold diff; now rewrite length_map).
  assert (Hz : Forall (fun x => x = 0%R) diff)
    by (unfold diff; apply Forall_map, Forall_forall; reflexivity).
  pose proof (chunks_lengths (size_of rest) n diff Hd) as Hlen.
  pose proof (Forall_chunks _ (size_of rest) n diff Hz) as Hzero.
  do 2 f_equal.
  rewrite <- (chunks_count (size_of rest) n diff) at 2.
  rewrite <- map_const_seq with (k := 0).
  rewrite List.Forall_forall in Hlen, Hzero.
  generalize dependent (chunks (size_of rest) n diff). intros cs Hlen Hzero.
  clear -Hlen Hzero Hk.
  induction cs as [|c cs IH]; [reflexivity|].
  cbn [map length seq]. f_equal.
  - rewrite error_of_plain, finite_values_Some.
    apply plain_error_of_zeros.
    + intros ->. specialize (Hlen [] (or_introl eq_refl)). simpl in Hlen. lia.
    + apply Hzero. now left.
  - rewrite <- seq_shift, map_map.
    apply IH; intros c' Hc'; [apply Hlen | apply Hzero]; now right.
Qed.

Lemma forecast_error_perfect_forecast_witness :
  forecast_error (mk_array [2; 2] (map Some [1; 2; 3; 4]%R))
                 (mk_array [2; 2] (map Some [1; 2; 3; 4]%R)) "rmse" None
  = Ok (mk_array [2] (repeat (Some 0%R) 2)).
Proof.
  apply (forecast_error_perfect_forecast "rmse" 2 [2] [1; 2; 3; 4]%R);
    try reflexivity.
  simpl. lia.
Defined.
(* ================================================================== *)
(** * Persistence *)
(* ================================================================== *)

Lemma block_of_repeat {A : Type} (d : list A) (n f : nat) :
  f < n ->
  firstn (length d) (skipn (f * length d) (concat (repeat d n))) = d.
Proof.
  revert n; induction f as [|f IH]; intros [|n] Hf; try lia.
  - change (0 * length d) with 0. cbn [repeat concat skipn].
    apply take_app_length.
  - cbn [repeat concat]. replace (S f * length d) with (length d + f * length d)
      by lia.
    rewrite <- drop_drop, drop_app_length. apply IH. lia.
Qed.

(** [persistence_error] is [forecast_error] on the forecast that repeats
    the predictors at every lead step. *)
Lemma persistence_as_forecast (predictors valid : ndarray) (n_fhour : nat)
    (method : string) (axis : option (list nat)) :
  wf_array predictors -> S (ndim predictors) <> ndim valid ->
  persistence_error predictors valid n_fhour method axis
  = forecast_error (np_repeat_lead predictors n_fhour) valid method axis.
Proof.
  intros Wp Hr. unfold persistence_error, forecast_error.
  destruct (negb (known_method method)); [reflexivity|].
  change (shape0 (np_repeat_lead predictors n_fhour))
    with (Ok n_fhour : result nat).
  change (ndim (np_repeat_lead predictors n_fhour))
    with (S (ndim predictors)).
  cbn [mbind result_bind].
  destruct (Nat.eqb_spec (S (ndim predictors)) (ndim valid));
    [contradiction|].
  destruct (shape0 valid) as [n_f|e]; [|reflexivity].
  cbn [mbind result_bind]. f_equal.
  apply for_each_ext. intros f Hin. apply in_seq in Hin.
  destruct (slice_from f valid) as [v|e]; [|reflexivity].
  cbn [mbind result_bind].
  replace (index0_slice_to f (Z.of_nat n_f - Z.of_nat f)
             (np_repeat_lead predictors n_fhour))
    with (slice_to (Z.of_nat n_f - Z.of_nat f) predictors); [reflexivity|].
  unfold index0_slice_to, np_repeat_lead, slice_to, index0.
  cbn [shape data]. unfold wf_array in Wp.
  destruct predictors as [[|m r] d]; cbn [shape data] in *; [reflexivity|].
  destruct (Nat.ltb_spec f n_fhour); [|lia].
  cbn [mbind result_bind shape data].
  rewrite <- Wp, block_of_repeat by lia. reflexivity.
Qed.

(** X6: the error of persistence is the error of the forecast that holds
    the predictors at every lead step.  For well-formed predictors whose
    rank is not one less than the rank of [valid],
    [persistence_error(predictors, valid, n)] is
    [forecast_error(np.repeat(predictors[None, ...], n, axis=0), valid)],
    for every method and every [axis], exceptions included. *)
Theorem persistence_error_is_forecast_error (predictors valid : ndarray)
    (n_fhour : nat) (method : string) (axis : option (list nat)) :
  wf_array predictors -> S (ndim predictors) <> ndim valid ->
  persistence_error predictors valid n_fhour method axis
  = forecast_error (np_repeat_lead predictors n_fhour) valid method axis.
Proof. apply persistence_as_forecast. Qed.

Lemma persistence_error_is_forecast_error_witness :
  persistence_error (mk_array [3] [Some 1%R; Some 2%R; None])
                    (mk_array [3] [Some 2%R; Some 2%R; Some 5%R]) 2 "mse"
                    None
  = forecast_error
      (np_repeat_lead (mk_array [3] [Some 1%R; Some 2%R; None]) 2)
      (mk_array [3] [Some 2%R; Some 2%R; Some 5%R]) "mse" None.
Proof.
  apply persistence_error_is_forecast_error; [reflexivity|].
  unfold ndim. simpl. lia.
Defined.

Lemma error_of_nil (method : string) :
  known_method method = true -> error_of method [] = nan.
Proof.
  intros _. unfold error_of.
  destruct (String.eqb method "mse"); [reflexivity|].
  destruct (String.eqb method "mae"); reflexivity.
Qed.

(** X7: one lead step more than the series is long gives NaN, not an
    exception.  For predictors and a valid array of one shape [(n, ...)],
    [persistence_error] with [n_fhour = n + 1] and no [axis] returns
    [n + 1] errors, and the last one, where nothing is left of the series,
    is NaN. *)
Theorem persistence_error_past_the_end (method : string) (n : nat)
    (rest : list nat) (dp dv : list float) :
  known_method method = true ->
  length dp = n * size_of rest -> length dv = n * size_of rest ->
  exists r,
    persistence_error (mk_array (n :: rest) dp) (mk_array (n :: rest) dv)
                      (S n) method None = Ok r
    /\ shape r = [S n] /\ data r !! n = Some nan.
Proof.
  intros Hm Hp Hv.
  rewrite persistence_as_forecast by (unfold wf_array, ndim; simpl; lia).
  unfold np_repeat_lead. cbn [shape data].
  rewrite forecast_error_series_default; try assumption; try lia.
  - eexists. split; [reflexivity|]. split; [reflexivity|].
    cbn [data]. apply list_lookup_fmap_Some. exists n. split.
    + unfold overlap. cbn [data].
      rewrite drop_ge by lia. cbn [zip_with]. now rewrite error_of_nil.
    + apply lookup_seq. lia.
  - rewrite length_concat_repeat, Hp. reflexivity.
Qed.

Lemma persistence_error_past_the_end_witness :
  exists r,
    persistence_error (mk_array [2] [Some 1%R; Some 2%R])
                      (mk_array [2] [Some 2%R; Some 4%R]) 3 "mae" None = Ok r
    /\ shape r = [3] /\ data r !! 2 = Some nan.
Proof.
  apply (persistence_error_past_the_end "mae" 2 [] [Some 1%R; Some 2%R]
           [Some 2%R; Some 4%R]); reflexivity.
Defined.

Lemma for_each_raise {A B : Type} (f : A -> result B) (l1 l2 : list A)
    (x : A) (e : exn) :
  (forall y, In y l1 -> exists b, f y = Ok b) -> f x = Raise e ->
  for_each f (l1 ++ x :: l2) = Raise e.
Proof.
  intros Hok Hx. induction l1 as [|y l1 IH]; simpl.
  - now rewrite Hx.
  - destruct (Hok y (or_introl eq_refl)) as [b ->].
    rewrite IH; [reflexivity|]. intros z Hz. apply Hok. now right.
Qed.

Lemma np_sub_shapes_agree (s : list nat) (d1 d2 : list float) :
  exists diff, np_sub (mk_array s d1) (mk_array s d2) = Ok diff.
Proof.
  unfold np_sub, np_binop, ndim. cbn [shape data].
  rewrite Nat.max_id, pad_shape_same, broadcast_shapes_same. eauto.
Qed.

Lemma np_sub_first_axis_mismatch (n1 n2 : nat) (rest : list nat)
    (d1 d2 : list float) :
  n1 <> n2 -> n1 <> 1 -> n2 <> 1 ->
  np_sub (mk_array (n1 :: rest) d1) (mk_array (n2 :: rest) d2)
  = Raise ValueError.
Proof.
  intros H12 H1 H2. unfold np_sub, np_binop, ndim. cbn [shape data length].
  rewrite Nat.max_id.
  change (S (length rest)) with (length (n1 :: rest)) at 1.
  rewrite pad_shape_same.
  change (S (length rest)) with (length (n2 :: rest)).
  rewrite pad_shape_same. cbn [broadcast_shapes]. unfold broadcast_dim.
  destruct (Nat.eqb_spec n1 n2); [contradiction|].
  destruct (Nat.eqb_spec n1 1); [contradiction|].
  destruct (Nat.eqb_spec n2 1); [contradiction|]. reflexivity.
Qed.

(** X8: two lead steps more than the series is long is a [ValueError].
    For predictors and a valid array of one shape [(n, ...)] with
    [n >= 3], no [axis] and [n_fhour >= n + 2], [persistence_error]
    raises: at lead step [n + 1] the stop of the slice of the predictors
    is [-1], which leaves [n - 1] steps to subtract from none. *)
Theorem persistence_error_too_many_steps (method : string) (n n_fhour : nat)
    (rest : list nat) (dp dv : list float) :
  known_method method = true ->
  3 <= n -> n + 2 <= n_fhour ->
  persistence_error (mk_array (n :: rest) dp) (mk_array (n :: rest) dv)
                    n_fhour method None
  = Raise ValueError.
Proof.
  intros Hm Hn Hf. unfold persistence_error. rewrite Hm.
  cbn [negb shape0 shape mbind result_bind].
  replace n_fhour with (S n + S (n_fhour - n - 2)) by lia.
  rewrite seq_app.
  change (seq (0 + S n) (S (n_fhour - n - 2)))
    with (S n :: seq (S (S n)) (n_fhour - n - 2)).
  rewrite (for_each_raise _ _ _ _ ValueError); [reflexivity| |].
  - intros f Hin. apply in_seq in Hin.
    unfold slice_from, slice_to. cbn [shape data mbind result_bind].
    rewrite stop_index_overlap by lia.
    destruct (np_sub_shapes_agree ((n - f) :: rest)
                (skipn (f * size_of rest) dv)
                (firstn ((n - f) * size_of rest) dp)) as [diff ->].
    cbn [mbind result_bind]. rewrite reduce_error_all. eauto.
  - unfold slice_from, slice_to. cbn [shape data mbind result_bind].
    rewrite np_sub_first_axis_mismatch; [reflexivity| | |];
      unfold stop_index;
      destruct (Z.ltb_spec (Z.of_nat n - Z.of_nat (S n)) 0); lia.
Qed.

Lemma persistence_error_too_many_steps_witness :
  persistence_error (mk_array [3] [Some 1%R; Some 2%R; Some 3%R])
                    (mk_array [3] [Some 2%R; Some 4%R; Some 6%R]) 5 "mse"
                    None
  = Raise ValueError.
Proof.
  apply persistence_error_too_many_steps; [reflexivity | lia | lia].
Defined.
(* ================================================================== *)
(** * Verification from samples *)
(* ================================================================== *)

(** The times looked up for one initialization time by
    [verification_from_samples]: [date], ..., [date + (forecast_steps - 1)
    * dt]. *)
Lemma samples_range (date forecast_steps dt : Z) :
  (1 <= forecast_steps)%Z -> (1 <= dt)%Z ->
  date_range date (date + hours (dt * (forecast_steps - 1))) (hours dt)
  = map (fun i => (date + hours (dt * Z.of_nat i))%Z)
        (seq 0 (Z.to_nat forecast_steps)).
Proof.
  intros Hs Hd.
  replace (date + hours (dt * (forecast_steps - 1)))%Z
    with (date + Z.of_nat (Z.to_nat (forecast_steps - 1)) * hours dt)%Z
    by (unfold hours; rewrite Z2Nat.id by lia; ring).
  rewrite date_range_steps by now apply hours_pos.
  replace (S (Z.to_nat (forecast_steps - 1))) with (Z.to_nat forecast_steps)
    by lia.
  apply map_ext. intros i. unfold hours. ring.
Qed.

(** The array built by [verification_from_samples] from a source whose
    time stamps are all different, on the grid of the validation set: row
    [f] of initialization time [date] holds the first target step that the
    source has at [date + f * dt], in single precision. *)
Lemma verification_from_samples_values (single : R -> R)
    (ds : SamplesDataset) (all_ds : option SamplesDataset)
    (forecast_steps dt : Z) (source : DataArray) :
  (1 <= forecast_steps)%Z -> (1 <= dt)%Z ->
  isel_time_step 0 (targets (default ds all_ds)) = Ok source ->
  NoDup (sample source) ->
  on_grid (w_field_size (sample_predictors ds)) source ->
  verification_from_samples single ds all_ds forecast_steps dt
  = Ok (mk_verification
          (np_arange dt (dt * forecast_steps + 1) dt)
          (w_sample (sample_predictors ds))
          (map (fun f =>
                  map (fun date =>
                         map (lift1 single)
                             (row_at source (date + hours (dt * Z.of_nat f))))
                      (w_sample (sample_predictors ds)))
               (seq 0 (Z.to_nat forecast_steps)))).
Proof.
  intros Hs Hd Hsrc Hu Hg. unfold verification_from_samples.
  destruct (Z.ltb_spec forecast_steps 1); [lia|].
  destruct (Z.ltb_spec dt 1); [lia|].
  replace (match all_ds with
           | Some a => isel_time_step 0 (targets a)
           | None => isel_time_step 0 (targets ds)
           end)
    with (isel_time_step 0 (targets (default ds all_ds)))
    by (now destruct all_ds).
  rewrite Hsrc. cbn [mbind result_bind].
  set (colf := fun date : Z =>
    map (fun i => row_at source (date + hours (dt * Z.of_nat i)))
        (seq 0 (Z.to_nat forecast_steps))).
  rewrite (for_fold_ext _
    (fun ver '(d, date) =>
       assign_column single (w_field_size (sample_predictors ds)) d
                     (colf date) ver)).
  - rewrite verification_loop.
    + cbn [mbind result_bind]. do 2 f_equal.
      apply map_ext_in. intros f Hf. apply in_seq in Hf.
      apply map_ext. intros date. unfold colf.
      now rewrite map_map, nth_map_seq by lia.
    + intros date _. unfold colf. split.
      * now rewrite length_map, length_seq.
      * apply Forall_map, List.Forall_forall. intros i _.
        now apply row_at_length.
  - intros ver [d date] _.
    rewrite samples_range, reindex_unique by assumption.
    cbn [mbind result_bind]. unfold colf. now rewrite map_map.
Qed.

(** X9: what [verification_from_samples] stores.  Let [forecast_steps] and
    [dt] be at least 1, and let the source store ([all_ds] if given, else
    [ds]) hold at least one target step per sample, under time stamps
    that are all different, one window per time stamp, on the grid of
    [ds].  Then the call returns, and at row [f] (counted from 0, labelled
    [(f + 1) * dt] hours) and initialization time [t0] the array holds the
    first target step of the sample that the source has at time
    [t0 + f * dt], converted to single precision (the step itself when
    the conversion leaves its values as they are), and NaN at every point
    of the grid when the source has no such sample.  Times are in
    nanoseconds: an hour is 3600000000000. *)
Theorem verification_from_samples_entries (single : R -> R)
    (ds : SamplesDataset) (all_ds : option SamplesDataset)
    (forecast_steps dt t0 : Z) (d f : nat) :
  (1 <= forecast_steps)%Z -> (1 <= dt)%Z ->
  let source := targets (default ds all_ds) in
  0 < w_time_steps source ->
  NoDup (w_sample source) ->
  length (w_values source) = length (w_sample source) ->
  w_field_size source = w_field_size (sample_predictors ds) ->
  Forall (fun win => forall y, win !! 0 = Some y ->
                               length y = w_field_size source)
         (w_values source) ->
  w_sample (sample_predictors ds) !! d = Some t0 ->
  f < Z.to_nat forecast_steps ->
  exists ver row x,
    verification_from_samples single ds all_ds forecast_steps dt = Ok ver
    /\ ver_values ver !! f = Some row
    /\ row !! d = Some x
    /\ (~ In (t0 + Z.of_nat f * dt * 3600000000000)%Z (w_sample source) ->
        x = repeat None (w_field_size (sample_predictors ds)))
    /\ (forall i win y,
          w_sample source !! i
          = Some (t0 + Z.of_nat f * dt * 3600000000000)%Z ->
          w_values source !! i = Some win ->
          win !! 0 = Some y ->
          x = map (option_map single) y
          /\ (Forall (fun v => option_map single v = v) y -> x = y)).
Proof.
  intros Hs Hd source Hts Hu Hwf Hsize Hwin Hd0 Hf.
  set (da := mk_da (w_sample source)
               (map (fun win => nth 0 win (nan_field (w_field_size source)))
                    (w_values source))
               (w_field_size source)).
  assert (Hsel : isel_time_step 0 (targets (default ds all_ds)) = Ok da).
  { fold source. unfold isel_time_step.
    destruct (Nat.ltb_spec 0 (w_time_steps source)); [reflexivity | lia]. }
  assert (Hg : on_grid (w_field_size (sample_predictors ds)) da).
  { split; [exact Hsize|]. cbn [values da]. rewrite <- Hsize.
    apply Forall_map. eapply Forall_impl; [exact Hwin|].
    intros [|y win] Hy; cbn [nth].
    - unfold nan_field. apply repeat_length.
    - now apply Hy. }
  eexists.
  exists (map (fun date =>
                 map (lift1 single)
                     (row_at da (date + hours (dt * Z.of_nat f))))
              (w_sample (sample_predictors ds))).
  exists (map (lift1 single)
              (row_at da (t0 + Z.of_nat f * dt * 3600000000000))).
  split; [now apply (verification_from_samples_values single ds all_ds _ _ da)|].
  cbn [ver_values].
  split; [|split; [|split]].
  - apply list_lookup_fmap_Some. exists f. split; [reflexivity|].
    apply lookup_seq. split; [reflexivity | lia].
  - apply list_lookup_fmap_Some. exists t0. split; [|exact Hd0].
    rewrite hours_ns. do 3 f_equal. ring.
  - intros Hin. rewrite row_at_absent by assumption.
    cbn [field_size da]. rewrite Hsize. apply map_lift1_nan.
  - intros i win y Hi Hw Hy.
    assert (E : row_at da (t0 + Z.of_nat f * dt * 3600000000000) = y).
    { apply (row_at_present da _ i); try assumption.
      cbn [values da]. apply list_lookup_fmap_Some. exists win.
      split; [|exact Hw]. destruct win as [|y' win]; [discriminate|].
      now injection Hy as ->. }
    rewrite E. split; [reflexivity|]. intros Hfix.
    exact (map_fixed _ _ Hfix).
Qed.

Lemma verification_from_samples_entries_witness :
  let window := mk_wa [0; 21600000000000; 43200000000000]%Z 1
                  [[[Some 1%R]]; [[Some 2%R]]; [[Some 3%R]]] 1 in
  exists ver row x,
    verification_from_samples single_example (mk_samples window window)
      None 2 6 = Ok ver
    /\ ver_values ver !! 1 = Some row
    /\ row !! 2 = Some x
    /\ (~ In (43200000000000 + Z.of_nat 1 * 6 * 3600000000000)%Z
             (w_sample window) ->
        x = repeat None 1)
    /\ (forall i win y,
          w_sample window !! i
          = Some (43200000000000 + Z.of_nat 1 * 6 * 3600000000000)%Z ->
          w_values window !! i = Some win ->
          win !! 0 = Some y ->
          x = map (option_map single_example) y
          /\ (Forall (fun v => option_map single_example v = v) y ->
              x = y)).
Proof.
  intros window.
  apply (verification_from_samples_entries single_example
           (mk_samples window window) None 2 6 43200000000000 2 1);
    try reflexivity; try lia.
  - simpl. lia.
  - apply (bool_decide_unpack _). vm_compute. exact I.
  - repeat constructor; intros y Hy; injection Hy as <-; reflexivity.
Defined.

(* ================================================================== *)
(** * The axes of a verification array *)
(* ================================================================== *)

Lemma np_arange_lead_hours (forecast_steps dt : Z) :
  (1 <= dt)%Z ->
  np_arange dt (dt * forecast_steps + 1) dt
  = map (fun i => (dt * (Z.of_nat i + 1))%Z) (seq 0 (Z.to_nat forecast_steps)).
Proof.
  intros Hd. unfold np_arange.
  replace (dt * forecast_steps + 1 - dt + dt - 1)%Z
    with (forecast_steps * dt)%Z by ring.
  rewrite Z.div_mul by lia. apply map_ext. intros i. ring.
Qed.

Lemma for_fold_invariant {A S : Type} (P : S -> Prop)
    (f : S -> A -> result S) (l : list A) :
  (forall s x s', f s x = Ok s' -> P s -> P s') ->
  forall s s', for_fold f l s = Ok s' -> P s -> P s'.
Proof.
  intros Hf. induction l as [|x l IH]; intros s s' H Hs; simpl in H.
  - now injection H as <-.
  - destruct (f s x) as [s1|] eqn:E; [|discriminate]. eauto.
Qed.

Lemma assign_column_shape (single : R -> R) (fsize rows cols d : nat)
    (col : list field) (ver ver' : list (list field)) :
  assign_column single fsize d col ver = Ok ver' ->
  grid_shape rows cols ver -> grid_shape rows cols ver'.
Proof.
  unfold assign_column. intros H [Hr Hc]. unfold field in *.
  destruct (Nat.eqb_spec (length col) (length ver)) as [E|]; [|discriminate].
  cbn [andb] in H.
  destruct (forallb (fun x : list float => length x =? fsize) col);
    [|discriminate].
  injection H as <-. split.
  - rewrite length_zip_with. lia.
  - clear -Hc. revert col.
    induction Hc as [|row ver Hrow _ IH]; intros [|x col]; simpl;
      constructor; [now rewrite length_insert | apply IH].
Qed.

(** The loop of both builders keeps the shape of the array. *)
Lemma verification_loop_shape (single : R -> R) (fsize rows cols : nat)
    (source : DataArray) (target : Z -> list Z) (samples : list (nat * Z))
    (ver ver' : list (list field)) :
  for_fold (fun ver '(d, date) =>
              col ← reindex source (target date);
              assign_column single fsize d col ver) samples ver = Ok ver' ->
  grid_shape rows cols ver -> grid_shape rows cols ver'.
Proof.
  apply (for_fold_invariant (grid_shape rows cols)).
  intros s [d date] s' H Hs.
  apply bind_ok in H as (col & _ & H).
  now apply (assign_column_shape single fsize rows cols d col s).
Qed.

Lemma grid_shape_repeat (rows cols : nat) (x : field) :
  grid_shape rows cols (repeat (repeat x cols) rows).
Proof.
  split; [apply repeat_length|].
  apply List.Forall_forall. intros row Hrow. apply repeat_spec in Hrow.
  subst. apply repeat_length.
Qed.

(** X10: the axes of the verification array.  Whenever one of the two
    builders returns, for any stores, the lead times are [dt], [2 * dt],
    ..., [forecast_steps * dt] hours, the times are the sample times of
    the validation set, in their order, and the array has one row per lead
    time with one field per sample time in each. *)
Theorem verification_axes (single : R -> R) (ds_w : SamplesDataset)
    (all_w : option SamplesDataset) (ds_s : SeriesDataset)
    (all_s : option SeriesDataset) (forecast_steps dt : Z)
    (samples : list Z) (ver : Verification) :
  verification_from_samples single ds_w all_w forecast_steps dt = Ok ver
  /\ samples = w_sample (sample_predictors ds_w)
  \/ verification_from_series single ds_s all_s forecast_steps dt = Ok ver
     /\ samples = sample (predictors ds_s) ->
  f_hour ver
  = map (fun i => (dt * (Z.of_nat i + 1))%Z) (seq 0 (Z.to_nat forecast_steps))
  /\ time ver = samples
  /\ grid_shape (Z.to_nat forecast_steps) (length samples) (ver_values ver).
Proof.
  intros [[H ->] | [H ->]].
  - unfold verification_from_samples in H.
    destruct (Z.ltb_spec forecast_steps 1); [discriminate|].
    destruct (Z.ltb_spec dt 1); [discriminate|].
    apply bind_ok in H as (valid_da & _ & H).
    apply bind_ok in H as (vals & Hvals & H). injection H as <-.
    cbn [f_hour time ver_values].
    split; [now apply np_arange_lead_hours|]. split; [reflexivity|].
    eapply verification_loop_shape; [exact Hvals|].
    apply grid_shape_repeat.
  - unfold verification_from_series in H.
    destruct (Z.ltb_spec forecast_steps 1); [discriminate|].
    destruct (Z.ltb_spec dt 1); [discriminate|].
    apply bind_ok in H as (vals & Hvals & H). injection H as <-.
    cbn [f_hour time ver_values].
    split; [now apply np_arange_lead_hours|]. split; [reflexivity|].
    eapply verification_loop_shape; [exact Hvals|].
    apply grid_shape_repeat.
Qed.

Lemma verification_axes_witness :
  let series :=
    mk_series (mk_da [0; hours 6; hours 12]%Z
                 [[Some 1%R]; [Some 2%R]; [Some 3%R]] 1) in
  exists ver,
    verification_from_series single_example series None 2 6 = Ok ver
    /\ f_hour ver = [6; 12]%Z
    /\ time ver = [0; hours 6; hours 12]%Z
    /\ grid_shape 2 3 (ver_values ver).
Proof.
  intros series. eexists. split; [reflexivity|].
  apply (verification_axes single_example
           (mk_samples (mk_wa [] 0 [] 0) (mk_wa [] 0 [] 0))
           None series None 2 6 [0; hours 6; hours 12]%Z).
  right. split; reflexivity.
Defined.

(* ================================================================== *)
(** * A validation time that the climatology data do not have *)
(* ================================================================== *)

Lemma for_each_some_raise {A B : Type} (f : A -> result B) (l : list A)
    (e : exn) :
  (forall y, In y l -> (exists b, f y = Ok b) \/ f y = Raise e) ->
  (exists x, In x l /\ f x = Raise e) ->
  for_each f l = Raise e.
Proof.
  induction l as [|y l IH]; intros Hall (x & Hin & Hx); [destruct Hin|].
  simpl. destruct (f y) as [b|e'] eqn:E.
  - rewrite IH; [reflexivity | intros z Hz; apply Hall; now right|].
    destruct Hin as [-> | Hin]; [congruence | eauto].
  - destruct (Hall y (or_introl eq_refl)) as [[b Hb] | Hb]; congruence.
Qed.

(** X11: [monthly_climo_error] needs every validation time in the data.
    When [da] holds at least one time stamp, its time stamps are all
    different and one time of [val_set] is not among them, the call raises
    [KeyError], for each of the three methods; no NaN is put in its
    place. *)
Theorem monthly_climo_error_missing_time (da : DataArray)
    (val_set : list Z) (n_fhour : option nat) (method : string)
    (return_da : bool) (t : Z) :
  known_method method = true ->
  sample da <> [] ->
  NoDup (sample da) ->
  In t val_set -> ~ In t (sample da) ->
  monthly_climo_error da val_set n_fhour method return_da = Raise KeyError.
Proof.
  intros Hm Hne Hu Hin Hout. unfold monthly_climo_error. rewrite Hm.
  cbn [negb].
  destruct (sample da) as [|t' l] eqn:Es; [contradiction|].
  cbn [length Nat.eqb]. rewrite <- Es in *.
  unfold sel_labels. rewrite bool_decide_eq_true_2 by assumption.
  rewrite (for_each_some_raise _ _ KeyError); [reflexivity| |].
  - intros y _. destruct (sel_label da y); eauto.
  - exists t. split; [assumption|].
    unfold sel_label. now rewrite find_label_absent.
Qed.

Lemma monthly_climo_error_missing_time_witness :
  monthly_climo_error
    (mk_da [Timestamp 2000 1 1; Timestamp 2000 1 2]
       [[Some 1%R]; [Some 3%R]] 1)
    [Timestamp 2000 1 2; Timestamp 2000 1 3] (Some 2) "mse" false
  = Raise KeyError.
Proof.
  apply (monthly_climo_error_missing_time _ _ _ _ _ (Timestamp 2000 1 3)).
  - reflexivity.
  - discriminate.
  - apply (bool_decide_unpack _). vm_compute. exact I.
  - simpl. auto.
  - vm_compute. intros [H | [H | []]]; discriminate.
Defined.
(* ================================================================== *)
(** * Insolation on a grid of latitudes and longitudes *)
(* ================================================================== *)

Lemma zip_with_repeat_l {A B C : Type} (f : A -> B -> C) (x : A)
    (l : list B) :
  zip_with f (repeat x (length l)) l = map (f x) l.
Proof. induction l as [|y l IH]; simpl; [reflexivity | now rewrite IH]. Qed.

(** The two grids of [np.meshgrid], zipped: latitudes by rows, longitudes
    along each row. *)
Lemma zip_with_meshgrid {A B C : Type} (f : A -> B -> C) (lats : list A)
    (lons : list B) :
  zip_with f (flat_map (fun v => repeat v (length lons)) lats)
             (concat (repeat lons (length lats)))
  = flat_map (fun phi => map (f phi) lons) lats.
Proof.
  induction lats as [|phi lats IH]; simpl; [reflexivity|].
  rewrite zip_with_app by apply repeat_length.
  now rewrite zip_with_repeat_l, IH.
Qed.

(** X12: the layout of the result of [insolation] for 1-d [lat] and [lon].
    For well-formed 1-d arrays of [ny] latitudes and [nx] longitudes the
    call returns, leaves the caller's arrays as they were, and its result
    has shape [(len(dates), ny, nx)]: the value at [(t, i, j)] is the
    insolation on day [dates[t]] at latitude [lat[i]] and longitude
    [lon[j]], so the latitude is the second axis and the longitude the
    third. *)
Theorem insolation_on_grid (dates : list Z) (lat lon : nat) (S : float)
    (h : gmap nat ndarray) (ny nx : nat) :
  shape (h !!! lat) = [ny] -> shape (h !!! lon) = [nx] ->
  wf_array (h !!! lat) -> wf_array (h !!! lon) ->
  insolation dates lat lon S h
  = (Ok (mk_array [length dates; ny; nx]
           (sol_grid S (map day_of_year dates)
                     (data (h !!! lat)) (data (h !!! lon)))),
     h).
Proof.
  intros Hlat Hlon Wlat Wlon.
  rewrite (insolation_1d dates lat lon S h ny nx) by assumption.
  unfold sol_grid. rewrite flat_map_map. do 3 f_equal.
  apply flat_map_ext_all. intros t.
  unfold wf_array in *. rewrite Hlat in Wlat. rewrite Hlon in Wlon.
  cbn [size_of fold_right] in Wlat, Wlon. rewrite Nat.mul_1_r in Wlat, Wlon.
  rewrite <- Wlat, <- Wlon. apply zip_with_meshgrid.
Qed.

Lemma insolation_on_grid_witness :
  let h : gmap nat ndarray :=
    <[1 := mk_array [2] [Some 0%R; Some 45%R]]>
      (<[2 := mk_array [3] [Some 0%R; Some 90%R; Some 180%R]]> ∅) in
  insolation [Timestamp 2000 3 21] 1 2 (Some 1%R) h
  = (Ok (mk_array [1; 2; 3]
           (sol_grid (Some 1%R) (map day_of_year [Timestamp 2000 3 21])
                     (data (h !!! 1)) (data (h !!! 2)))),
     h).
Proof.
  intros h.
  apply (insolation_on_grid [Timestamp 2000 3 21] 1 2 (Some 1%R) h 2 3);
    reflexivity.
Defined.

(* ================================================================== *)
(** * Longitudes a full turn apart *)
(* ================================================================== *)

Lemma sol_at_longitude_period (S : float) (day : R) (phi l : float) :
  sol_at S day phi (lift1 (fun r => r + 360)%R l) = sol_at S day phi l.
Proof.
  unfold sol_at. destruct l as [l|]; [|reflexivity].
  cbn [lift1 fadd lift2 fcos]. do 6 f_equal.
  replace (2 * PI * (day + (l + 360) / 360))%R
    with (2 * PI * (day + l / 360) + 2 * INR 1 * PI)%R
    by (simpl; field).
  apply cos_period.
Qed.

Lemma zip_with_map_r {A B B' C : Type} (f : A -> B' -> C) (g : B -> B')
    (l1 : list A) (l2 : list B) :
  zip_with f l1 (map g l2) = zip_with (fun x y => f x (g y)) l1 l2.
Proof.
  revert l2; induction l1 as [|x l1 IH]; intros [|y l2]; simpl;
    try reflexivity.
  now rewrite IH.
Qed.

Lemma zip_with_ext_all {A B C : Type} (f g : A -> B -> C) (l1 : list A)
    (l2 : list B) :
  (forall x y, f x y = g x y) -> zip_with f l1 l2 = zip_with g l1 l2.
Proof.
  intros H. revert l2; induction l1 as [|x l1 IH]; intros [|y l2]; simpl;
    try reflexivity.
  now rewrite H, IH.
Qed.

Lemma concat_repeat_map {A B : Type} (g : A -> B) (l : list A) (n : nat) :
  concat (repeat (map g l) n) = map g (concat (repeat l n)).
Proof.
  induction n as [|n IH]; simpl; [reflexivity|]. now rewrite map_app, IH.
Qed.

(** X13: [insolation] has period 360 in the longitude.  For well-formed
    1-d arrays, or 2-d arrays of one shape, adding 360 to every longitude
    of the caller's [lon] array leaves the returned array as it is. *)
Theorem insolation_longitude_period (dates : list Z) (lat lon : nat)
    (S : float) (h : gmap nat ndarray) :
  lat <> lon ->
  wf_array (h !!! lat) -> wf_array (h !!! lon) ->
  (ndim (h !!! lat) = 1 /\ ndim (h !!! lon) = 1)
  \/ (ndim (h !!! lat) = 2 /\ shape (h !!! lon) = shape (h !!! lat)) ->
  fst (insolation dates lat lon S
         (<[lon := np_map (lift1 (fun r => r + 360)%R) (h !!! lon)]> h))
  = fst (insolation dates lat lon S h).
Proof.
  intros Hne Wlat Wlon Hshape.
  set (h' := <[lon := np_map (lift1 (fun r => r + 360)%R) (h !!! lon)]> h).
  assert (Hlat' : h' !!! lat = h !!! lat)
    by (unfold h'; now rewrite lookup_total_insert_ne).
  assert (Hlon' : h' !!! lon = np_map (lift1 (fun r => r + 360)%R) (h !!! lon))
    by (unfold h'; now rewrite lookup_total_insert_eq).
  assert (Wlon' : wf_array (h' !!! lon)).
  { rewrite Hlon'. unfold wf_array, np_map in *. cbn [shape data].
    now rewrite length_map. }
  unfold ndim in Hshape.
  destruct Hshape as [[Hr1 Hr2] | [Hr Hs]].
  - destruct (shape (h !!! lat)) as [|ny [|? ?]] eqn:Elat; try discriminate.
    destruct (shape (h !!! lon)) as [|nx [|? ?]] eqn:Elon; try discriminate.
    rewrite (insolation_1d dates lat lon S h ny nx) by assumption.
    rewrite (insolation_1d dates lat lon S h' ny nx);
      [| now rewrite Hlat' | now rewrite Hlon' | now rewrite Hlat'
       | assumption].
    cbn [fst]. do 2 f_equal. rewrite Hlat', Hlon'. cbn [np_map data].
    apply flat_map_ext_all. intros t.
    rewrite concat_repeat_map, zip_with_map_r.
    apply zip_with_ext_all. intros x y. apply sol_at_longitude_period.
  - destruct (shape (h !!! lat)) as [|a [|b [|? ?]]] eqn:Elat;
      try discriminate.
    rewrite (insolation_2d dates lat lon S h a b) by assumption.
    rewrite (insolation_2d dates lat lon S h' a b);
      [| now rewrite Hlat' | now rewrite Hlon' | now rewrite Hlat'
       | assumption].
    cbn [fst]. do 2 f_equal. rewrite Hlat', Hlon'. cbn [np_map data].
    apply flat_map_ext_all. intros t.
    rewrite zip_with_map_r.
    apply zip_with_ext_all. intros x y. apply sol_at_longitude_period.
Qed.

Lemma insolation_longitude_period_witness :
  let h : gmap nat ndarray :=
    <[1 := mk_array [2] [Some 0%R; Some 45%R]]>
      (<[2 := mk_array [3] [Some 0%R; Some 90%R; Some 180%R]]> ∅) in
  fst (insolation [Timestamp 2000 3 21] 1 2 (Some 1%R)
         (<[2 := np_map (lift1 (fun r => r + 360)%R) (h !!! 2)]> h))
  = fst (insolation [Timestamp 2000 3 21] 1 2 (Some 1%R) h).
Proof.
  intros h.
  apply (insolation_longitude_period [Timestamp 2000 3 21] 1 2 (Some 1%R) h);
    [lia | reflexivity | reflexivity | left; split; reflexivity].
Defined.

(* ================================================================== *)
(** * Two calls with the same 2-d arrays *)
(* ================================================================== *)

(** X14: with 2-d arrays, [insolation] cannot be called twice on the same
    [lat].  For well-formed 2-d arrays of one shape, the second of two
    calls with the same references returns the insolation at the
    latitudes [lat * pi / 180]: it reads the array that the first call
    has scaled, and scales it once more. *)
Theorem insolation_called_twice (dates : list Z) (lat lon : nat) (S : float)
    (h : gmap nat ndarray) (a b : nat) :
  lat <> lon ->
  shape (h !!! lat) = [a; b] -> shape (h !!! lon) = [a; b] ->
  wf_array (h !!! lat) -> wf_array (h !!! lon) ->
  insolation dates lat lon S (snd (insolation dates lat lon S h))
  = (Ok (mk_array [length dates; a; b]
           (flat_map (fun t =>
                        zip_with (sol_at S (day_of_year t))
                                 (data (scale_lat (h !!! lat)))
                                 (data (h !!! lon)))
                     dates)),
     <[lat := scale_lat (scale_lat (h !!! lat))]> h).
Proof.
  intros Hne Hlat Hlon Wlat Wlon.
  rewrite (insolation_2d dates lat lon S h a b) by assumption. cbn [snd].
  set (h1 := <[lat := scale_lat (h !!! lat)]> h).
  assert (Hlat1 : h1 !!! lat = scale_lat (h !!! lat))
    by (unfold h1; now rewrite lookup_total_insert_eq).
  assert (Hlon1 : h1 !!! lon = h !!! lon)
    by (unfold h1; rewrite lookup_total_insert_ne; auto).
  rewrite (insolation_2d dates lat lon S h1 a b).
  - rewrite Hlat1, Hlon1. f_equal. unfold h1. apply insert_insert_eq.
  - now rewrite Hlat1.
  - now rewrite Hlon1.
  - rewrite Hlat1. unfold wf_array, scale_lat, np_map in *.
    cbn [shape data]. now rewrite length_map.
  - now rewrite Hlon1.
Qed.

Lemma insolation_called_twice_witness :
  let h : gmap nat ndarray :=
    <[1 := mk_array [1; 2] [Some 30%R; Some 45%R]]>
      (<[2 := mk_array [1; 2] [Some 0%R; Some 90%R]]> ∅) in
  insolation [Timestamp 2000 3 21] 1 2 (Some 1%R)
    (snd (insolation [Timestamp 2000 3 21] 1 2 (Some 1%R) h))
  = (Ok (mk_array [1; 1; 2]
           (flat_map (fun t =>
                        zip_with (sol_at (Some 1%R) (day_of_year t))
                                 (data (scale_lat (h !!! 1)))
                                 (data (h !!! 2)))
                     [Timestamp 2000 3 21])),
     <[1 := scale_lat (scale_lat (h !!! 1))]> h).
Proof.
  intros h.
  apply (insolation_called_twice [Timestamp 2000 3 21] 1 2 (Some 1%R) h 1 2);
    [lia | reflexivity | reflexivity | reflexivity | reflexivity].
Defined.
(* ================================================================== *)
(** * Samples with missing values *)
(* ================================================================== *)

Lemma in_enumerate_from {A : Type} (l : list A) (k j : nat) (x : A) :
  In (j, x) (combine (seq k (length l)) l)
  <-> k <= j /\ l !! (j - k) = Some x.
Proof.
  revert k; induction l as [|y l IH]; intros k; simpl.
  - split; [intros [] | intros [_ H]; discriminate].
  - rewrite IH. split.
    + intros [E | [Hk Hl]].
      * injection E as <- <-. rewrite Nat.sub_diag. split; [lia | reflexivity].
      * split; [lia|]. replace (j - k) with (S (j - S k)) by lia. exact Hl.
    + intros [Hk Hl]. destruct (Nat.eq_dec j k) as [->|Hne].
      * left. rewrite Nat.sub_diag in Hl. simpl in Hl. now injection Hl as ->.
      * right. split; [lia|].
        replace (j - k) with (S (j - S k)) in Hl by lia. exact Hl.
Qed.

Lemma in_enumerate {A : Type} (l : list A) (j : nat) (x : A) :
  In (j, x) (enumerate l) <-> l !! j = Some x.
Proof.
  unfold enumerate. rewrite in_enumerate_from, Nat.sub_0_r.
  split; [now intros [_ H] | intros H; split; [lia | exact H]].
Qed.

Lemma filter_is_nan_nonempty (row : list float) (i : nat) :
  In i (map (fun _ => i) (List.filter is_nan row))
  <-> existsb is_nan row = true.
Proof.
  induction row as [|x row IH]; simpl; [split; [intros [] | discriminate]|].
  destruct (is_nan x); simpl; [split; auto | exact IH].
Qed.

(** The rows that are marked: those that hold a NaN, or whose fraction of
    NaN reaches the threshold. *)
Lemma marked_rows (threshold : option R) (a : ndarray) (i : nat) :
  In i (match threshold with
        | None => nan_row_indices a
        | Some thr => dense_nan_rows thr a
        end)
  <-> exists row, rows_of a !! i = Some row /\ bad_row threshold row = true.
Proof.
  destruct threshold as [thr|]; cbn [bad_row].
  - unfold dense_nan_rows. rewrite in_map_iff. split.
    + intros ([j row] & <- & Hin). apply filter_In in Hin as [Hin Hp].
      apply in_enumerate in Hin. eauto.
    + intros (row & Hrow & Hp). exists (i, row). split; [reflexivity|].
      apply filter_In. split; [now apply in_enumerate | exact Hp].
  - unfold nan_row_indices. rewrite in_flat_map. split.
    + intros ([j row] & Hin & Hi). cbn [fst snd] in Hi.
      assert (i = j) as ->
        by (apply in_map_iff in Hi as (? & ? & _); congruence).
      apply in_enumerate in Hin. apply filter_is_nan_nonempty in Hi. eauto.
    + intros (row & Hrow & Hp). exists (i, row).
      split; [now apply in_enumerate|]. now apply filter_is_nan_nonempty.
Qed.

Lemma in_list_set (i : nat) (l : list nat) : In i (list_set l) <-> In i l.
Proof.
  unfold list_set.
  rewrite <- !list_elem_of_In, elem_of_elements, elem_of_list_to_set.
  reflexivity.
Qed.

(** Rows chosen by their number and pairs of rows chosen by their
    content. *)
Lemma filter_rows_by_number (keep : nat -> bool)
    (test : list float * list float -> bool) (rows_p : list (list float)) :
  forall (rows_t : list (list float)) (k : nat),
    length rows_p = length rows_t ->
    (forall i a b, rows_p !! i = Some a -> rows_t !! i = Some b ->
                   keep (k + i) = test (a, b)) ->
    map snd (List.filter (fun p => keep (fst p))
                         (combine (seq k (length rows_p)) rows_p))
    = map fst (List.filter test (combine rows_p rows_t))
    /\ map snd (List.filter (fun p => keep (fst p))
                            (combine (seq k (length rows_t)) rows_t))
       = map snd (List.filter test (combine rows_p rows_t)).
Proof.
  induction rows_p as [|a rows_p IH]; intros [|b rows_t] k Hlen Hkeep;
    try discriminate; [split; reflexivity|].
  cbn [length seq combine List.filter fst].
  pose proof (Hkeep 0 a b eq_refl eq_refl) as H0. rewrite Nat.add_0_r in H0.
  destruct (IH rows_t (S k)) as [IHp IHt].
  - simpl in Hlen. lia.
  - intros i a' b' Ha Hb. rewrite <- (Hkeep (S i) a' b' Ha Hb). f_equal. lia.
  - rewrite H0. destruct (test (a, b)); cbn [map fst snd];
      now rewrite IHp, IHt.
Qed.

Lemma reshape_rows (n : nat) (rest : list nat) (d : list float) :
  0 < n -> length d = n * size_of rest ->
  reshape_infer [n] [] (mk_array (n :: rest) d)
  = Ok (mk_array [n; size_of rest] d).
Proof.
  intros Hn Hd. unfold reshape_infer. cbn [size_of fold_right data].
  rewrite !Nat.mul_1_r, Hd.
  destruct (Nat.eqb_spec n 0); [lia|].
  rewrite Nat.mul_comm, Nat.Div0.mod_mul, Nat.div_mul by lia. reflexivity.
Qed.

Lemma in_unit_interval_true (thr : R) :
  (0 <= thr <= 1)%R -> in_unit_interval thr = true.
Proof.
  intros [H0 H1]. unfold in_unit_interval.
  destruct (Rle_dec 0 thr); [|contradiction].
  destruct (Rle_dec thr 1); [reflexivity | contradiction].
Qed.

Lemma filter_pairs_lengths (test : list float * list float -> bool)
    (kp kt : nat) (rows_p rows_t : list (list float)) :
  Forall (fun c => length c = kp) rows_p ->
  Forall (fun c => length c = kt) rows_t ->
  Forall (fun c => length c = kp)
         (map fst (List.filter test (combine rows_p rows_t)))
  /\ Forall (fun c => length c = kt)
            (map snd (List.filter test (combine rows_p rows_t))).
Proof.
  intros Hp Ht. split; apply Forall_map, List.Forall_forall;
    intros [a b] Hin; apply filter_In in Hin as [Hin _]; cbn [fst snd].
  - apply in_combine_l in Hin. rewrite List.Forall_forall in Hp. now apply Hp.
  - apply in_combine_r in Hin. rewrite List.Forall_forall in Ht. now apply Ht.
Qed.

(** What [delete_nan_samples] returns for arrays with the same number of
    samples: the samples whose two rows are both kept, in their order. *)
Lemma delete_nan_samples_kept (predictors targets : nat)
    (threshold : option R) (h : gmap nat ndarray) (n : nat)
    (rp rt : list nat) :
  threshold_in_range threshold -> 0 < n ->
  shape (h !!! predictors) = n :: rp -> shape (h !!! targets) = n :: rt ->
  wf_array (h !!! predictors) -> wf_array (h !!! targets) ->
  let kept :=
    List.filter (kept_pair threshold)
      (combine (chunks (size_of rp) n (data (h !!! predictors)))
               (chunks (size_of rt) n (data (h !!! targets)))) in
  delete_nan_samples predictors targets false threshold h
  = (Ok (mk_array (length kept :: rp) (concat (map fst kept)),
         mk_array (length kept :: rt) (concat (map snd kept))),
     h).
Proof.
  intros Hthr Hn Hsp Hst Wp Wt kept. unfold delete_nan_samples.
  replace (match threshold with
           | Some thr => negb (in_unit_interval thr)
           | None => false
           end) with false
    by (destruct threshold as [thr|]; [|reflexivity];
        now rewrite in_unit_interval_true).
  cbv iota. f_equal.
  unfold wf_array in Wp, Wt. subst kept.
  destruct (h !!! predictors) as [sp dp], (h !!! targets) as [st dt].
  cbn [shape data] in *. subst sp st.
  change (size_of (n :: rp)) with (n * size_of rp) in Wp.
  change (size_of (n :: rt)) with (n * size_of rt) in Wt.
  set (kp := size_of rp) in *. set (kt := size_of rt) in *.
  cbn [shape0 shape mbind result_bind].
  rewrite !reshape_rows by assumption. fold kp kt.
  cbn [mbind result_bind].
  set (P := mk_array [n; kp] dp). set (T := mk_array [n; kt] dt).
  set (bad := list_set
                (match threshold with
                 | Some thr => dense_nan_rows thr P
                 | None => nan_row_indices P
                 end ++
                 match threshold with
                 | Some thr => dense_nan_rows thr T
                 | None => nan_row_indices T
                 end)).
  set (rows_p := chunks kp n dp). set (rows_t := chunks kt n dt).
  assert (Hrp : rows_of P = rows_p) by reflexivity.
  assert (Hrt : rows_of T = rows_t) by reflexivity.
  assert (Hcp : length rows_p = n) by apply chunks_count.
  assert (Hct : length rows_t = n) by apply chunks_count.
  assert (Hbad : forall i, In i bad <->
            (exists row, rows_p !! i = Some row /\ bad_row threshold row = true)
            \/ (exists row, rows_t !! i = Some row
                           /\ bad_row threshold row = true)).
  { intros i. unfold bad. rewrite in_list_set, in_app_iff.
    rewrite <- Hrp, <- Hrt.
    rewrite <- (marked_rows threshold P i), <- (marked_rows threshold T i).
    destruct threshold; reflexivity. }
  assert (Hrange : forallb (fun i => i <? n) bad = true).
  { apply forallb_forall. intros i Hi. apply Nat.ltb_lt.
    apply Hbad in Hi as [(row & Hrow & _) | (row & Hrow & _)];
      apply lookup_lt_Some in Hrow; lia. }
  destruct (filter_rows_by_number
              (fun i => negb (bool_decide (i ∈ bad)))
              (kept_pair threshold) rows_p rows_t 0) as [Ekp Ekt].
  { lia. }
  { intros i a b Ha Hb. cbn [Nat.add]. unfold kept_pair. cbn [fst snd].
    rewrite <- negb_orb. f_equal.
    destruct (bad_row threshold a) eqn:Ba.
    - apply bool_decide_eq_true_2, list_elem_of_In, Hbad. left. eauto.
    - destruct (bad_row threshold b) eqn:Bb.
      + apply bool_decide_eq_true_2, list_elem_of_In, Hbad. right. eauto.
      + apply bool_decide_eq_false_2. intros Hin.
        apply list_elem_of_In, Hbad in Hin
          as [(row & Hrow & Hr) | (row & Hrow & Hr)]; congruence. }
  unfold np_delete. change (shape P) with [n; kp].
  change (shape T) with [n; kt]. cbv iota. rewrite Hrange.
  rewrite Hrp, Hrt. unfold enumerate. rewrite Ekp, Ekt.
  cbn [mbind result_bind shape0 shape tail].
  destruct (filter_pairs_lengths (kept_pair threshold) kp kt rows_p rows_t)
    as [Lp Lt]; [now apply chunks_lengths | now apply chunks_lengths|].
  unfold reshape. cbn [data size_of fold_right]. fold (size_of rp) (size_of rt).
  fold kp kt.
  rewrite (length_concat_const kp _ Lp), (length_concat_const kt _ Lt).
  rewrite !length_map, !Nat.eqb_refl. reflexivity.
Qed.

(** X15: a threshold outside [0, 1] is refused before anything is done.
    [delete_nan_samples] then raises [ValueError], whatever the arrays,
    and leaves them as they were, also when [large_fill_value] is set. *)
Theorem delete_nan_samples_threshold_out_of_range (predictors targets : nat)
    (large_fill_value : bool) (thr : R) (h : gmap nat ndarray) :
  (thr < 0 \/ 1 < thr)%R ->
  delete_nan_samples predictors targets large_fill_value (Some thr) h
  = (Raise ValueError, h).
Proof.
  intros Hthr. unfold delete_nan_samples, in_unit_interval.
  destruct (Rle_dec 0 thr); [|reflexivity].
  destruct (Rle_dec thr 1); [lra | reflexivity].
Qed.

Lemma delete_nan_samples_threshold_out_of_range_witness :
  delete_nan_samples 1 2 true (Some 1.5%R)
    (<[1 := mk_array [1] [Some 1e30%R]]> (<[2 := mk_array [1] [None]]> ∅))
  = (Raise ValueError,
     <[1 := mk_array [1] [Some 1e30%R]]> (<[2 := mk_array [1] [None]]> ∅)).
Proof.
  apply delete_nan_samples_threshold_out_of_range. right. lra.
Defined.

(** X16: which samples [delete_nan_samples] keeps.  For well-formed arrays
    with the same number [n > 0] of samples, and a threshold that is
    [None] or in [0, 1], the call returns two new arrays and leaves the
    caller's arrays as they were.  A sample is kept when neither its
    predictors nor its targets are marked: without a threshold a row is
    marked when it holds a NaN, with a threshold when its fraction of NaN
    is at least the threshold.  The samples that are kept stay in their
    order and paired, and the other axes keep their lengths. *)
Theorem delete_nan_samples_keeps_unmarked (predictors targets : nat)
    (threshold : option R) (h : gmap nat ndarray) (n : nat)
    (rp rt : list nat) :
  threshold_in_range threshold -> 0 < n ->
  shape (h !!! predictors) = n :: rp -> shape (h !!! targets) = n :: rt ->
  wf_array (h !!! predictors) -> wf_array (h !!! targets) ->
  let kept :=
    List.filter (kept_pair threshold)
      (combine (chunks (size_of rp) n (data (h !!! predictors)))
               (chunks (size_of rt) n (data (h !!! targets)))) in
  delete_nan_samples predictors targets false threshold h
  = (Ok (mk_array (length kept :: rp) (concat (map fst kept)),
         mk_array (length kept :: rt) (concat (map snd kept))),
     h).
Proof. apply delete_nan_samples_kept. Qed.

Lemma delete_nan_samples_keeps_unmarked_witness :
  let h : gmap nat ndarray :=
    <[1 := mk_array [3; 2] [Some 1%R; Some 2%R; None; Some 4%R;
                            Some 5%R; Some 6%R]]>
      (<[2 := mk_array [3] [Some 7%R; Some 8%R; None]]> ∅) in
  delete_nan_samples 1 2 false None h
  = (Ok (mk_array [1; 2] [Some 1%R; Some 2%R], mk_array [1] [Some 7%R]), h).
Proof.
  intros h.
  apply (delete_nan_samples_keeps_unmarked 1 2 None h 3 [2] []);
    try reflexivity. lia.
Defined.

Lemma existsb_is_nan_false (row : list float) :
  existsb is_nan row = false <-> nan_free row.
Proof.
  unfold nan_free. induction row as [|x row IH]; simpl.
  - split; [constructor | reflexivity].
  - rewrite orb_false_iff, IH. split.
    + intros [Hx Hrow]. constructor; [|assumption].
      intros ->. discriminate.
    + intros H. inversion H as [|? ? Hx Hrow]; subst. split; [|assumption].
      destruct x; [reflexivity | now contradiction Hx].
Qed.

(** X17: without a threshold, nothing that [delete_nan_samples] returns is
    NaN.  For well-formed arrays with the same number [n > 0] of samples,
    the two arrays that are returned hold no NaN, and they have the same
    number of samples. *)
Theorem delete_nan_samples_result_nan_free (predictors targets : nat)
    (h : gmap nat ndarray) (n : nat) (rp rt : list nat) :
  0 < n ->
  shape (h !!! predictors) = n :: rp -> shape (h !!! targets) = n :: rt ->
  wf_array (h !!! predictors) -> wf_array (h !!! targets) ->
  exists p t,
    fst (delete_nan_samples predictors targets false None h) = Ok (p, t)
    /\ nan_free (data p) /\ nan_free (data t)
    /\ shape0 p = shape0 t.
Proof.
  intros Hn Hsp Hst Wp Wt.
  rewrite (delete_nan_samples_kept predictors targets None h n rp rt)
    by (assumption || exact I).
  eexists. eexists. split; [reflexivity|]. cbn [data shape0 shape].
  split; [|split; [|reflexivity]]; unfold nan_free;
    apply Forall_concat, Forall_map, List.Forall_forall;
    intros [a b] Hin; apply filter_In in Hin as [_ Hk];
    unfold kept_pair in Hk; cbn [fst snd bad_row] in *;
    apply andb_true_iff in Hk as [Ha Hb];
    apply negb_true_iff in Ha, Hb;
    now apply existsb_is_nan_false.
Qed.

Lemma delete_nan_samples_result_nan_free_witness :
  let h : gmap nat ndarray :=
    <[1 := mk_array [3; 2] [Some 1%R; Some 2%R; None; Some 4%R;
                            Some 5%R; Some 6%R]]>
      (<[2 := mk_array [3] [Some 7%R; Some 8%R; None]]> ∅) in
  exists p t,
    fst (delete_nan_samples 1 2 false None h) = Ok (p, t)
    /\ nan_free (data p) /\ nan_free (data t)
    /\ shape0 p = shape0 t.
Proof.
  intros h.
  apply (delete_nan_samples_result_nan_free 1 2 h 3 [2] []);
    try reflexivity. lia.
Defined.

Lemma map_fst_combine {A B : Type} (l1 : list A) (l2 : list B) :
  length l1 = length l2 -> map fst (combine l1 l2) = l1.
Proof.
  revert l2; induction l1 as [|x l1 IH]; intros [|y l2] H; simpl in *;
    try discriminate; [reflexivity|].
  f_equal. apply IH. lia.
Qed.

Lemma map_snd_combine {A B : Type} (l1 : list A) (l2 : list B) :
  length l1 = length l2 -> map snd (combine l1 l2) = l2.
Proof.
  revert l2; induction l1 as [|x l1 IH]; intros [|y l2] H; simpl in *;
    try discriminate; [reflexivity|].
  f_equal. apply IH. lia.
Qed.

Lemma filter_all {A : Type} (test : A -> bool) (l : list A) :
  (forall x, In x l -> test x = true) -> List.filter test l = l.
Proof.
  induction l as [|x l IH]; intros H; simpl; [reflexivity|].
  rewrite (H x) by now left. f_equal. apply IH. intros y Hy. apply H.
  now right.
Qed.

Lemma filter_none {A : Type} (test : A -> bool) (l : list A) :
  (forall x, In x l -> test x = false) -> List.filter test l = [].
Proof.
  induction l as [|x l IH]; intros H; simpl; [reflexivity|].
  rewrite (H x) by now left. apply IH. intros y Hy. apply H. now right.
Qed.

Lemma filter_is_nan_nan_free (row : list float) :
  nan_free row -> List.filter is_nan row = [].
Proof.
  intros H. apply filter_none. intros x Hx.
  unfold nan_free in H. rewrite List.Forall_forall in H.
  specialize (H x Hx). destruct x; [reflexivity | contradiction].
Qed.

(** A row without NaN is marked only by the threshold zero. *)
Lemma bad_row_nan_free (threshold : option R) (row : list float) :
  match threshold with
  | Some thr => (0 < thr)%R
  | None => True
  end ->
  nan_free row -> bad_row threshold row = false.
Proof.
  intros Hthr Hrow. destruct threshold as [thr|]; cbn [bad_row].
  - unfold nan_fraction. destruct row as [|x row]; [reflexivity|].
    rewrite filter_is_nan_nan_free by assumption.
    cbn [length INR at_least]. unfold Rdiv. rewrite Rmult_0_l.
    destruct (Rle_dec thr 0); [lra | reflexivity].
  - now apply existsb_is_nan_false.
Qed.

(** X18: arrays without NaN come back as they are.  For well-formed arrays
    with the same number [n > 0] of samples and no NaN, and no threshold
    or a threshold in (0, 1], [delete_nan_samples] returns arrays equal to
    the two it was given. *)
Theorem delete_nan_samples_nothing_to_delete (predictors targets : nat)
    (threshold : option R) (h : gmap nat ndarray) (n : nat)
    (rp rt : list nat) :
  match threshold with
  | Some thr => (0 < thr <= 1)%R
  | None => True
  end ->
  0 < n ->
  shape (h !!! predictors) = n :: rp -> shape (h !!! targets) = n :: rt ->
  wf_array (h !!! predictors) -> wf_array (h !!! targets) ->
  nan_free (data (h !!! predictors)) -> nan_free (data (h !!! targets)) ->
  delete_nan_samples predictors targets false threshold h
  = (Ok (h !!! predictors, h !!! targets), h).
Proof.
  intros Hthr Hn Hsp Hst Wp Wt Fp Ft.
  rewrite (delete_nan_samples_kept predictors targets threshold h n rp rt);
    try assumption; [|destruct threshold; [cbn; lra | exact I]].
  unfold wf_array in Wp, Wt. rewrite Hsp in Wp. rewrite Hst in Wt.
  change (size_of (n :: rp)) with (n * size_of rp) in Wp.
  change (size_of (n :: rt)) with (n * size_of rt) in Wt.
  rewrite filter_all.
  - rewrite length_combine, !chunks_count, Nat.min_id.
    rewrite map_fst_combine, map_snd_combine by now rewrite !chunks_count.
    rewrite !concat_chunks by assumption.
    rewrite <- Hsp, <- Hst.
    now destruct (h !!! predictors), (h !!! targets).
  - intros [a b] Hin. unfold kept_pair. cbn [fst snd].
    assert (Hthr' : match threshold with
                    | Some thr => (0 < thr)%R
                    | None => True
                    end) by (destruct threshold; [tauto | exact I]).
    pose proof (Forall_chunks _ (size_of rp) n _ Fp) as Ha.
    pose proof (Forall_chunks _ (size_of rt) n _ Ft) as Hb.
    rewrite List.Forall_forall in Ha, Hb.
    rewrite !bad_row_nan_free; try assumption; [reflexivity| |].
    + apply Hb. eapply in_combine_r. exact Hin.
    + apply Ha. eapply in_combine_l. exact Hin.
Qed.

Lemma delete_nan_samples_nothing_to_delete_witness :
  let h : gmap nat ndarray :=
    <[1 := mk_array [2; 2] [Some 1%R; Some 2%R; Some 3%R; Some 4%R]]>
      (<[2 := mk_array [2] [Some 7%R; Some 8%R]]> ∅) in
  delete_nan_samples 1 2 false (Some 0.5%R) h
  = (Ok (h !!! 1, h !!! 2), h).
Proof.
  intros h.
  apply (delete_nan_samples_nothing_to_delete 1 2 (Some 0.5%R) h 2 [2] []);
    try reflexivity; try lia; try lra.
  - repeat constructor; discriminate.
  - repeat constructor; discriminate.
Defined.

(** X19: the threshold zero deletes every sample.  The test is
    [fraction >= threshold], so with [threshold=0.] a sample without any
    NaN is deleted too: for well-formed arrays with the same number
    [n > 0] of samples, and predictors with at least one value per
    sample, the two arrays that are returned are empty. *)
Theorem delete_nan_samples_threshold_zero (predictors targets : nat)
    (h : gmap nat ndarray) (n : nat) (rp rt : list nat) :
  0 < n -> 0 < size_of rp ->
  shape (h !!! predictors) = n :: rp -> shape (h !!! targets) = n :: rt ->
  wf_array (h !!! predictors) -> wf_array (h !!! targets) ->
  delete_nan_samples predictors targets false (Some 0%R) h
  = (Ok (mk_array (0 :: rp) [], mk_array (0 :: rt) []), h).
Proof.
  intros Hn Hk Hsp Hst Wp Wt.
  rewrite (delete_nan_samples_kept predictors targets (Some 0%R) h n rp rt);
    try assumption; [|cbn; lra].
  unfold wf_array in Wp. rewrite Hsp in Wp.
  change (size_of (n :: rp)) with (n * size_of rp) in Wp.
  rewrite filter_none; [reflexivity|].
  intros [a b] Hin. apply in_combine_l in Hin.
  pose proof (chunks_lengths (size_of rp) n _ Wp) as Hlen.
  rewrite List.Forall_forall in Hlen. specialize (Hlen a Hin).
  unfold kept_pair. cbn [fst snd bad_row].
  replace (at_least 0 (nan_fraction a)) with true; [reflexivity|].
  unfold nan_fraction. destruct a as [|x a]; [simpl in Hlen; lia|].
  cbn [at_least].
  destruct (Rle_dec 0 _) as [|Hneg]; [reflexivity|]. exfalso. apply Hneg.
  apply Rle_mult_inv_pos; [apply pos_INR|]. apply lt_0_INR. simpl. lia.
Qed.

Lemma delete_nan_samples_threshold_zero_witness :
  let h : gmap nat ndarray :=
    <[1 := mk_array [2; 2] [Some 1%R; Some 2%R; Some 3%R; Some 4%R]]>
      (<[2 := mk_array [2] [Some 7%R; Some 8%R]]> ∅) in
  delete_nan_samples 1 2 false (Some 0%R) h
  = (Ok (mk_array [0; 2] [], mk_array [0] []), h).
Proof.
  intros h.
  apply (delete_nan_samples_threshold_zero 1 2 h 2 [2] []);
    try reflexivity; simpl; lia.
Defined.

Lemma fill_large_idempotent (x : float) :
  fill_large (fill_large x) = fill_large x.
Proof.
  destruct x as [r|]; [|reflexivity]. cbn [fill_large].
  destruct (Rle_dec 1e20 r) as [|H1] eqn:E1; [reflexivity|].
  destruct (Rle_dec r (-1e20)) as [|H2] eqn:E2; [reflexivity|].
  cbn [fill_large]. now rewrite E1, E2.
Qed.

Lemma np_map_fill_large_idempotent (a : ndarray) :
  np_map fill_large (np_map fill_large a) = np_map fill_large a.
Proof.
  unfold np_map. cbn [shape data]. f_equal. rewrite map_map.
  apply map_ext. intros x. apply fill_large_idempotent.
Qed.

Lemma fill_large_value (x : float) :
  match x with
  | Some r =>
      ((1e20 <= r \/ r <= -1e20)%R -> fill_large x = None)
      /\ ((-1e20 < r < 1e20)%R -> fill_large x = Some r)
  | None => fill_large x = None
  end.
Proof.
  destruct x as [r|]; [|reflexivity]. unfold fill_large.
  destruct (Rle_dec 1e20 r), (Rle_dec r (-1e20)); split; intros H;
    try reflexivity; lra.
Qed.

(** The heap that [delete_nan_samples] leaves with [large_fill_value]. *)
Lemma delete_nan_samples_filled_heap (predictors targets : nat)
    (threshold : option R) (h : gmap nat ndarray) :
  threshold_in_range threshold ->
  let h' := snd (delete_nan_samples predictors targets true threshold h) in
  h' !!! predictors = np_map fill_large (h !!! predictors)
  /\ h' !!! targets = np_map fill_large (h !!! targets)
  /\ forall l, l <> predictors -> l <> targets -> h' !! l = h !! l.
Proof.
  intros Hthr. unfold delete_nan_samples.
  replace (match threshold with
           | Some thr => negb (in_unit_interval thr)
           | None => false
           end) with false
    by (destruct threshold as [thr|]; [|reflexivity];
        now rewrite in_unit_interval_true).
  cbv iota. cbn [snd].
  destruct (Nat.eq_dec predictors targets) as [<-|Hne].
  - rewrite !lookup_total_insert_eq, np_map_fill_large_idempotent.
    repeat split. intros l Hl _. now rewrite !lookup_insert_ne by auto.
  - rewrite lookup_total_insert_eq.
    rewrite (lookup_total_insert_ne _ predictors targets) by assumption.
    rewrite (lookup_total_insert_ne _ targets predictors) by auto.
    rewrite lookup_total_insert_eq.
    repeat split. intros l Hl Hl'. now rewrite !lookup_insert_ne by auto.
Qed.

(** X20: [large_fill_value] changes the arrays of the caller.  With a
    threshold that is accepted, and whether the call returns or raises:
    without [large_fill_value] the caller's arrays are as they were; with
    it, the caller's predictors and targets keep their shapes, and of
    their values every number at or above [1e20], or at or below
    [-1e20], has become NaN, every number between stays what it was, and
    NaN stays NaN; every other array is untouched. *)
Theorem delete_nan_samples_fills_in_place (predictors targets : nat)
    (threshold : option R) (h : gmap nat ndarray) :
  threshold_in_range threshold ->
  snd (delete_nan_samples predictors targets false threshold h) = h
  /\ (let h' := snd (delete_nan_samples predictors targets true threshold h) in
      (forall l, l <> predictors -> l <> targets -> h' !! l = h !! l)
      /\ forall l, l = predictors \/ l = targets ->
           shape (h' !!! l) = shape (h !!! l)
           /\ length (data (h' !!! l)) = length (data (h !!! l))
           /\ (forall i r, data (h !!! l) !! i = Some (Some r) ->
                  (1e20 <= r \/ r <= -1e20)%R ->
                  data (h' !!! l) !! i = Some None)
           /\ (forall i r, data (h !!! l) !! i = Some (Some r) ->
                  (-1e20 < r < 1e20)%R ->
                  data (h' !!! l) !! i = Some (Some r))
           /\ (forall i, data (h !!! l) !! i = Some None ->
                  data (h' !!! l) !! i = Some None)).
Proof.
  intros Hthr. split.
  - unfold delete_nan_samples.
    replace (match threshold with
             | Some thr => negb (in_unit_interval thr)
             | None => false
             end) with false
      by (destruct threshold as [thr|]; [|reflexivity];
          now rewrite in_unit_interval_true).
    reflexivity.
  - destruct (delete_nan_samples_filled_heap predictors targets threshold h
                Hthr) as (Hp & Ht & Hrest).
    cbv zeta. split; [exact Hrest|].
    intros l Hl.
    assert (E : snd (delete_nan_samples predictors targets true threshold h)
                !!! l = np_map fill_large (h !!! l))
      by (destruct Hl as [-> | ->]; assumption).
    rewrite E. unfold np_map. cbn [shape data].
    split; [reflexivity|]. split; [apply length_map|].
    split; [|split].
    + intros i r Hi Hr. apply list_lookup_fmap_Some. exists (Some r).
      split; [|exact Hi]. symmetry.
      now apply (proj1 (fill_large_value (Some r))).
    + intros i r Hi Hr. apply list_lookup_fmap_Some. exists (Some r).
      split; [|exact Hi]. symmetry.
      now apply (proj2 (fill_large_value (Some r))).
    + intros i Hi. apply list_lookup_fmap_Some. exists None.
      split; [reflexivity | exact Hi].
Qed.

Lemma delete_nan_samples_fills_in_place_witness :
  let h : gmap nat ndarray :=
    <[1 := mk_array [2] [Some 1e30%R; Some 5%R]]>
      (<[2 := mk_array [2] [Some 1%R; Some (-1e20)%R]]> ∅) in
  let h' := snd (delete_nan_samples 1 2 true None h) in
  data (h' !!! 1) !! 0 = Some None
  /\ data (h' !!! 1) !! 1 = Some (Some 5%R)
  /\ data (h' !!! 2) !! 1 = Some None.
Proof.
  intros h h'.
  destruct (delete_nan_samples_fills_in_place 1 2 None h I)
    as (_ & _ & Hfill).
  destruct (Hfill 1 (or_introl eq_refl)) as (_ & _ & Hbig & Hkeep & _).
  destruct (Hfill 2 (or_intror eq_refl)) as (_ & _ & Hbig' & _ & _).
  split; [|split].
  - apply (Hbig 0 1e30%R); [reflexivity | lra].
  - apply (Hkeep 1 5%R); [reflexivity | lra].
  - apply (Hbig' 1 (-1e20)%R); [reflexivity | lra].
Defined.

(** X21: arrays without any sample are refused.  When the first axis of
    the predictors has length zero, [delete_nan_samples] raises
    [ValueError]: the length of the open axis of
    [reshape((0, -1))] cannot be found. *)
Theorem delete_nan_samples_no_sample (predictors targets : nat)
    (threshold : option R) (h : gmap nat ndarray) (rp : list nat) :
  threshold_in_range threshold ->
  shape (h !!! predictors) = 0 :: rp ->
  delete_nan_samples predictors targets false threshold h
  = (Raise ValueError, h).
Proof.
  intros Hthr Hsp. unfold delete_nan_samples.
  replace (match threshold with
           | Some thr => negb (in_unit_interval thr)
           | None => false
           end) with false
    by (destruct threshold as [thr|]; [|reflexivity];
        now rewrite in_unit_interval_true).
  cbv iota. unfold shape0. rewrite Hsp. reflexivity.
Qed.

Lemma delete_nan_samples_no_sample_witness :
  let h : gmap nat ndarray :=
    <[1 := mk_array [0; 2] []]> (<[2 := mk_array [0] []]> ∅) in
  delete_nan_samples 1 2 false None h = (Raise ValueError, h).
Proof.
  intros h. apply (delete_nan_samples_no_sample 1 2 None h [2]);
    [exact I | reflexivity].
Defined.
(* ================================================================== *)
(** * Training and test indices *)
(* ================================================================== *)

Lemma py_range_app (a b c : Z) :
  (a <= b <= c)%Z -> py_range a c = py_range a b ++ py_range b c.
Proof.
  intros H. unfold py_range.
  replace (Z.to_nat (c - a)) with (Z.to_nat (b - a) + Z.to_nat (c - b)) by lia.
  rewrite seq_app, map_app. f_equal.
  rewrite Nat.add_0_l, <- (Nat.add_0_r (Z.to_nat (b - a))) at 1.
  rewrite <- (fmap_add_seq (Z.to_nat (b - a))), <- list_fmap_compose.
  apply map_ext. intros i. cbn. lia.
Qed.

Lemma length_py_range (a b : Z) : length (py_range a b) = Z.to_nat (b - a).
Proof. unfold py_range. now rewrite length_map, length_seq. Qed.

Lemma Sorted_py_range (a b : Z) : Sorted Z.le (py_range a b).
Proof.
  unfold py_range. generalize (Z.to_nat (b - a)) as n. generalize 0 as k.
  intros k n; revert k; induction n as [|n IH]; intros k; simpl;
    constructor; [apply IH|].
  destruct n; simpl; constructor. lia.
Qed.

Lemma choice_in (k : nat) (l : list Z) :
  l <> [] -> exists i, choice k l = Ok i /\ In i l.
Proof.
  destruct l as [|x l]; [contradiction|]. intros _.
  eexists. split; [reflexivity|]. apply nth_In.
  apply Nat.mod_upper_bound. discriminate.
Qed.

Lemma py_remove_in (x : Z) (l : list Z) :
  In x l -> exists l', py_remove x l = Ok l' /\ Permutation l (x :: l').
Proof.
  induction l as [|y l IH]; intros Hin; [destruct Hin|]. simpl.
  destruct (Z.eqb_spec x y) as [->|Hne].
  - eexists. split; reflexivity.
  - destruct Hin as [->|Hin]; [contradiction|].
    destruct (IH Hin) as (l' & -> & Hp). cbn [mbind result_bind].
    eexists. split; [reflexivity|].
    rewrite Hp. apply perm_swap.
Qed.

(** The loop moves [count] indices from the train set to the test set. *)
Lemma draw_test_set_moves (draw : nat -> nat) (count : nat) :
  forall j train_set test_set,
    count <= length train_set ->
    exists train_set' test_set',
      draw_test_set draw j count train_set test_set
      = Ok (train_set', test_set')
      /\ Permutation (train_set' ++ test_set') (train_set ++ test_set)
      /\ length test_set' = length test_set + count.
Proof.
  induction count as [|count IH]; intros j train_set test_set Hc.
  - exists train_set, test_set. repeat split; [reflexivity | lia].
  - cbn [draw_test_set].
    destruct (choice_in (draw j) train_set) as (i & -> & Hin).
    { intros ->. simpl in Hc. lia. }
    cbn [mbind result_bind].
    destruct (py_remove_in i train_set Hin) as (train' & -> & Hp).
    cbn [mbind result_bind].
    destruct (IH (S j) train' (test_set ++ [i])) as (tr & te & -> & Hp' & Hl).
    { apply Permutation_length in Hp. simpl in Hp. lia. }
    exists tr, te. split; [reflexivity|]. split.
    + rewrite Hp', Hp. rewrite (Permutation_app_comm test_set [i]).
      cbn [app]. symmetry. apply Permutation_middle.
    + rewrite Hl, length_app. simpl. lia.
Qed.

(** With more draws than indices the train set runs out. *)
Lemma draw_test_set_runs_out (draw : nat -> nat) (count : nat) :
  forall j train_set test_set,
    length train_set < count ->
    draw_test_set draw j count train_set test_set = Raise IndexError.
Proof.
  induction count as [|count IH]; intros j train_set test_set Hc; [lia|].
  cbn [draw_test_set]. destruct train_set as [|x train_set]; [reflexivity|].
  destruct (choice_in (draw j) (x :: train_set)) as (i & -> & Hin);
    [discriminate|].
  cbn [mbind result_bind].
  destruct (py_remove_in i (x :: train_set) Hin) as (train' & -> & Hp).
  cbn [mbind result_bind]. apply IH.
  apply Permutation_length in Hp. simpl in Hp, Hc. lia.
Qed.

(** X22: the two lists split the indices.  For each of the methods
    ['first'], ['last'] and ['random'], whatever the generator draws, when
    [0 <= test_size <= n_sample] the call returns a train list and a test
    list that together hold every index of [range(n_sample)] exactly once;
    the test list has [test_size] indices and is in increasing order. *)
Theorem train_test_split_ind_partition (draw : nat -> nat)
    (n_sample test_size : Z) (method : string) :
  In method ["first"; "last"; "random"]%string ->
  (0 <= test_size <= n_sample)%Z ->
  exists train_set test_set,
    train_test_split_ind draw n_sample test_size method
    = Ok (train_set, test_set)
    /\ Permutation (train_set ++ test_set) (py_range 0 n_sample)
    /\ length test_set = Z.to_nat test_size
    /\ Sorted Z.le test_set.
Proof.
  intros Hm Hs. unfold train_test_split_ind.
  destruct Hm as [<- | [<- | [<- | []]]];
    cbn [String.eqb Ascii.eqb Bool.eqb].
  - eexists. eexists. split; [reflexivity|]. split; [|split].
    + rewrite (py_range_app 0 test_size n_sample) by lia.
      apply Permutation_app_comm.
    + rewrite length_py_range. lia.
    + apply Sorted_py_range.
  - eexists. eexists. split; [reflexivity|]. split; [|split].
    + now rewrite (py_range_app 0 (n_sample - test_size) n_sample) by lia.
    + rewrite length_py_range. lia.
    + apply Sorted_py_range.
  - destruct (draw_test_set_moves draw (Z.to_nat test_size) 0
                (py_range 0 n_sample) [])
      as (tr & te & -> & Hp & Hl).
    { rewrite length_py_range. lia. }
    cbn [mbind result_bind]. eexists. eexists. split; [reflexivity|].
    rewrite app_nil_r in Hp. split; [|split].
    + now rewrite merge_sort_Permutation.
    + rewrite (Permutation_length (merge_sort_Permutation Z.le te)).
      exact Hl.
    + apply (Sorted_merge_sort Z.le).
Qed.

Lemma train_test_split_ind_partition_witness :
  exists train_set test_set,
    train_test_split_ind (fun j => 3 * j + 1) 5 2 "random"
    = Ok (train_set, test_set)
    /\ Permutation (train_set ++ test_set) (py_range 0 5)
    /\ length test_set = Z.to_nat 2
    /\ Sorted Z.le test_set.
Proof.
  apply train_test_split_ind_partition; [simpl; auto | lia].
Defined.

(** X23: a test set larger than the data.  When [test_size] is above
    [n_sample >= 0], the method ['random'] raises [IndexError] (the train
    list is empty when the next index is drawn), whatever the generator
    draws; the method ['first'] returns, with an empty train list and a
    test list that holds [n_sample], which is not the index of a
    sample. *)
Theorem train_test_split_ind_too_large (draw : nat -> nat)
    (n_sample test_size : Z) :
  (0 <= n_sample < test_size)%Z ->
  train_test_split_ind draw n_sample test_size "random" = Raise IndexError
  /\ exists test_set,
       train_test_split_ind draw n_sample test_size "first"
       = Ok ([], test_set)
       /\ In n_sample test_set.
Proof.
  intros Hs. unfold train_test_split_ind.
  cbn [String.eqb Ascii.eqb Bool.eqb]. split.
  - rewrite draw_test_set_runs_out; [reflexivity|].
    rewrite length_py_range. lia.
  - eexists. split.
    + f_equal. f_equal. unfold py_range.
      now replace (Z.to_nat (n_sample - test_size)) with 0 by lia.
    + unfold py_range. apply in_map_iff. exists (Z.to_nat n_sample).
      split; [lia|]. apply in_seq. lia.
Qed.

Lemma train_test_split_ind_too_large_witness :
  train_test_split_ind (fun j => j) 2 3 "random" = Raise IndexError
  /\ exists test_set,
       train_test_split_ind (fun j => j) 2 3 "first" = Ok ([], test_set)
       /\ In 2%Z test_set.
Proof. apply train_test_split_ind_too_large. lia. Defined.
(* ================================================================== *)
(** * Time series of predictors *)
(* ================================================================== *)

Lemma reshape_time_steps (n t c : nat) (rest : list nat) (d : list float) :
  0 < n -> 0 < t -> 0 < size_of rest ->
  length d = n * (t * (c * size_of rest)) ->
  reshape_infer [n; t] rest (mk_array (n :: t * c :: rest) d)
  = Ok (mk_array (n :: t :: c :: rest) d).
Proof.
  intros Hn Ht Hk Hd. unfold reshape_infer. cbn [size_of fold_right data].
  fold (size_of rest). rewrite Hd.
  replace (n * (t * (c * size_of rest)))
    with (c * (n * (t * 1) * size_of rest)) by lia.
  assert (Hknown : n * (t * 1) * size_of rest <> 0) by lia.
  destruct (Nat.eqb_spec (n * (t * 1) * size_of rest) 0); [contradiction|].
  rewrite Nat.Div0.mod_mul, Nat.div_mul by assumption. reflexivity.
Qed.

(** X24: the two layouts of the predictors give the same series, and no
    sample is dropped.  For [n > 0] samples, [time_steps > 0], trailing
    axes none of which has length zero, and a well-formed buffer, the
    predictors with the time steps folded into axis 1
    ([has_time_dim=False], shape [(n, time_steps * c, ...)]) and the same
    buffer with the time steps on an axis of their own
    ([has_time_dim=True], shape [(n, time_steps, c, ...)]) give the same
    array, of shape [(n, c, ...)]: one entry for every sample. *)
Theorem predictors_to_time_series_layouts (n time_steps c : nat)
    (rest : list nat) (d : list float) (use_first_step : bool) :
  0 < n -> 0 < time_steps -> 0 < size_of rest ->
  length d = n * (time_steps * (c * size_of rest)) ->
  exists r,
    predictors_to_time_series (mk_array (n :: time_steps * c :: rest) d)
                              time_steps false use_first_step = Ok r
    /\ predictors_to_time_series (mk_array (n :: time_steps :: c :: rest) d)
                                 time_steps true use_first_step = Ok r
    /\ shape r = n :: c :: rest.
Proof.
  intros Hn Ht Hk Hd. unfold predictors_to_time_series. cbn [shape tail].
  rewrite reshape_time_steps by assumption. cbn [mbind result_bind].
  unfold index1. cbn [shape data].
  destruct (Nat.eqb_spec time_steps 0); [lia|].
  eexists. repeat split.
Qed.

Lemma predictors_to_time_series_layouts_witness :
  exists r,
    predictors_to_time_series
      (mk_array [2; 4] (map Some [1; 2; 3; 4; 5; 6; 7; 8]%R)) 2 false false
    = Ok r
    /\ predictors_to_time_series
         (mk_array [2; 2; 2] (map Some [1; 2; 3; 4; 5; 6; 7; 8]%R)) 2 true
         false
       = Ok r
    /\ shape r = [2; 2].
Proof.
  apply (predictors_to_time_series_layouts 2 2 2 [] _ false);
    simpl; lia.
Defined.
(* ================================================================== *)
(** * The day of the year *)
(* ================================================================== *)








